(** * ArchGuard: rule engine and architectural graph analysis

    A shallow embedding of the ArchGuard sources
    ([packages/core/src/index.ts], [packages/core/src/config.ts],
    [packages/core/src/parser.ts], [packages/rules-react/src/index.ts] and
    the CLI's [runChecks]) together with the properties of the
    specification that are settled against them.

    Conventions of the embedding:
    - a JavaScript string is a [string]; equality, concatenation and the
      search for a substring are those of [string], and what depends on
      the encoding of a string or on Unicode (case conversion, the order
      of [sort], the printing of numbers) is a member of the class [Host];
    - a JavaScript object used as a dictionary is an association list in
      own-property order (the order of [Object.keys]), read by first match;
    - a [Set<string>] is a [gset string];
    - the JavaScript runtime, the TypeScript compiler API, Node's [path]
      and [fs] modules and the regular-expression engine are collaborators
      outside the repository: they are the members of the class [Host] and
      of the record [FileSystem], instantiated in the examples. *)

From Stdlib Require Import String Ascii List ZArith Bool Lia.
From Stdlib Require Import DecimalString.
From stdpp Require Import base option list strings gmap.

Open Scope string_scope.
Open Scope list_scope.

(** ** JavaScript string and array primitives *)

Module Js.

(** [s.startsWith(p)] *)
Definition startsWith (s p : string) : bool := String.prefix p s.

(** [s.includes(needle)]: [needle] occurs in [s] as a contiguous run. *)
Fixpoint includes (s needle : string) : bool :=
  String.prefix needle s ||
  match s with
  | EmptyString => false
  | String _ s' => includes s' needle
  end.

(** [s.replace(/\\/g, "/")]: every backslash becomes a slash. *)
Fixpoint replace_backslashes (s : string) : string :=
  match s with
  | EmptyString => EmptyString
  | String c s' =>
      String (if Ascii.eqb c "\"%char then "/"%char else c)
             (replace_backslashes s')
  end.

(** [parts.join(sep)] on an array of strings. *)
Fixpoint join (sep : string) (parts : list string) : string :=
  match parts with
  | [] => ""
  | [p] => p
  | p :: rest => p +:+ sep +:+ join sep rest
  end.

(** [xs.indexOf(x)], with [None] for [-1]. *)
Fixpoint indexOf (xs : list string) (x : string) : option nat :=
  match xs with
  | [] => None
  | y :: ys => if String.eqb y x then Some 0
               else option_map S (indexOf ys x)
  end.

(** [xs.slice(start)] *)
Definition slice (start : nat) (xs : list string) : list string :=
  drop start xs.

(** [xs.pop()], for its effect on the array. *)
Definition pop (xs : list string) : list string := removelast xs.

(** [[...xs].sort()]: the array in ascending order of [leb], the order
    of the comparison that [sort] uses. Insertion is the step of the sort. *)
Section Sort.
Variable leb : string -> string -> bool.

Fixpoint insert_sorted (x : string) (xs : list string) : list string :=
  match xs with
  | [] => [x]
  | y :: ys => if leb x y then x :: y :: ys
               else y :: insert_sorted x ys
  end.

Fixpoint sort (xs : list string) : list string :=
  match xs with
  | [] => []
  | x :: xs' => insert_sorted x (sort xs')
  end.

End Sort.

(** A code unit of the ASCII range. *)
Definition is_ascii (c : ascii) : bool := (nat_of_ascii c <? 128)%nat.

(** A lowercase letter [a]-[z]. *)
Definition is_lower_letter (c : ascii) : bool :=
  let n := nat_of_ascii c in (97 <=? n)%nat && (n <=? 122)%nat.

End Js.

(** ** The import graph and cycle detection
    ([packages/rules-react/src/index.ts], [detectCycles]) *)

Module Graph.

(** [interface ImportGraph { [filePath: string]: string[] }] in
    [Object.keys] order. *)
Definition ImportGraph := list (string * list string).

(** [Object.keys(graph)] *)
Definition keys (graph : ImportGraph) : list string := map fst graph.

(** [graph[node]]: the first entry under that key. *)
Fixpoint get (graph : ImportGraph) (node : string) : option (list string) :=
  match graph with
  | [] => None
  | (k, v) :: rest => if String.eqb k node then Some v else get rest node
  end.

(** [graph[node] || []] *)
Definition neighbors_of (graph : ImportGraph) (node : string) : list string :=
  match get graph node with
  | Some ns => ns
  | None => []
  end.

(** The mutable locals of [detectCycles] that [dfs] closes over. *)
Record dfs_state := mk_dfs_state {
  cycles : list (list string);
  visited : gset string;
  recStack : gset string;
  path : list string
}.

Definition initial_state : dfs_state :=
  {| cycles := []; visited := ∅; recStack := ∅; path := [] |}.

(** The first three statements of [dfs]. *)
Definition enter (node : string) (st : dfs_state) : dfs_state :=
  {| cycles := cycles st;
     visited := visited st ∪ {[node]};
     recStack := recStack st ∪ {[node]};
     path := path st ++ [node] |}.

(** The last two statements of [dfs]. *)
Definition leave (node : string) (st : dfs_state) : dfs_state :=
  {| cycles := cycles st;
     visited := visited st;
     recStack := recStack st ∖ {[node]};
     path := Js.pop (path st) |}.

(** The [else if (recStack.has(neighbor))] branch. *)
Definition record_cycle (neighbor : string) (st : dfs_state) : dfs_state :=
  match Js.indexOf (path st) neighbor with
  | Some cycleStart =>
      {| cycles := cycles st ++ [Js.slice cycleStart (path st) ++ [neighbor]];
         visited := visited st;
         recStack := recStack st;
         path := path st |}
  | None => st
  end.

(** The body of the [for (const neighbor of neighbors)] loop; [rec] is the
    recursive call. *)
Definition visit_neighbor (rec : string -> dfs_state -> option dfs_state)
    (neighbor : string) (st : dfs_state) : option dfs_state :=
  if decide (neighbor ∈ visited st) then
    if decide (neighbor ∈ recStack st) then Some (record_cycle neighbor st)
    else Some st
  else rec neighbor st.

(** A [for ... of] loop whose body may fail to return. *)
Fixpoint for_each (body : string -> dfs_state -> option dfs_state)
    (xs : list string) (st : dfs_state) : option dfs_state :=
  match xs with
  | [] => Some st
  | x :: xs' =>
      match body x st with
      | Some st' => for_each body xs' st'
      | None => None
      end
  end.

(** [dfs(node)], with the depth of the recursion bounded by [fuel]. *)
Fixpoint dfs (graph : ImportGraph) (fuel : nat) (node : string)
    (st : dfs_state) : option dfs_state :=
  match fuel with
  | O => None
  | S fuel' =>
      match for_each (visit_neighbor (dfs graph fuel'))
              (neighbors_of graph node) (enter node st) with
      | Some st' => Some (leave node st')
      | None => None
      end
  end.

(** The body of the loop over [Object.keys(graph)]. *)
Definition visit_root (graph : ImportGraph) (fuel : nat) (node : string)
    (st : dfs_state) : option dfs_state :=
  if decide (node ∈ visited st) then Some st else dfs graph fuel node st.

Definition detectCycles_fuel (graph : ImportGraph) (fuel : nat)
    : option (list (list string)) :=
  option_map cycles
    (for_each (visit_root graph fuel) (keys graph) initial_state).

(** Every node the traversal can reach: the keys and the imported paths. *)
Definition nodes (graph : ImportGraph) : list string :=
  keys graph ++ concat (map snd graph).

(** [detectCycles(graph)]. The recursion is never deeper than the number
    of nodes (see [detectCycles_fuel_enough]). *)
Definition detectCycles (graph : ImportGraph) : list (list string) :=
  match detectCycles_fuel graph (S (length (nodes graph))) with
  | Some cs => cs
  | None => []
  end.

(** The properties of a graph that the claims speak of. *)

(** [u] imports [w]: an edge of the graph. *)
Definition edge (graph : ImportGraph) (u w : string) : Prop :=
  w ∈ neighbors_of graph u.

(** Every element is followed by one of its imports. *)
Fixpoint walk (graph : ImportGraph) (l : list string) : Prop :=
  match l with
  | [] => True
  | u :: l' => (forall w, head l' = Some w -> edge graph u w) /\ walk graph l'
  end.

(** A walk that comes back to the node it started from. *)
Definition closed_walk (graph : ImportGraph) (c : list string) : Prop :=
  exists n rest, c = n :: rest ++ [n] /\ walk graph c.

(** A closed walk that repeats no node but its first, which is its last. *)
Definition simple_cycle (graph : ImportGraph) (c : list string) : Prop :=
  exists n rest, c = n :: rest ++ [n] /\ NoDup (n :: rest) /\ walk graph c.

(** Two sequences that go round the same cycle, perhaps entered at
    different nodes. *)
Definition same_cycle (c c' : list string) : Prop :=
  exists k, removelast c' = rotate k (removelast c).

(** The import of [w] by [u] is on the walk [l]: [w] follows [u] there. *)
Definition on_walk (l : list string) (u w : string) : Prop :=
  exists before after, l = before ++ u :: w :: after.

(** The import of [w] by [u] closes a cycle of [cs]: it is the last import
    of that cycle, the one that leads back to its first node. *)
Definition closes (cs : list (list string)) (u w : string) : Prop :=
  exists before, before ++ [u; w] ∈ cs.

(** *** Invariants of the traversal *)

(** The state of the traversal is well formed: the set [recStack] holds the
    nodes of [path]; [path] repeats no node, lies in [visited] and follows
    import edges; every recorded cycle is a simple cycle of the graph. *)
Record wf (graph : ImportGraph) (st : dfs_state) : Prop := {
  wf_stack : recStack st = list_to_set (path st);
  wf_nodup : NoDup (path st);
  wf_visited : forall x, x ∈ path st -> x ∈ visited st;
  wf_walk : walk graph (path st);
  wf_cycles : forall c, c ∈ cycles st -> simple_cycle graph c
}.

(** What a call of [dfs] leaves as it found it, and what only grows. *)
Record frame (st st' : dfs_state) : Prop := {
  fr_path : path st' = path st;
  fr_stack : recStack st' = recStack st;
  fr_visited : visited st ⊆ visited st';
  fr_cycles : exists new, cycles st' = cycles st ++ new
}.

(** A node whose call of [dfs] has returned. *)
Definition finished (st : dfs_state) (x : string) : Prop :=
  x ∈ visited st /\ x ∉ recStack st.

(** An order of nodes in which every import of a node, but those that
    close a cycle of [cs], leads to a node that comes after it. *)
Fixpoint topo (graph : ImportGraph) (cs : list (list string))
    (F : list string) : Prop :=
  match F with
  | [] => True
  | u :: F' =>
      (forall w, edge graph u w -> w ∈ F' \/ closes cs u w) /\ topo graph cs F'
  end.

(** Nothing is missed: the finished nodes can be ordered so that their
    imports point forward, but for the imports that close a recorded
    cycle, and a finished node that imports itself has its self-loop
    recorded. *)
Record complete (graph : ImportGraph) (st : dfs_state) : Prop := {
  co_order : exists F, (forall x, x ∈ F <-> finished st x) /\
                       topo graph (cycles st) F;
  co_self : forall v, finished st v -> edge graph v v -> [v; v] ∈ cycles st
}.

(** The invariant of the loop over the imports of [node]. *)
Record loop_inv (graph : ImportGraph) (node : string) (st0 : dfs_state) (pre : list string)
    (s : dfs_state) : Prop := {
  li_wf : wf graph s;
  li_frame : frame (enter node st0) s;
  li_complete : complete graph s;
  li_done : forall w, w ∈ pre -> finished s w \/ closes (cycles s) node w;
  li_self : node ∈ pre -> [node; node] ∈ cycles s
}.

(** The invariant of the loop over the keys. *)
Record roots_inv (graph : ImportGraph) (pre : list string) (s : dfs_state) : Prop := {
  ri_wf : wf graph s;
  ri_complete : complete graph s;
  ri_path : path s = [];
  ri_stack : recStack s = ∅;
  ri_visited : forall k, k ∈ pre -> k ∈ visited s
}.

End Graph.

(** ** The syntax tree ([typescript]'s [ts.Node], as far as the rules look) *)

Module Ast.

Inductive ImportBindings : Type :=
| NamespaceImport (name : string)
| NamedImports (elements : list string).

(** [node.importClause] of an import declaration. *)
Record ImportClause : Type := mkImportClause {
  clause_isTypeOnly : bool;
  clause_name : option string;
  clause_namedBindings : option ImportBindings
}.

(** The kind of a node, with the properties the rules read:
    - [SourceFile]: its [text];
    - [ImportDeclaration]: the text of [moduleSpecifier] when it is a string
      literal, and [importClause];
    - [FunctionDeclaration], [FunctionExpression]: [name.text] when present. *)
Inductive SyntaxKind : Type :=
| SourceFile (text : string)
| ImportDeclaration (moduleSpecifier : option string)
                    (importClause : option ImportClause)
| FunctionDeclaration (name : option string)
| FunctionExpression (name : option string)
| ArrowFunction
| ForStatement
| ForInStatement
| ForOfStatement
| IfStatement
| Identifier
| PropertyAccessExpression
| BinaryExpression
| OtherKind.

(** A node: its kind, [getStart()] and its children in [forEachChild]
    order. The first child of an [IfStatement] is its [expression]. *)
Inductive Node : Type :=
| mkNode (kind : SyntaxKind) (start : nat) (children : list Node).

Definition kind (n : Node) : SyntaxKind := let (k, _, _) := n in k.
Definition getStart (n : Node) : nat := let (_, s, _) := n in s.
Definition children (n : Node) : list Node := let (_, _, c) := n in c.

Definition isImportDeclaration (n : Node) : bool :=
  match kind n with ImportDeclaration _ _ => true | _ => false end.
Definition isFunctionDeclaration (n : Node) : bool :=
  match kind n with FunctionDeclaration _ => true | _ => false end.
Definition isFunctionExpression (n : Node) : bool :=
  match kind n with FunctionExpression _ => true | _ => false end.
Definition isArrowFunction (n : Node) : bool :=
  match kind n with ArrowFunction => true | _ => false end.
Definition isForStatement (n : Node) : bool :=
  match kind n with ForStatement => true | _ => false end.
Definition isForInStatement (n : Node) : bool :=
  match kind n with ForInStatement => true | _ => false end.
Definition isForOfStatement (n : Node) : bool :=
  match kind n with ForOfStatement => true | _ => false end.
Definition isIfStatement (n : Node) : bool :=
  match kind n with IfStatement => true | _ => false end.
Definition isIdentifier (n : Node) : bool :=
  match kind n with Identifier => true | _ => false end.
Definition isPropertyAccessExpression (n : Node) : bool :=
  match kind n with PropertyAccessExpression => true | _ => false end.
Definition isBinaryExpression (n : Node) : bool :=
  match kind n with BinaryExpression => true | _ => false end.

(** The text of [node.moduleSpecifier] when the node is an import
    declaration whose specifier is a string literal. *)
Definition moduleSpecifierText (n : Node) : option string :=
  match kind n with ImportDeclaration spec _ => spec | _ => None end.

(** A recursive [visit] that handles the node and then calls
    [ts.forEachChild(node, visit)]; [S] is what the handler mutates. *)
Fixpoint visit_all {S : Type} (handle : Node -> S -> S) (node : Node) (s : S)
    {struct node} : S :=
  match node with
  | mkNode _ _ cs =>
      fold_left (fun acc c => visit_all handle c acc) cs (handle node s)
  end.

End Ast.

(** ** The collaborators outside the repository *)

Module Host.

(** The JavaScript runtime, the TypeScript compiler API, Node's [path]
    module and the regular-expression engine, as the sources call them:
    - [createSourceFile fileName sourceText] is
      [ts.createSourceFile(fileName, sourceText, ScriptTarget.Latest, true,
      ScriptKind.TSX)];
    - [getLineAndCharacterOfPosition sourceFile pos] gives the 0-based line
      and character of an offset;
    - [path_dirname], [path_resolve] are [path.dirname], [path.resolve];
    - [matchAll source text] gives [match.index] for every match of
      [text.matchAll(new RegExp(source, "g"))], in order;
    - [startsWithOwnUpperCase name] is [name[0] === name[0].toUpperCase()]
      for a [name] that is not empty: whether [String.prototype.toUpperCase]
      leaves the first UTF-16 code unit of the name as it is;
    - [codeUnitLeb a b] says that [a] does not come after [b] in the order
      of [Array.prototype.sort] without a comparator, which compares the
      strings by their UTF-16 code units;
    - [numberToString z] is the string conversion of the number [z], as
      [Array.prototype.join] and template literals apply it. *)
Class Host : Type := mkHost {
  createSourceFile : string -> string -> Ast.Node;
  getLineAndCharacterOfPosition : Ast.Node -> nat -> nat * nat;
  path_dirname : string -> string;
  path_resolve : string -> string -> string;
  matchAll : string -> string -> list nat;
  startsWithOwnUpperCase : string -> bool;
  codeUnitLeb : string -> string -> bool;
  numberToString : Z -> string
}.

(** What the language guarantees of the order of [sort]: it is a total
    order of the strings. *)
Definition sorts_by_total_order `{Host} : Prop :=
  (forall a b, codeUnitLeb a b = true \/ codeUnitLeb b a = true) /\
  (forall a b c, codeUnitLeb a b = true -> codeUnitLeb b c = true ->
                 codeUnitLeb a c = true) /\
  (forall a b, codeUnitLeb a b = true -> codeUnitLeb b a = true -> a = b).

(** What the language guarantees of case conversion in the ASCII range:
    it changes the letters [a]-[z] and nothing else. *)
Definition converts_ascii_letters `{Host} : Prop :=
  forall c rest,
    Js.is_ascii c = true ->
    startsWithOwnUpperCase (String c rest) = negb (Js.is_lower_letter c).

(** What [runChecks] reads of the file system. *)
Record FileSystem : Type := mkFileSystem {
  readFileSync : string -> string;
  existsSync : string -> bool;
  isFile : string -> bool
}.

End Host.

(** ** Runtime values of a parsed configuration document *)

Module JsValue.

(** What [parseYaml] can return: the JSON values (numbers restricted to the
    integers). Object properties are listed in own-property order. *)
Inductive JsValue : Type :=
| JUndefined
| JNull
| JBool (b : bool)
| JNum (z : Z)
| JStr (s : string)
| JArr (items : list JsValue)
| JObj (props : list (string * JsValue)).

(** [!!v] *)
Definition truthy (v : JsValue) : bool :=
  match v with
  | JUndefined | JNull => false
  | JBool b => b
  | JNum z => negb (z =? 0)%Z
  | JStr s => negb (String.eqb s "")
  | JArr _ | JObj _ => true
  end.

(** [typeof v === "object"] *)
Definition typeof_object (v : JsValue) : bool :=
  match v with
  | JNull | JArr _ | JObj _ => true
  | _ => false
  end.

(** [a || b] *)
Definition or_else (a b : JsValue) : JsValue := if truthy a then a else b.

(** [a ?? b] *)
Definition nullish_else (a b : JsValue) : JsValue :=
  match a with
  | JUndefined | JNull => b
  | _ => a
  end.

(** The decimal numeral of an array index. *)
Definition index_key (i : nat) : string := NilZero.string_of_uint (Nat.to_uint i).

(** The indexed entries of an array, from index [i] on. *)
Fixpoint indexed (i : nat) (items : list JsValue) : list (string * JsValue) :=
  match items with
  | [] => []
  | v :: rest => (index_key i, v) :: indexed (S i) rest
  end.

(** [Object.entries(v)] *)
Definition entries (v : JsValue) : list (string * JsValue) :=
  match v with
  | JObj props => props
  | JArr items => indexed 0 items
  | _ => []
  end.

(** The first property under a key. *)
Fixpoint lookup_prop (props : list (string * JsValue)) (key : string)
    : option JsValue :=
  match props with
  | [] => None
  | (k, v) :: rest => if String.eqb k key then Some v else lookup_prop rest key
  end.

(** [v.key] for a data property: [undefined] when there is none. On an
    array the data properties are its indices and [length]. *)
Definition get_prop (v : JsValue) (key : string) : JsValue :=
  match v with
  | JObj props =>
      match lookup_prop props key with Some x => x | None => JUndefined end
  | JArr items =>
      match lookup_prop (indexed 0 items) key with
      | Some x => x
      | None => if String.eqb key "length"
                then JNum (Z.of_nat (length items)) else JUndefined
      end
  | _ => JUndefined
  end.

Section WithHost.
Context `{Host.Host}.

(** [String(v)] *)
Fixpoint to_string (v : JsValue) : string :=
  match v with
  | JUndefined => "undefined"
  | JNull => "null"
  | JBool true => "true"
  | JBool false => "false"
  | JNum z => Host.numberToString z
  | JStr s => s
  | JArr items =>
      Js.join ","
        (map (fun x => match x with
                       | JUndefined | JNull => ""
                       | _ => to_string x
                       end) items)
  | JObj _ => "[object Object]"
  end.

(** One element of [Array.prototype.join]: nothing for [undefined] and
    [null], the string conversion otherwise. *)
Definition join_item (v : JsValue) : string :=
  match v with
  | JUndefined | JNull => ""
  | _ => to_string v
  end.

(** [items.join(sep)] on an array of values. *)
Definition join_values (sep : string) (items : list JsValue) : string :=
  Js.join sep (map join_item items).

End WithHost.

(** [new Set(items).has(s)] for a string [s]: some element is that string. *)
Definition has_string (items : list JsValue) (s : string) : bool :=
  existsb (fun v => match v with JStr t => String.eqb t s | _ => false end) items.

End JsValue.

(** ** A count of the scans of the import graph *)

Module Counted.

(** A result together with the number of times [detectCycles] ran to
    produce it. *)
Definition Counted (A : Type) : Type := (A * nat)%type.

Definition ret {A : Type} (a : A) : Counted A := (a, 0).

Definition bind {A B : Type} (m : Counted A) (f : A -> Counted B) : Counted B :=
  let (a, n) := m in
  let (b, k) := f a in
  (b, n + k).

(** One run of the scan, with its result. *)
Definition scanned {A : Type} (a : A) : Counted A := (a, 1).

Definition value {A : Type} (m : Counted A) : A := fst m.

Definition scans {A : Type} (m : Counted A) : nat := snd m.

End Counted.

Notation "'let*' x ':=' m 'in' k" := (Counted.bind m (fun x => k))
  (at level 10, x name, m at level 100, k at level 200).


(** ** The rule engine ([packages/core/src/index.ts]) *)

Module Core.
Import JsValue Counted.

Record Violation : Type := mkViolation {
  file : string;
  line : nat;
  column : nat;
  message : string;
  rule : string
}.

Record ImportInfo : Type := mkImportInfo {
  from : string;
  specifiers : list string;
  isTypeOnly : bool
}.

Record RuleResult : Type := mkRuleResult {
  violations : list Violation;
  passed : bool
}.

(** [interface LayerConfig]. The elements are kept as the configuration
    document has them: the loader checks only that they form an array. *)
Record LayerConfig : Type := mkLayerConfig {
  allowedImports : list JsValue
}.

(** The [rules] member of [interface ArchitectureConfig]: the toggles are
    tested for truthiness only. *)
Record RuleToggles : Type := mkRuleToggles {
  noBusinessLogicInComponents : JsValue;
  noDataFetchingInUI : JsValue;
  enforceFeatureBoundaries : JsValue;
  noCircularLayerDeps : JsValue
}.

(** [interface ArchitectureConfig]; [layers] in [Object.keys] order. *)
Record ArchitectureConfig : Type := mkArchitectureConfig {
  layers : list (string * LayerConfig);
  rules : RuleToggles
}.

Record RuleContext : Type := mkRuleContext {
  filePath : string;
  sourceCode : string;
  ast : Ast.Node;
  imports : list ImportInfo;
  architecture : ArchitectureConfig;
  importGraph : option Graph.ImportGraph
}.

(** [interface Rule] *)
Record Rule : Type := mkRule {
  name : string;
  description : string;
  execute : RuleContext -> Counted RuleResult
}.

(** [class RuleEngine]: its one field. *)
Record RuleEngine : Type := mkRuleEngine {
  engine_rules : list Rule
}.

(** [new RuleEngine()] *)
Definition new_RuleEngine : RuleEngine := {| engine_rules := [] |}.

(** [registerRule(rule)] *)
Definition registerRule (rule : Rule) (engine : RuleEngine) : RuleEngine :=
  {| engine_rules := engine_rules engine ++ [rule] |}.

(** The loop of [executeRules] over the rules still to run. *)
Fixpoint executeRules_loop (todo : list Rule) (context : RuleContext)
    (allViolations : list Violation) : Counted (list Violation) :=
  match todo with
  | [] => ret allViolations
  | rule :: rest =>
      let* result := execute rule context in
      executeRules_loop rest context (allViolations ++ violations result)
  end.

(** [executeRules(context)] *)
Definition executeRules (engine : RuleEngine) (context : RuleContext)
    : Counted RuleResult :=
  let* allViolations := executeRules_loop (engine_rules engine) context [] in
  ret {| violations := allViolations;
         passed := Nat.eqb (length allViolations) 0 |}.

(** [getRegisteredRules()] *)
Definition getRegisteredRules (engine : RuleEngine) : list Rule :=
  engine_rules engine.

(** [{ violations: [], passed: true }] *)
Definition empty_result : RuleResult := {| violations := []; passed := true |}.

(** [layers[layerName]] for a name among [Object.keys(layers)]: the own
    property under that name. *)
Fixpoint get_layer (ls : list (string * LayerConfig)) (layerName : string)
    : option LayerConfig :=
  match ls with
  | [] => None
  | (k, v) :: rest => if String.eqb k layerName then Some v
                      else get_layer rest layerName
  end.

(** The own properties after [layers[layerName] = config] with a key that
    is an own property or a new one: in place when the key is there, at the
    end otherwise. *)
Fixpoint set_own_layer (ls : list (string * LayerConfig)) (layerName : string)
    (config : LayerConfig) : list (string * LayerConfig) :=
  match ls with
  | [] => [(layerName, config)]
  | (k, v) :: rest => if String.eqb k layerName then (k, config) :: rest
                      else (k, v) :: set_own_layer rest layerName config
  end.

(** The own properties after [layers[layerName] = config] on an object
    made by [{}]: the key [__proto__] is the accessor of
    [Object.prototype], so the assignment sets the prototype of [layers]
    and adds no property; every other key is set as an own property. *)
Definition set_layer (ls : list (string * LayerConfig)) (layerName : string)
    (config : LayerConfig) : list (string * LayerConfig) :=
  if String.eqb layerName "__proto__" then ls
  else set_own_layer ls layerName config.

End Core.

(** ** The configuration validator ([packages/core/src/config.ts]) *)

Module Config.
Import JsValue Core.

(** A function that returns [A] or throws an [Error] with a message. *)
Inductive Outcome (A : Type) : Type :=
| Returns (a : A)
| Throws (message : string).
Arguments Returns {A} a.
Arguments Throws {A} message.

(** The loop over [Object.entries(config.layers)]. *)
Fixpoint validate_layers (todo : list (string * JsValue))
    (layers : list (string * LayerConfig))
    : Outcome (list (string * LayerConfig)) :=
  match todo with
  | [] => Returns layers
  | (layerName, layerConfig) :: rest =>
      if negb (truthy layerConfig) || negb (typeof_object layerConfig) then
        Throws ("Invalid layer config for '" +:+ layerName
                +:+ "': must be an object")
      else
        (* [Array.isArray(layer.allowedImports)] *)
        match get_prop layerConfig "allowedImports" with
        | JArr items =>
            validate_layers rest
              (set_layer layers layerName {| allowedImports := items |})
        | _ =>
            Throws ("Invalid layer config for '" +:+ layerName
                    +:+ "': 'allowedImports' must be an array")
        end
  end.

(** [validateArchitectureConfig(config)] *)
Definition validateArchitectureConfig (config : JsValue)
    : Outcome ArchitectureConfig :=
  if negb (truthy config) || negb (typeof_object config) then
    Throws "Invalid architecture config: must be an object"
  else if negb (truthy (get_prop config "layers"))
          || negb (typeof_object (get_prop config "layers")) then
    Throws "Invalid architecture config: 'layers' must be an object"
  else
    match validate_layers (entries (get_prop config "layers")) [] with
    | Throws msg => Throws msg
    | Returns layers =>
        let rules := or_else (get_prop config "rules") (JObj []) in
        Returns
          {| layers := layers;
             rules :=
               {| noBusinessLogicInComponents :=
                    nullish_else (get_prop rules "noBusinessLogicInComponents")
                                 (JBool false);
                  noDataFetchingInUI :=
                    nullish_else (get_prop rules "noDataFetchingInUI")
                                 (JBool false);
                  enforceFeatureBoundaries :=
                    nullish_else (get_prop rules "enforceFeatureBoundaries")
                                 (JBool false);
                  noCircularLayerDeps :=
                    nullish_else (get_prop rules "noCircularLayerDeps")
                                 (JBool false) |} |}
    end.

End Config.

(** ** The parser utilities ([packages/core/src/parser.ts]) *)

Module Parser.
Import Ast Core Host.

Section WithHost.
Context `{Host}.

(** [parseTypeScript(sourceCode, fileName)] *)
Definition parseTypeScript (sourceCode fileName : string) : Node :=
  createSourceFile fileName sourceCode.

End WithHost.

(** The names an import clause binds, in the order [extractImports] pushes
    them. *)
Definition clause_specifiers (clause : ImportClause) : list string :=
  match clause_namedBindings clause with
  | Some (NamespaceImport n) => [n]
  | Some (NamedImports elements) => elements
  | None => []
  end
  ++ match clause_name clause with
     | Some n => [n]
     | None => []
     end.

(** The body of [visit] in [extractImports], before it descends. *)
Definition extractImports_handle (node : Node) (imports : list ImportInfo)
    : list ImportInfo :=
  match kind node with
  | ImportDeclaration (Some text) importClause =>
      imports ++
      [ {| from := text;
           specifiers := match importClause with
                         | Some clause => clause_specifiers clause
                         | None => []
                         end;
           isTypeOnly := match importClause with
                         | Some clause => clause_isTypeOnly clause
                         | None => false
                         end |} ]
  | _ => imports
  end.

(** [extractImports(sourceFile)] *)
Definition extractImports (sourceFile : Node) : list ImportInfo :=
  visit_all extractImports_handle sourceFile [].

End Parser.

(** ** The rules ([packages/rules-react/src/index.ts]) *)

Module Rules.
Import JsValue Counted Ast Core Host Parser.

Section WithHost.
Context `{Host}.

(** [isRelativeImport(importPath)] *)
Definition isRelativeImport (importPath : string) : bool :=
  Js.startsWith importPath "." || Js.startsWith importPath "/".

(** The loop of [detectLayerFromPath] over the layer names. *)
Fixpoint first_layer_in (normalizedPath : string) (layerNames : list string)
    : option string :=
  match layerNames with
  | [] => None
  | layerName :: rest =>
      if Js.includes normalizedPath ("/" +:+ layerName +:+ "/")
         || Js.includes normalizedPath ("\" +:+ layerName +:+ "\")
      then Some layerName
      else first_layer_in normalizedPath rest
  end.

(** [detectLayerFromPath(filePath, layers)] *)
Definition detectLayerFromPath (filePath : string)
    (layers : list (string * LayerConfig)) : option string :=
  first_layer_in (Js.replace_backslashes filePath) (map fst layers).

(** A [string | null] used as a condition: neither [null] nor empty. *)
Definition truthy_name (name : option string) : bool :=
  match name with
  | Some s => negb (String.eqb s "")
  | None => false
  end.

(** [isComponentFunction(node)] *)
Definition isComponentFunction (node : Node) : bool :=
  if negb (isFunctionDeclaration node) && negb (isFunctionExpression node)
     && negb (isArrowFunction node)
  then false
  else
    let name := match kind node with
                | FunctionDeclaration (Some text) => Some text
                | _ => None
                end in
    match name with
    | Some (String c rest) =>
        startsWithOwnUpperCase (String c rest)
        || Js.startsWith (String c rest) "use"
    | _ => false
    end.

(** The body of [visit] in [findImportNode]: a matching import declaration
    is stored and not descended into; the traversal goes on after it. *)
Fixpoint findImportNode_visit (importPath : string) (node : Node)
    (found : option Node) {struct node} : option Node :=
  match node with
  | mkNode k _ cs =>
      let descend :=
        fold_left (fun acc c => findImportNode_visit importPath c acc) cs found
      in
      match k with
      | ImportDeclaration (Some text) _ =>
          if String.eqb text importPath then Some node else descend
      | _ => descend
      end
  end.

(** [findImportNode(sourceFile, importPath)] *)
Definition findImportNode (sourceFile : Node) (importPath : string)
    : option Node :=
  findImportNode_visit importPath sourceFile None.

(** The two flags of [isReactComponentFile]. *)
Definition isReactComponentFile_handle (node : Node) (flags : bool * bool)
    : bool * bool :=
  let (hasReactImport, hasComponent) := flags in
  let hasReactImport :=
    match kind node with
    | ImportDeclaration (Some text) _ =>
        if String.eqb text "react" then true else hasReactImport
    | _ => hasReactImport
    end in
  let hasComponent :=
    if isFunctionDeclaration node || isFunctionExpression node
       || isArrowFunction node
    then if isComponentFunction node then true else hasComponent
    else hasComponent in
  (hasReactImport, hasComponent).

(** [isReactComponentFile(sourceFile)] *)
Definition isReactComponentFile (sourceFile : Node) : bool :=
  let (hasReactImport, hasComponent) :=
    visit_all isReactComponentFile_handle sourceFile (false, false) in
  hasReactImport && hasComponent.

(** [isSimpleConditional(node)]: the test is the first child. *)
Definition isSimpleConditional (node : Node) : bool :=
  match children node with
  | expression :: _ =>
      isIdentifier expression || isPropertyAccessExpression expression
      || isBinaryExpression expression
  | [] => false
  end.

(** [detectLayerFromImportPath(importPath, fromFile, layers)] *)
Definition detectLayerFromImportPath (importPath fromFile : string)
    (layers : list (string * LayerConfig)) : option string :=
  detectLayerFromPath (path_resolve (path_dirname fromFile) importPath) layers.

(** A violation at an offset of the source file. *)
Definition violation_at (sourceFile : Node) (pos : nat)
    (filePath message rule : string) : Violation :=
  let (line, character) := getLineAndCharacterOfPosition sourceFile pos in
  {| file := filePath;
     line := line + 1;
     column := character + 1;
     message := message;
     rule := rule |}.

(** *** layer-import-boundary *)

Definition boundary_message (layerName importedLayer : string)
    (layerConfig : LayerConfig) : string :=
  let allowedList :=
    if Nat.ltb 0 (length (allowedImports layerConfig))
    then join_values ", " (allowedImports layerConfig)
    else "none" in
  "Layer '" +:+ layerName +:+ "' cannot import from '" +:+ importedLayer
  +:+ "'. Import from allowed layers only: " +:+ allowedList
  +:+ ". Move the imported code to an allowed layer or restructure dependencies.".

(** The body of the loop over [context.imports]. *)
Definition boundary_step (context : RuleContext) (layerName : string)
    (layerConfig : LayerConfig) (violations : list Violation)
    (imp : ImportInfo) : list Violation :=
  if isRelativeImport (from imp) then
    let importedLayer :=
      detectLayerFromImportPath (from imp) (filePath context)
        (layers (architecture context)) in
    match importedLayer with
    | Some imported =>
        if negb (String.eqb imported "") && negb (String.eqb imported layerName)
        then
          if negb (has_string (allowedImports layerConfig) imported) then
            let sourceFile :=
              parseTypeScript (sourceCode context) (filePath context) in
            match findImportNode sourceFile (from imp) with
            | Some importNode =>
                violations ++
                [violation_at sourceFile (getStart importNode)
                   (filePath context)
                   (boundary_message layerName imported layerConfig)
                   "layer-import-boundary"]
            | None => violations
            end
          else violations
        else violations
    | None => violations
    end
  else violations.

Definition layerImportBoundary_execute (context : RuleContext)
    : Counted RuleResult :=
  if negb (truthy (enforceFeatureBoundaries (rules (architecture context))))
  then ret empty_result
  else
    let layerName :=
      detectLayerFromPath (filePath context) (layers (architecture context)) in
    if negb (truthy_name layerName) then ret empty_result
    else
      match layerName with
      | None => ret empty_result
      | Some layerName =>
          match get_layer (layers (architecture context)) layerName with
          | None => ret empty_result
          | Some layerConfig =>
              let violations :=
                fold_left (boundary_step context layerName layerConfig)
                  (imports context) [] in
              ret {| violations := violations;
                     passed := Nat.eqb (length violations) 0 |}
          end
      end.

(** [createLayerImportBoundaryRule()] *)
Definition createLayerImportBoundaryRule : Rule :=
  {| name := "layer-import-boundary";
     description := "Enforces layer import boundaries";
     execute := layerImportBoundary_execute |}.

(** *** no-business-logic-in-components *)

(** The body of [visit] in [checkForBusinessLogic], before it descends. *)
Definition checkForBusinessLogic_handle (sourceFile : Node) (filePath : string)
    (n : Node) (violations : list Violation) : list Violation :=
  let violations :=
    if isForStatement n || isForInStatement n || isForOfStatement n then
      violations ++
      [violation_at sourceFile (getStart n) filePath
         "Loop detected in UI component. Extract loop logic to a utility function in features/domain layer and pass processed data as props."
         "no-business-logic-in-components"]
    else violations in
  if isIfStatement n && negb (isSimpleConditional n) then
    violations ++
    [violation_at sourceFile (getStart n) filePath
       "Complex conditional in UI component. Extract to a custom hook (e.g. useConditionalLogic) in features layer or move to domain utilities."
       "no-business-logic-in-components"]
  else violations.

(** [checkForBusinessLogic(node, sourceFile, violations, filePath)] *)
Definition checkForBusinessLogic (node sourceFile : Node)
    (violations : list Violation) (filePath : string) : list Violation :=
  visit_all (checkForBusinessLogic_handle sourceFile filePath) node violations.

(** The body of [visit] in the rule, before it descends. *)
Definition businessLogic_handle (sourceFile : Node) (filePath : string)
    (node : Node) (violations : list Violation) : list Violation :=
  if isComponentFunction node
  then checkForBusinessLogic node sourceFile violations filePath
  else violations.

Definition businessLogic_execute (context : RuleContext) : Counted RuleResult :=
  if negb (truthy (noBusinessLogicInComponents (rules (architecture context))))
  then ret empty_result
  else
    let sourceFile := parseTypeScript (sourceCode context) (filePath context) in
    if negb (isReactComponentFile sourceFile) then ret empty_result
    else
      let violations :=
        visit_all (businessLogic_handle sourceFile (filePath context))
          sourceFile [] in
      ret {| violations := violations;
             passed := Nat.eqb (length violations) 0 |}.

(** [createBusinessLogicInComponentsRule()] *)
Definition createBusinessLogicInComponentsRule : Rule :=
  {| name := "no-business-logic-in-components";
     description := "Detects business logic inside React components";
     execute := businessLogic_execute |}.

(** *** no-data-fetching-in-ui *)

(** The sources of the regular expressions in [forbiddenPatterns]. *)
Definition forbiddenPatterns : list string :=
  [ "fetch\s*\(";
    "axios\.";
    "\.get\s*\(";
    "\.post\s*\(";
    "\.put\s*\(";
    "\.delete\s*\(";
    "useEffect\s*\([^)]*=>\s*\{[^}]*fetch";
    "useEffect\s*\([^)]*=>\s*\{[^}]*axios" ].

Definition dataFetching_message : string :=
  "Data fetching in UI component violates architecture. Create a custom hook in the features layer (e.g. useUserData) and call it from the component.".

(** The two nested loops: over the patterns, and over the matches of each. *)
Definition dataFetching_violations (sourceFile : Node) (context : RuleContext)
    : list Violation :=
  fold_left
    (fun violations pattern =>
       fold_left
         (fun violations index =>
            violations ++
            [violation_at sourceFile index (filePath context)
               dataFetching_message "no-data-fetching-in-ui"])
         (matchAll pattern (sourceCode context)) violations)
    forbiddenPatterns [].

Definition dataFetching_execute (context : RuleContext) : Counted RuleResult :=
  if negb (truthy (noDataFetchingInUI (rules (architecture context))))
  then ret empty_result
  else
    let sourceFile := parseTypeScript (sourceCode context) (filePath context) in
    if negb (isReactComponentFile sourceFile) then ret empty_result
    else
      let violations := dataFetching_violations sourceFile context in
      ret {| violations := violations;
             passed := Nat.eqb (length violations) 0 |}.

(** [createDataFetchingInUIRule()] *)
Definition createDataFetchingInUIRule : Rule :=
  {| name := "no-data-fetching-in-ui";
     description := "Prevents data fetching inside UI components";
     execute := dataFetching_execute |}.

(** *** no-circular-layer-deps *)

(** [detectCycles(context.importGraph)], counted as one scan. *)
Definition scan_detectCycles (graph : Graph.ImportGraph)
    : Counted (list (list string)) :=
  scanned (Graph.detectCycles graph).

(** The separator of [cycle.join]: a space, U+2192 and a space. *)
Definition arrow : string := " → ".

Definition circular_message (cycle : list string) : string :=
  "Circular dependency detected: " +:+ Js.join arrow cycle
  +:+ ". Break the cycle by extracting shared code to a common layer or using dependency inversion.".

(** [sortedCycle[0]] for [sortedCycle = [...cycle].sort()]. *)
Definition firstFileInCycle (cycle : list string) : option string :=
  head (Js.sort codeUnitLeb cycle).

(** The body of the loop over [cycles]. *)
Definition circular_step (context : RuleContext) (violations : list Violation)
    (cycle : list string) : list Violation :=
  if decide (Some (filePath context) = firstFileInCycle cycle) then
    violations ++
    [ {| file := filePath context;
         line := 1;
         column := 1;
         message := circular_message cycle;
         rule := "no-circular-layer-deps" |} ]
  else violations.

Definition circularDependency_execute (context : RuleContext)
    : Counted RuleResult :=
  if negb (truthy (noCircularLayerDeps (rules (architecture context))))
  then ret empty_result
  else
    match importGraph context with
    | None => ret empty_result
    | Some graph =>
        let* cycles := scan_detectCycles graph in
        let violations := fold_left (circular_step context) cycles [] in
        ret {| violations := violations;
               passed := Nat.eqb (length violations) 0 |}
    end.

(** [createCircularDependencyRule()] *)
Definition createCircularDependencyRule : Rule :=
  {| name := "no-circular-layer-deps";
     description := "Detects circular dependencies across layers";
     execute := circularDependency_execute |}.

End WithHost.

End Rules.

(** ** The check command (the CLI's [runChecks]) *)

Module Cli.
Import JsValue Counted Ast Core Host Parser Rules.

Section WithHost.
Context `{Host}.

(** The first of [candidates] that exists. *)
Fixpoint first_existing (fs : FileSystem) (candidates : list string)
    : option string :=
  match candidates with
  | [] => None
  | p :: rest => if existsSync fs p then Some p else first_existing fs rest
  end.

(** [resolveImportPath(importPath, fromFile)] *)
Definition resolveImportPath (fs : FileSystem) (importPath fromFile : string)
    : option string :=
  let resolved := path_resolve (path_dirname fromFile) importPath in
  if existsSync fs resolved && isFile fs resolved then Some resolved
  else
    match first_existing fs
            (map (fun ext => resolved +:+ ext) [".ts"; ".tsx"; ".js"; ".jsx"])
    with
    | Some withExt => Some withExt
    | None =>
        first_existing fs
          (map (fun ext => resolved +:+ ext)
               ["/index.ts"; "/index.tsx"; "/index.js"; "/index.jsx"])
    end.

(** The body of the loop over the imports of one file. *)
Definition relativeImports_step (fs : FileSystem) (sourceFiles : list string)
    (filePath : string) (relativeImports : list string) (imp : ImportInfo)
    : list string :=
  if Js.startsWith (from imp) "." || Js.startsWith (from imp) "/" then
    match resolveImportPath fs (from imp) filePath with
    | Some resolvedPath =>
        if negb (String.eqb resolvedPath "")
           && bool_decide (resolvedPath ∈ sourceFiles)
        then relativeImports ++ [resolvedPath]
        else relativeImports
    | None => relativeImports
    end
  else relativeImports.

(** [graph[filePath] = relativeImports] *)
Fixpoint graph_set (graph : Graph.ImportGraph) (filePath : string)
    (relativeImports : list string) : Graph.ImportGraph :=
  match graph with
  | [] => [(filePath, relativeImports)]
  | (k, v) :: rest =>
      if String.eqb k filePath then (k, relativeImports) :: rest
      else (k, v) :: graph_set rest filePath relativeImports
  end.

(** [buildImportGraph(sourceFiles, cwd)] *)
Definition buildImportGraph (fs : FileSystem) (sourceFiles : list string)
    : Graph.ImportGraph :=
  fold_left
    (fun graph filePath =>
       let sourceCode := readFileSync fs filePath in
       let ast := parseTypeScript sourceCode filePath in
       let imports := extractImports ast in
       graph_set graph filePath
         (fold_left (relativeImports_step fs sourceFiles filePath) imports []))
    sourceFiles [].

(** The engine of [runChecks] with its four rules registered. *)
Definition check_engine : RuleEngine :=
  registerRule createCircularDependencyRule
    (registerRule createDataFetchingInUIRule
       (registerRule createBusinessLogicInComponentsRule
          (registerRule createLayerImportBoundaryRule new_RuleEngine))).

(** The loop of [runChecks] over the source files still to analyze. *)
Fixpoint runChecks_loop (fs : FileSystem) (architecture : ArchitectureConfig)
    (importGraph : Graph.ImportGraph) (engine : RuleEngine)
    (todo : list string) (allViolations : list Violation)
    : Counted (list Violation) :=
  match todo with
  | [] => ret allViolations
  | filePath :: rest =>
      let sourceCode := readFileSync fs filePath in
      let ast := parseTypeScript sourceCode filePath in
      let imports := extractImports ast in
      let context :=
        {| filePath := filePath;
           sourceCode := sourceCode;
           ast := ast;
           imports := imports;
           architecture := architecture;
           importGraph := Some importGraph |} in
      let* result := executeRules engine context in
      runChecks_loop fs architecture importGraph engine rest
        (allViolations ++ violations result)
  end.

(** The violations [runChecks] collects, for the configuration it loaded
    and the files [findTypeScriptFiles] listed. *)
Definition runChecks_violations (fs : FileSystem)
    (architecture : ArchitectureConfig) (sourceFiles : list string)
    : Counted (list Violation) :=
  let engine := check_engine in
  let importGraph := buildImportGraph fs sourceFiles in
  runChecks_loop fs architecture importGraph engine sourceFiles [].

(** What [runChecks] returns. *)
Record CheckResult : Type := mkCheckResult {
  check_passed : bool;
  violationCount : nat
}.

(** [runChecks()], from the loaded configuration and the file list on. *)
Definition runChecks (fs : FileSystem) (architecture : ArchitectureConfig)
    (sourceFiles : list string) : Counted CheckResult :=
  let* allViolations := runChecks_violations fs architecture sourceFiles in
  if Nat.ltb 0 (length allViolations)
  then ret {| check_passed := false; violationCount := length allViolations |}
  else ret {| check_passed := true; violationCount := 0 |}.

End WithHost.
End Cli.

(** ** A host for the examples

    POSIX [path] functions on absolute paths, a reader of one-line import
    statements, and a file system given by a table. *)

Module ExampleHost.
Import Ast Host.

Definition slash : ascii := "/"%char.
Definition newline : ascii := "010"%char.
Definition quote : ascii := "'"%char.

(** The line break between the statements of the example files. *)
Definition nl : string := String newline "".

(** The segments of a path between slashes; [cur] is the segment being
    read, reversed. *)
Fixpoint segments_from (cur : string) (s : string) : list string :=
  match s with
  | EmptyString => [String.rev cur]
  | String c s' =>
      if Ascii.eqb c slash then String.rev cur :: segments_from "" s'
      else segments_from (String c cur) s'
  end.

Definition segments (s : string) : list string := segments_from "" s.

(** Resolution of [.] and [..] and of empty segments; [stack] is reversed. *)
Fixpoint normalize_segments (stack todo : list string) : list string :=
  match todo with
  | [] => rev stack
  | seg :: rest =>
      if String.eqb seg "" || String.eqb seg "." then
        normalize_segments stack rest
      else if String.eqb seg ".." then normalize_segments (tl stack) rest
      else normalize_segments (seg :: stack) rest
  end.

Definition absolute (segs : list string) : string :=
  "/" +:+ Js.join "/" segs.

(** [path.dirname] of an absolute path. *)
Definition posix_dirname (p : string) : string :=
  absolute (removelast (normalize_segments [] (segments p))).

(** [path.resolve(dir, p)] for an absolute [dir]. *)
Definition posix_resolve (dir p : string) : string :=
  if Js.startsWith p "/" then absolute (normalize_segments [] (segments p))
  else absolute (normalize_segments [] (segments dir ++ segments p)).

(** The lines of a text with the offsets they start at; [cur] is the line
    being read, reversed. *)
Fixpoint lines_from (start pos : nat) (cur : string) (s : string)
    : list (nat * string) :=
  match s with
  | EmptyString => [(start, String.rev cur)]
  | String c s' =>
      if Ascii.eqb c newline
      then (start, String.rev cur) :: lines_from (S pos) (S pos) "" s'
      else lines_from start (S pos) (String c cur) s'
  end.

(** What follows the first quote of a line, up to the next quote. *)
Fixpoint until_quote (s : string) : string :=
  match s with
  | EmptyString => ""
  | String c s' => if Ascii.eqb c quote then "" else String c (until_quote s')
  end.

Fixpoint quoted (s : string) : option string :=
  match s with
  | EmptyString => None
  | String c s' => if Ascii.eqb c quote then Some (until_quote s') else quoted s'
  end.

(** One statement per line: a line that starts with [import] is an import
    declaration of the quoted specifier, any other line another statement. *)
Definition statement_of (l : nat * string) : Node :=
  let (start, text) := l in
  if Js.startsWith text "import"
  then mkNode (ImportDeclaration (quoted text) None) start []
  else mkNode OtherKind start [].

Definition example_createSourceFile (fileName sourceText : string) : Node :=
  mkNode (SourceFile sourceText) 0
    (map statement_of (lines_from 0 0 "" sourceText)).

(** Line and character of an offset: the line breaks before it are counted. *)
Fixpoint line_and_character (s : string) (pos line character : nat)
    : nat * nat :=
  match pos, s with
  | S pos', String c s' =>
      if Ascii.eqb c newline then line_and_character s' pos' (S line) 0
      else line_and_character s' pos' line (S character)
  | _, _ => (line, character)
  end.

Definition example_getLineAndCharacterOfPosition (sourceFile : Node)
    (pos : nat) : nat * nat :=
  match kind sourceFile with
  | SourceFile text => line_and_character text pos 0 0
  | _ => (0, 0)
  end.

(** No regular expression matches: the examples fetch no data. *)
Definition example_matchAll (source text : string) : list nat := [].

(** The runtime on the texts of the examples, which are ASCII: case
    conversion changes the letters [a]-[z], the order of [sort] is the
    order of the code units, one to a character, and the integers of the
    examples print as decimal numerals. *)
Definition example_startsWithOwnUpperCase (name : string) : bool :=
  match name with
  | String c _ => negb (Js.is_lower_letter c)
  | EmptyString => true
  end.

Definition example_numberToString (z : Z) : string :=
  NilZero.string_of_int (Z.to_int z).

#[export] Instance example_host : Host :=
  {| createSourceFile := example_createSourceFile;
     getLineAndCharacterOfPosition := example_getLineAndCharacterOfPosition;
     path_dirname := posix_dirname;
     path_resolve := posix_resolve;
     matchAll := example_matchAll;
     startsWithOwnUpperCase := example_startsWithOwnUpperCase;
     codeUnitLeb := String.leb;
     numberToString := example_numberToString |}.

(** A file system that holds the files of a table. *)
Fixpoint table_read (table : list (string * string)) (p : string) : string :=
  match table with
  | [] => ""
  | (k, v) :: rest => if String.eqb k p then v else table_read rest p
  end.

Definition table_has (table : list (string * string)) (p : string) : bool :=
  existsb (fun kv => String.eqb (fst kv) p) table.

Definition table_fs (table : list (string * string)) : FileSystem :=
  {| readFileSync := table_read table;
     existsSync := table_has table;
     isFile := table_has table |}.

End ExampleHost.

(** ** The projects of the examples *)

Module Examples.
Import JsValue Counted Ast Core Host Parser Rules ExampleHost.

(** The layers of the README: [domain], [features], [ui]. *)
Definition example_layers : list (string * LayerConfig) :=
  [ ("domain", {| allowedImports := [] |});
    ("features", {| allowedImports := [JStr "domain"; JStr "shared"] |});
    ("ui", {| allowedImports := [JStr "features"; JStr "shared"] |}) ].

Definition all_on : RuleToggles :=
  {| noBusinessLogicInComponents := JBool true;
     noDataFetchingInUI := JBool true;
     enforceFeatureBoundaries := JBool true;
     noCircularLayerDeps := JBool true |}.

Definition all_off : RuleToggles :=
  {| noBusinessLogicInComponents := JBool false;
     noDataFetchingInUI := JBool false;
     enforceFeatureBoundaries := JBool false;
     noCircularLayerDeps := JBool false |}.

Definition architecture_on : ArchitectureConfig :=
  {| layers := example_layers; rules := all_on |}.

Definition architecture_off : ArchitectureConfig :=
  {| layers := example_layers; rules := all_off |}.

(** The context [runChecks] builds for a file. *)
Definition context_of (architecture : ArchitectureConfig)
    (graph : option Graph.ImportGraph) (filePath sourceCode : string)
    : RuleContext :=
  let ast := parseTypeScript sourceCode filePath in
  {| filePath := filePath;
     sourceCode := sourceCode;
     ast := ast;
     imports := extractImports ast;
     architecture := architecture;
     importGraph := graph |}.

(** A [ui] file that imports the [domain] layer. *)
Definition foo_path : string := "/proj/src/ui/Foo.tsx".
Definition foo_source : string := "import { User } from '../domain/user'".

(** A [ui] file with two import statements of one [domain] module, on
    lines 1 and 2. *)
Definition twice_source : string :=
  "import type { User } from '../domain/user'" +:+ nl +:+
  "import { load } from '../domain/user'".

(** Two files that import each other. *)
Definition mutual_project : list (string * string) :=
  [ ("/proj/a.ts", "import { b } from './b'");
    ("/proj/b.ts", "import { a } from './a'") ].

(** Two files that import each other, the second by two import statements. *)
Definition twice_mutual_project : list (string * string) :=
  [ ("/proj/a.ts", "import { b } from './b'");
    ("/proj/b.ts",
     "import type { A } from './a'" +:+ nl +:+ "import { a } from './a'") ].

(** A graph with the simple cycles a -> b -> c -> a and a -> c -> a. *)
Definition two_cycles_graph : Graph.ImportGraph :=
  [ ("a", ["b"; "c"]); ("b", ["c"]); ("c", ["a"]) ].

(** A configuration document with no [rules] section. *)
Definition layers_only_document : JsValue :=
  JObj [ ("layers",
          JObj [ ("ui", JObj [ ("allowedImports", JArr [JStr "features"]) ]) ]) ].

(** A configuration document whose [rules] section has one toggle. *)
Definition one_toggle_document : JsValue :=
  JObj [ ("layers",
          JObj [ ("ui", JObj [ ("allowedImports", JArr [JStr "features"]) ]) ]);
         ("rules", JObj [ ("noDataFetchingInUI", JBool true) ]) ].

End Examples.

(** ** The vocabulary of the specification *)

Module Spec.
Import JsValue Counted Ast Core Host Rules.

(** The specification's reading of the cycle detector: every simple cycle
    of the graph is among the returned cycles. *)
Definition finds_every_simple_cycle (graph : Graph.ImportGraph) : Prop :=
  forall c, Graph.simple_cycle graph c ->
    exists c', c' ∈ Graph.detectCycles graph /\ Graph.same_cycle c c'.

(** A layer name that occurs in a path as whole segments, a separator on
    both sides. *)
Definition occurs_as_segment (layerName path : string) : Prop :=
  exists before after, path = before +:+ "/" +:+ layerName +:+ "/" +:+ after.

(** The violation the cycle rule reports on file [f] for [cycle]. *)
Definition cycle_violation (f : string) (cycle : list string) : Violation :=
  {| file := f;
     line := 1;
     column := 1;
     message := circular_message cycle;
     rule := "no-circular-layer-deps" |}.

(** A toggle that the configuration document does not mention: there is no
    [rules] section, or the section has no such member. *)
Definition toggle_absent (config : JsValue) (toggle : string) : Prop :=
  get_prop config "rules" = JUndefined \/
  get_prop (get_prop config "rules") toggle = JUndefined.

(** A result with no violation that passes. *)
Definition passes_empty (result : RuleResult) : Prop :=
  violations result = [] /\ passed result = true.

(** The two files of a project whose only imports are of each other. *)
Definition mutual_imports (a b : string) : Graph.ImportGraph :=
  [(a, [b]); (b, [a])].

Section WithHost.
Context `{Host}.

(** [f] is the smallest file path of [cycle] in the order of [sort]. *)
Definition smallest_in (f : string) (cycle : list string) : bool :=
  bool_decide (f ∈ cycle) && forallb (codeUnitLeb f) cycle.

(** The layer an import resolves to when the import breaks the boundary of
    the layer [layerName]: the import is relative, it resolves to a layer
    with a name, the layer is another one than [layerName], and it is not
    among the allowed imports. *)
Definition disallowed_layer (context : RuleContext) (layerName : string)
    (layerConfig : LayerConfig) (imp : ImportInfo) : option string :=
  if isRelativeImport (from imp) then
    match detectLayerFromImportPath (from imp) (filePath context)
            (layers (architecture context)) with
    | Some imported =>
        if negb (String.eqb imported "") && negb (String.eqb imported layerName)
           && negb (has_string (allowedImports layerConfig) imported)
        then Some imported else None
    | None => None
    end
  else None.

(** What the boundary rule reports for one import. *)
Definition boundary_report (context : RuleContext) (layerName : string)
    (layerConfig : LayerConfig) (imp : ImportInfo) : list Violation :=
  let sourceFile :=
    Parser.parseTypeScript (sourceCode context) (filePath context) in
  match disallowed_layer context layerName layerConfig imp with
  | Some imported =>
      match findImportNode sourceFile (from imp) with
      | Some importNode =>
          [violation_at sourceFile (getStart importNode) (filePath context)
             (boundary_message layerName imported layerConfig)
             "layer-import-boundary"]
      | None => []
      end
  | None => []
  end.

End WithHost.

End Spec.

(** ** The rest of the sources

    The walker of the source tree, the search for the configuration file
    and its loader (the CLI and [packages/core/src/config.ts]), and the
    generator of the rules document ([packages/cursor/src/index.ts]). *)

Module Tree.
Import Ast.

(** The nodes of a tree in the order a recursive [visit] with
    [ts.forEachChild] meets them: a node, then its children's trees. *)
Fixpoint preorder (n : Node) : list Node :=
  match n with
  | mkNode _ _ cs => n :: concat (map preorder cs)
  end.

(** A [for], [for-in] or [for-of] statement. *)
Definition isLoop (n : Node) : bool :=
  isForStatement n || isForInStatement n || isForOfStatement n.

(** An import declaration of the module ["react"]. *)
Definition imports_react (n : Node) : bool :=
  match moduleSpecifierText n with
  | Some text => String.eqb text "react"
  | None => false
  end.

End Tree.

Module Reports.
Import Ast Core Host Rules Tree.

Section WithHost.
Context `{Host}.

(** The violation of the business-logic rule for a loop. *)
Definition loop_violation (sourceFile : Node) (filePath : string) (n : Node)
    : Violation :=
  violation_at sourceFile (getStart n) filePath
    "Loop detected in UI component. Extract loop logic to a utility function in features/domain layer and pass processed data as props."
    "no-business-logic-in-components".

(** The violation of the business-logic rule for a conditional. *)
Definition conditional_violation (sourceFile : Node) (filePath : string)
    (n : Node) : Violation :=
  violation_at sourceFile (getStart n) filePath
    "Complex conditional in UI component. Extract to a custom hook (e.g. useConditionalLogic) in features layer or move to domain utilities."
    "no-business-logic-in-components".

(** What [checkForBusinessLogic] reports at one node. *)
Definition node_flags (sourceFile : Node) (filePath : string) (n : Node)
    : list Violation :=
  (if isLoop n then [loop_violation sourceFile filePath n] else [])
  ++ (if isIfStatement n && negb (isSimpleConditional n)
      then [conditional_violation sourceFile filePath n] else []).

(** The test of the cycle rule: the file is the first of the sorted
    cycle. *)
Definition is_reporter (filePath : string) (cycle : list string) : bool :=
  bool_decide (Some filePath = firstFileInCycle cycle).

(** The violation of the data-fetching rule for a match at [index]. *)
Definition fetch_violation (sourceFile : Node) (filePath : string)
    (index : nat) : Violation :=
  violation_at sourceFile index filePath dataFetching_message
    "no-data-fetching-in-ui".

End WithHost.
End Reports.

Module Walker.

(** [s.endsWith(suffix)]: some tail of [s] is [suffix]. *)
Fixpoint endsWith (s suffix : string) : bool :=
  String.eqb s suffix ||
  match s with
  | EmptyString => false
  | String _ s' => endsWith s' suffix
  end.

(** A [Dirent] of [fs.readdirSync(dir, { withFileTypes: true })]: a file
    ([isFile()]), a directory ([isDirectory()]) with what [readdirSync]
    gives for it, or an entry that is neither (a symbolic link, a socket). *)
Inductive Dirent : Type :=
| FileEntry (name : string)
| DirEntry (name : string) (entries : list Dirent)
| OtherEntry (name : string).

(** [ignoreDirs] of [findTypeScriptFiles]. *)
Definition ignoreDirs : list string :=
  ["node_modules"; "dist"; "build"; ".git"; ".cursor"].

Section WithJoin.
(** [path.join(dir, name)] *)
Variable path_join : string -> string -> string.

(** The body of the loop of [walk] over the entries of [currentDir]; the
    recursive call of [walk] on a directory is the loop over its entries. *)
Fixpoint walk_entry (currentDir : string) (entry : Dirent)
    (files : list string) {struct entry} : list string :=
  match entry with
  | DirEntry name entries =>
      if negb (bool_decide (name ∈ ignoreDirs)) then
        fold_left
          (fun files e => walk_entry (path_join currentDir name) e files)
          entries files
      else files
  | FileEntry name =>
      if endsWith name ".ts" || endsWith name ".tsx"
      then files ++ [path_join currentDir name]
      else files
  | OtherEntry _ => files
  end.

(** [walk(currentDir)], for the entries [readdirSync] gives. *)
Definition walk (currentDir : string) (entries : list Dirent)
    (files : list string) : list string :=
  fold_left (fun files e => walk_entry currentDir e files) entries files.

(** [findTypeScriptFiles(dir)] *)
Definition findTypeScriptFiles (dir : string) (entries : list Dirent)
    : list string :=
  walk dir entries [].

(** The directory reached from [dir] through the directories [dirs]. *)
Definition descend (dir : string) (dirs : list string) : string :=
  fold_left path_join dirs dir.

End WithJoin.

(** A file [name] that lies in [entries] under the chain of directories
    [dirs]. *)
Fixpoint located (entries : list Dirent) (dirs : list string) (name : string)
    : Prop :=
  match dirs with
  | [] => FileEntry name ∈ entries
  | d :: ds => exists sub, DirEntry d sub ∈ entries /\ located sub ds name
  end.

End Walker.

Module ConfigSearch.
Import JsValue Core Host Config.

Section WithPaths.
Context `{Host}.
(** [path.resolve(p)], [path.join(dir, name)], and the two calls of the
    loader that return or throw: [fs.readFileSync(path, "utf-8")], which
    throws when the path is a directory or cannot be read, and
    [parseYaml(text)]. *)
Variable path_absolute : string -> string.
Variable path_join : string -> string -> string.
Variable tryReadFileSync : string -> Outcome string.
Variable parseYaml : string -> Outcome JsValue.

(** The [while] loop of [findArchitectureConfig], at most [fuel] turns of
    it: [None] when the turns do not suffice, [Some r] when the function
    returns [r]. *)
Fixpoint search (fuel : nat) (fs : FileSystem) (currentPath : string)
    : option (option string) :=
  match fuel with
  | O => None
  | S fuel' =>
      if String.eqb currentPath (path_dirname currentPath) then Some None
      else
        let configPath := path_join currentPath "architecture.yaml" in
        if existsSync fs configPath then Some (Some configPath)
        else search fuel' fs (path_dirname currentPath)
  end.

(** [findArchitectureConfig(startPath)] *)
Definition findArchitectureConfig (fuel : nat) (fs : FileSystem)
    (startPath : string) : option (option string) :=
  search fuel fs (path_absolute startPath).

(** [loadArchitectureConfig(configPath)] *)
Definition loadArchitectureConfig (fs : FileSystem) (configPath : string)
    : Outcome ArchitectureConfig :=
  if negb (existsSync fs configPath) then
    Throws ("Architecture config not found: " +:+ configPath)
  else
    match tryReadFileSync configPath with
    | Throws message => Throws message
    | Returns content =>
        match parseYaml content with
        | Throws message => Throws message
        | Returns parsed => validateArchitectureConfig parsed
        end
    end.

(** The [k]-th ancestor of a path. *)
Fixpoint ancestor (k : nat) (p : string) : string :=
  match k with
  | O => p
  | S k' => ancestor k' (path_dirname p)
  end.

End WithPaths.
End ConfigSearch.

Module ConfigSpec.
Import JsValue Core Config.

(** A value that passes [!v || typeof v !== "object"]: an object or an
    array. *)
Definition is_object (v : JsValue) : bool := truthy v && typeof_object v.

(** An entry of [config.layers] that the validator lets through: an object
    whose [allowedImports] is an array. *)
Definition valid_layer_entry (entry : string * JsValue) : Prop :=
  is_object (snd entry) = true /\
  exists items, get_prop (snd entry) "allowedImports" = JArr items.

(** A configuration document that the validator lets through. *)
Definition acceptable (config : JsValue) : Prop :=
  is_object config = true /\
  is_object (get_prop config "layers") = true /\
  Forall valid_layer_entry (entries (get_prop config "layers")).

(** A value that [??] replaces: [null] or [undefined]. *)
Definition nullish (v : JsValue) : bool :=
  match v with
  | JUndefined | JNull => true
  | _ => false
  end.

End ConfigSpec.

Module Cursor.
Import JsValue Core Host Config.

Section WithHost.
Context `{Host}.

(** [config.allowedImports.length > 0 ? config.allowedImports.join(", ")
    : "none"] *)
Definition allowed_text (config : LayerConfig) : string :=
  if Nat.ltb 0 (length (allowedImports config))
  then join_values ", " (allowedImports config)
  else "none".

Definition layer_line (layer : string) (config : LayerConfig) : string :=
  "- **" +:+ layer +:+ "**: Can import from: " +:+ allowed_text config.

(** [layers.map(...)]: reading [allowedImports] of a layer that
    [architecture.layers] does not hold throws. *)
Fixpoint describe_layers (layers : list (string * LayerConfig))
    (names : list string) : Outcome (list string) :=
  match names with
  | [] => Returns []
  | layer :: rest =>
      match get_layer layers layer with
      | None =>
          Throws "TypeError: Cannot read properties of undefined (reading 'allowedImports')"
      | Some config =>
          match describe_layers layers rest with
          | Returns lines => Returns (layer_line layer config :: lines)
          | Throws message => Throws message
          end
      end
  end.

Definition businessLogic_line : string :=
  "- **No business logic in components**: React components must not contain loops, complex conditionals, calculations, or data transformations. Extract these to the feature or domain layer.".

Definition dataFetching_line : string :=
  "- **No data fetching in UI**: UI components must not perform data fetching (fetch, axios, useEffect-based fetching). Move data fetching to the feature layer.".

Definition boundaries_line : string :=
  "- **Enforce layer boundaries**: Respect the layer import rules. Do not create imports that violate the defined architecture.".

Definition circular_line : string :=
  "- **No circular dependencies**: Do not create circular dependencies between layers.".

(** The array [rules] after the four conditional [push]es. *)
Definition rule_lines (toggles : RuleToggles) : list string :=
  (if truthy (noBusinessLogicInComponents toggles) then [businessLogic_line] else [])
  ++ (if truthy (noDataFetchingInUI toggles) then [dataFetching_line] else [])
  ++ (if truthy (enforceFeatureBoundaries toggles) then [boundaries_line] else [])
  ++ (if truthy (noCircularLayerDeps toggles) then [circular_line] else []).

(** The line break of the template and of the two [join]s. *)
Definition lf : string := String "010"%char "".

(** The text of the template before the layers, between the layers and the
    rules, and after the rules. *)
Definition document_head : string :=
  Js.join lf
    [ "# Architecture Rules";
      "";
      "This project uses archguard to enforce architecture boundaries. Follow these rules strictly.";
      "";
      "## Layer Structure";
      "";
      "" ].

Definition document_middle : string :=
  Js.join lf [ ""; ""; "## Rules"; ""; "" ].

Definition document_tail : string :=
  Js.join lf
    [ "";
      "";
      "## General Guidelines";
      "";
      "- **Do not create new folders** without explicit justification";
      "- **Do not merge layers** or blur boundaries";
      "- **Explain violations** instead of generating invalid code";
      "- **If unsure about architecture**, ask before making changes";
      "";
      "## When AI Suggests Invalid Code";
      "";
      "If you see a violation warning:";
      "1. **Stop** and read the violation message";
      "2. **Refactor** the code to follow the architecture";
      "3. **Do not** suppress or ignore violations";
      "4. **Explain** why the change is necessary if you must deviate";
      "";
      "Remember: Architecture is fixed. Code must adapt to architecture, not the other way around.";
      "" ].

(** [generateCursorRules(architecture)] *)
Definition generateCursorRules (architecture : ArchitectureConfig)
    : Outcome string :=
  match describe_layers (layers architecture) (map fst (layers architecture))
  with
  | Throws message => Throws message
  | Returns lines =>
      Returns (document_head +:+ Js.join lf lines +:+ document_middle
               +:+ Js.join lf (rule_lines (rules architecture))
               +:+ document_tail)
  end.

End WithHost.
End Cursor.

Module Run.
Import JsValue Counted Ast Core Host Parser Rules Cli.

Section WithHost.
Context `{Host}.

(** The context [runChecks] builds for one source file. *)
Definition run_context (fs : FileSystem) (architecture : ArchitectureConfig)
    (importGraph : Graph.ImportGraph) (filePath : string) : RuleContext :=
  let sourceCode := readFileSync fs filePath in
  let ast := parseTypeScript sourceCode filePath in
  {| filePath := filePath;
     sourceCode := sourceCode;
     ast := ast;
     imports := extractImports ast;
     architecture := architecture;
     importGraph := Some importGraph |}.

(** The relative imports of a file that [buildImportGraph] keeps: the
    resolved paths that are among the source files. *)
Definition relativeImports_of (fs : FileSystem) (sourceFiles : list string)
    (filePath : string) : list string :=
  fold_left (relativeImports_step fs sourceFiles filePath)
    (extractImports (parseTypeScript (readFileSync fs filePath) filePath)) [].

(** The candidates of [resolveImportPath], in the order they are tried. *)
Definition resolve_candidates (importPath fromFile : string) : list string :=
  let resolved := path_resolve (path_dirname fromFile) importPath in
  resolved
  :: map (fun ext => resolved +:+ ext) [".ts"; ".tsx"; ".js"; ".jsx"]
  ++ map (fun ext => resolved +:+ ext)
       ["/index.ts"; "/index.tsx"; "/index.js"; "/index.jsx"].

End WithHost.
End Run.

(** ** More examples *)

Module MoreExamples.
Import JsValue Counted Ast Core Host Parser Rules Config Walker ExampleHost.
Import Examples.

(** A component file: it imports [react], declares the component
    [UserList] with a loop, a conditional on a call and a conditional on an
    identifier, and a function [helper] with a loop. *)
Definition component_tree : Node :=
  mkNode (SourceFile "") 0
    [ mkNode (ImportDeclaration (Some "react") None) 0 [];
      mkNode (FunctionDeclaration (Some "UserList")) 27
        [ mkNode ForStatement 53 [];
          mkNode IfStatement 80 [mkNode OtherKind 84 []];
          mkNode IfStatement 100 [mkNode Identifier 104 []] ];
      mkNode (FunctionDeclaration (Some "helper")) 130
        [ mkNode ForOfStatement 150 [] ] ].

(** A host whose parser gives [component_tree] for every text, whose files
    have one line, and whose regular expressions match [axios.get(] at
    offset 60: [axios.] there and [.get(] five code units later. *)
Definition component_host : Host :=
  {| createSourceFile := fun _ _ => component_tree;
     getLineAndCharacterOfPosition := fun _ pos => (0, pos);
     path_dirname := posix_dirname;
     path_resolve := posix_resolve;
     matchAll := fun source _ =>
                   if String.eqb source "axios\." then [60]
                   else if String.eqb source "\.get\s*\(" then [65]
                   else [];
     startsWithOwnUpperCase := example_startsWithOwnUpperCase;
     codeUnitLeb := String.leb;
     numberToString := example_numberToString |}.

(** The context of the component file under that host. *)
Definition component_path : string := "/proj/src/ui/UserList.tsx".

Definition component_context : RuleContext :=
  {| filePath := component_path;
     sourceCode := "";
     ast := component_tree;
     imports := extractImports component_tree;
     architecture := architecture_on;
     importGraph := None |}.

(** [path.join] of a directory and a name, on POSIX. *)
Definition posix_join (dir name : string) : string :=
  if String.eqb dir "/" then "/" +:+ name else dir +:+ "/" +:+ name.

(** A project tree: sources under [src], a dependency cache, a link. *)
Definition project_tree : list Dirent :=
  [ FileEntry "package.json";
    DirEntry "node_modules"
      [ DirEntry "lib" [ FileEntry "index.ts" ] ];
    DirEntry "src"
      [ FileEntry "main.tsx";
        FileEntry "notes.md";
        DirEntry "ui" [ FileEntry "Foo.tsx"; FileEntry "types.d.ts" ];
        DirEntry "dist" [ FileEntry "out.ts" ];
        OtherEntry "linked.ts" ] ].

(** A file tree with [architecture.yaml] in [/proj] and in the root. *)
Definition config_fs : FileSystem :=
  table_fs [ ("/proj/architecture.yaml", "layers: {}");
             ("/architecture.yaml", "layers: {}") ].

(** The reader of [config_fs]: the text of a file that is there. *)
Definition config_read (p : string) : Outcome string :=
  if existsSync config_fs p then Returns (readFileSync config_fs p)
  else Throws ("ENOENT: no such file or directory, open '" +:+ p +:+ "'").

(** A YAML reader that knows the one text of [config_fs]. *)
Definition example_parseYaml (text : string) : Outcome JsValue :=
  if String.eqb text "layers: {}" then Returns (JObj [("layers", JObj [])])
  else Throws "YAMLParseError".

(** A chain of imports: [a] imports [b], [b] imports nothing. *)
Definition chain_project : list (string * string) :=
  [ ("/proj/a.ts", "import { b } from './b'");
    ("/proj/b.ts", "export const b = 1") ].

(** A configuration document with two layers and a toggle given as the
    text [false]. *)
Definition text_toggle_document : JsValue :=
  JObj [ ("layers",
          JObj [ ("domain", JObj [ ("allowedImports", JArr []) ]);
                 ("ui", JObj [ ("allowedImports", JArr [JStr "domain"]) ]) ]);
         ("rules", JObj [ ("noCircularLayerDeps", JStr "false") ]) ].

(** A configuration document with an entry under the key [__proto__]. *)
Definition proto_layer_document : JsValue :=
  JObj [ ("layers",
          JObj [ ("__proto__", JObj [ ("allowedImports", JArr []) ]);
                 ("ui", JObj [ ("allowedImports", JArr [JStr "domain"]) ]) ]) ].

End MoreExamples.
(** ** Facts about the JavaScript primitives *)

Module JsFacts.
Import Js.

Lemma indexOf_Some xs x i :
  indexOf xs x = Some i -> xs !! i = Some x.
Proof.
  revert i. induction xs as [|y ys IH]; intros i; simpl; [discriminate|].
  destruct (String.eqb_spec y x) as [->|Hne].
  - intros [= <-]. reflexivity.
  - destruct (indexOf ys x) as [j|] eqn:E; simpl; [|discriminate].
    intros [= <-]. simpl. apply IH. reflexivity.
Qed.

Lemma indexOf_elem xs x :
  x ∈ xs -> exists i, indexOf xs x = Some i.
Proof.
  induction xs as [|y ys IH]; intros Hin.
  - inversion Hin.
  - simpl. destruct (String.eqb_spec y x) as [->|Hne]; [eauto|].
    apply elem_of_cons in Hin as [->|Hin]; [congruence|].
    destruct (IH Hin) as [j ->]. simpl. eauto.
Qed.

Lemma indexOf_last p x :
  x ∉ p -> indexOf (p ++ [x]) x = Some (length p).
Proof.
  induction p as [|y p IH]; intros Hnin; simpl.
  - rewrite String.eqb_refl. reflexivity.
  - destruct (String.eqb_spec y x) as [->|Hne].
    + exfalso. apply Hnin. left.
    + rewrite IH; [reflexivity|]. intros H. apply Hnin. by right.
Qed.

Lemma slice_lookup xs i x :
  xs !! i = Some x -> slice i xs = x :: drop (S i) xs.
Proof.
  unfold slice. revert i. induction xs as [|y ys IH]; intros [|i]; simpl;
    try discriminate.
  - intros [= ->]. by rewrite drop_0.
  - apply IH.
Qed.

Lemma pop_snoc (xs : list string) x : pop (xs ++ [x]) = xs.
Proof. apply removelast_last. Qed.

Lemma append_cons c s t : String c s +:+ t = String c (s +:+ t).
Proof. reflexivity. Qed.


Lemma append_assoc s t u : (s +:+ t) +:+ u = s +:+ t +:+ u.
Proof.
  induction s as [|c s IH]; [done|]. rewrite !append_cons. by rewrite IH.
Qed.

(** [prefix] as a decomposition. *)
Lemma prefix_app p s :
  String.prefix p s = true <-> exists post, s = p +:+ post.
Proof.
  revert s. induction p as [|c p IH]; intros s; simpl.
  - split; [intros _; by exists s | by destruct s].
  - destruct s as [|d s]; simpl.
    + split; [discriminate | intros [post H]; discriminate].
    + destruct (Ascii.ascii_dec c d) as [->|Hne].
      * rewrite IH. split; intros [post H]; exists post;
          rewrite append_cons in *; congruence.
      * split; [discriminate|].
        intros [post H]. rewrite append_cons in H. congruence.
Qed.

(** [includes] as a decomposition: the needle with something before and
    something after it. *)
Lemma includes_app s needle :
  includes s needle = true <-> exists pre post, s = pre +:+ needle +:+ post.
Proof.
  induction s as [|c s IH]; cbn [includes].
  - rewrite orb_false_r, prefix_app. split.
    + intros [post H]. by exists "", post.
    + intros [pre [post H]]. destruct pre; [eauto|discriminate].
  - rewrite orb_true_iff, prefix_app, IH. split.
    + intros [[post H]|[pre [post H]]].
      * by exists "", post.
      * exists (String c pre), post. rewrite append_cons. by rewrite H.
    + intros [pre [post H]]. destruct pre as [|d pre].
      * left. eauto.
      * right. exists pre, post. rewrite append_cons in H. congruence.
Qed.

Lemma replace_backslashes_no_backslash s c :
  String.get c (replace_backslashes s) <> Some "\"%char.
Proof.
  revert c. induction s as [|d s IH]; intros c; simpl; [discriminate|].
  destruct c as [|c]; [|apply IH].
  destruct (Ascii.eqb_spec d "\"%char); [discriminate|congruence].
Qed.

(** The order of the code units of [string] is a total order. *)
Lemma ascii_compare_refl c : Ascii.compare c c = Eq.
Proof. unfold Ascii.compare. apply N.compare_refl. Qed.

Lemma compare_refl s : String.compare s s = Eq.
Proof. induction s as [|c s IH]; simpl; [done|]. by rewrite ascii_compare_refl. Qed.

Lemma leb_refl s : String.leb s s = true.
Proof. unfold String.leb. by rewrite compare_refl. Qed.

Lemma compare_Lt_trans s1 s2 s3 :
  String.compare s1 s2 = Lt -> String.compare s2 s3 = Lt ->
  String.compare s1 s3 = Lt.
Proof.
  revert s2 s3. induction s1 as [|a s1 IH]; intros [|b s2] [|c s3]; simpl;
    try done.
  unfold Ascii.compare.
  destruct (N.compare_spec (N_of_ascii a) (N_of_ascii b)) as [Hab|Hab|Hab];
    destruct (N.compare_spec (N_of_ascii b) (N_of_ascii c)) as [Hbc|Hbc|Hbc];
    try done; intros H1 H2.
  - rewrite Hab, Hbc, N.compare_refl. eauto.
  - rewrite Hab. by apply N.compare_lt_iff in Hbc as ->.
  - rewrite <- Hbc. by apply N.compare_lt_iff in Hab as ->.
  - assert (N_of_ascii a < N_of_ascii c)%N as Hac by lia.
    by apply N.compare_lt_iff in Hac as ->.
Qed.

Lemma leb_trans s1 s2 s3 :
  String.leb s1 s2 = true -> String.leb s2 s3 = true ->
  String.leb s1 s3 = true.
Proof.
  unfold String.leb.
  destruct (String.compare s1 s2) eqn:E12; try done;
    destruct (String.compare s2 s3) eqn:E23; try done; intros _ _.
  - apply String.compare_eq_iff in E12, E23. subst. by rewrite compare_refl.
  - apply String.compare_eq_iff in E12. subst. by rewrite E23.
  - apply String.compare_eq_iff in E23. subst. by rewrite E12.
  - by rewrite (compare_Lt_trans _ _ _ E12 E23).
Qed.

(** *** [sort] *)

Section Sort.
Variable leb : string -> string -> bool.

Lemma insert_sorted_elem x y xs :
  y ∈ insert_sorted leb x xs <-> y = x \/ y ∈ xs.
Proof.
  induction xs as [|z zs IH]; simpl.
  - rewrite list_elem_of_singleton. split; [auto|]. intros [H|H]; [done|inversion H].
  - destruct (leb x z).
    + by rewrite elem_of_cons.
    + rewrite !elem_of_cons, IH. tauto.
Qed.

Lemma sort_elem x xs : x ∈ sort leb xs <-> x ∈ xs.
Proof.
  induction xs as [|y ys IH]; simpl; [done|].
  rewrite insert_sorted_elem, elem_of_cons, IH. tauto.
Qed.

Lemma sort_head_is_Some xs : xs <> [] -> is_Some (head (sort leb xs)).
Proof.
  destruct xs as [|x xs]; [done|]. intros _.
  assert (x ∈ sort leb (x :: xs)) as H by (apply sort_elem; left).
  destruct (sort leb (x :: xs)); [inversion H | by eexists].
Qed.

(** [[...xs].sort()[0]] is an element of [xs], whatever the order is. *)
Lemma sort_head_elem xs m : head (sort leb xs) = Some m -> m ∈ xs.
Proof.
  intros H. destruct (sort leb xs) as [|m' rest] eqn:E; [discriminate|].
  simpl in H. injection H as ->. apply sort_elem. rewrite E. left.
Qed.

(** In a total order the head of the sorted array is below every element. *)
Hypothesis leb_total : forall a b, leb a b = true \/ leb b a = true.
Hypothesis leb_trans :
  forall a b c, leb a b = true -> leb b c = true -> leb a c = true.

Lemma leb_reflexive a : leb a a = true.
Proof. by destruct (leb_total a a). Qed.

Definition head_least (xs : list string) : Prop :=
  match xs with
  | [] => True
  | m :: _ => forall y, y ∈ xs -> leb m y = true
  end.

Lemma insert_sorted_head_least x xs :
  head_least xs -> head_least (insert_sorted leb x xs).
Proof.
  destruct xs as [|z zs]; simpl.
  - intros _ y Hy. apply list_elem_of_singleton in Hy as ->.
    apply leb_reflexive.
  - intros Hz. destruct (leb x z) eqn:E; simpl.
    + intros y Hy. apply elem_of_cons in Hy as [->|Hy]; [apply leb_reflexive|].
      eapply leb_trans; [exact E|]. by apply Hz.
    + intros y Hy. apply elem_of_cons in Hy as [->|Hy]; [apply leb_reflexive|].
      apply insert_sorted_elem in Hy as [->|Hy].
      * destruct (leb_total x z) as [H|H]; congruence.
      * apply Hz. by right.
Qed.

Lemma sort_head_least xs : head_least (sort leb xs).
Proof.
  induction xs as [|x xs IH]; simpl; [done|].
  by apply insert_sorted_head_least.
Qed.

Lemma sort_head xs m :
  head (sort leb xs) = Some m ->
  m ∈ xs /\ forall y, y ∈ xs -> leb m y = true.
Proof.
  intros H. pose proof (sort_head_least xs) as Hl.
  destruct (sort leb xs) as [|m' rest] eqn:E; [discriminate|].
  simpl in H. injection H as ->. split.
  - apply sort_elem. rewrite E. left.
  - intros y Hy. apply Hl. rewrite <- E. by apply sort_elem.
Qed.

End Sort.

End JsFacts.

(** ** Facts about the depth-first traversal *)

Module GraphFacts.
Import Graph Js JsFacts.

Lemma for_each_prefix_inv (P : list string -> dfs_state -> Prop) body xs :
  (forall pre x post st st',
      xs = pre ++ x :: post -> P pre st -> body x st = Some st' ->
      P (pre ++ [x]) st') ->
  forall st st', P [] st -> for_each body xs st = Some st' -> P xs st'.
Proof.
  intros Hstep.
  assert (forall todo pre st st',
             xs = pre ++ todo -> P pre st ->
             for_each body todo st = Some st' -> P xs st') as Hgen.
  { induction todo as [|x todo IH]; intros pre st st' Hxs HP Hrun; simpl in Hrun.
    - injection Hrun as <-. by rewrite Hxs, app_nil_r.
    - destruct (body x st) as [st1|] eqn:Hb; [|discriminate].
      apply (IH (pre ++ [x]) st1 st'); [by rewrite <- app_assoc| |done].
      by apply (Hstep pre x todo st st1). }
  intros st st'. by apply (Hgen xs []).
Qed.

Lemma for_each_inv (P : dfs_state -> Prop) body xs :
  (forall x st st', x ∈ xs -> P st -> body x st = Some st' -> P st') ->
  forall st st', P st -> for_each body xs st = Some st' -> P st'.
Proof.
  intros Hstep. apply (for_each_prefix_inv (fun _ => P)).
  intros pre x post st st' -> HP Hb. apply (Hstep x st st'); [|done..].
  apply elem_of_app. right. left.
Qed.

Section Traversal.
Variable graph : ImportGraph.

(** *** Walks *)

Lemma walk_snoc l x :
  walk graph l -> (forall u, last l = Some u -> edge graph u x) ->
  walk graph (l ++ [x]).
Proof.
  induction l as [|u l IH]; simpl; intros Hw Hlast.
  - split; [discriminate|done].
  - destruct Hw as [Hhead Hw]. split.
    + destruct l as [|w l]; simpl.
      * intros w [= <-]. by apply Hlast.
      * exact Hhead.
    + apply IH; [done|]. intros v Hv. apply Hlast.
      destruct l; [discriminate|done].
Qed.

Lemma walk_drop l i : walk graph l -> walk graph (drop i l).
Proof.
  revert i. induction l as [|u l IH]; intros [|i]; simpl; try done.
  intros [_ Hw]. by apply IH.
Qed.

Lemma last_drop (l : list string) i :
  i < length l -> last (drop i l) = last l.
Proof.
  revert i. induction l as [|u l IH]; intros i Hi; simpl in Hi; [lia|].
  destruct i as [|i]; [done|]. simpl drop.
  rewrite IH by lia. destruct l; [simpl in Hi; lia|done].
Qed.

(** *** Well-formed states and frames *)

Local Abbreviation wf := (Graph.wf graph).
Local Abbreviation complete := (Graph.complete graph).
Local Abbreviation loop_inv := (Graph.loop_inv graph).
Local Abbreviation roots_inv := (Graph.roots_inv graph).

Lemma frame_refl st : frame st st.
Proof. split; try done. exists []. by rewrite app_nil_r. Qed.

Lemma frame_trans st1 st2 st3 : frame st1 st2 -> frame st2 st3 -> frame st1 st3.
Proof.
  intros [P1 S1 V1 [n1 C1]] [P2 S2 V2 [n2 C2]]. split.
  - congruence.
  - congruence.
  - set_solver.
  - exists (n1 ++ n2). rewrite C2, C1. by rewrite app_assoc.
Qed.

Lemma wf_initial : wf initial_state.
Proof.
  split; simpl; try done.
  - constructor.
  - intros x Hx. inversion Hx.
  - intros c Hc. inversion Hc.
Qed.

Lemma wf_stack_visited st x : wf st -> x ∈ recStack st -> x ∈ visited st.
Proof.
  intros Hwf Hx. apply (wf_visited _ _ Hwf).
  rewrite (wf_stack _ _ Hwf) in Hx. by apply elem_of_list_to_set in Hx.
Qed.

Lemma wf_enter node st :
  wf st -> node ∉ visited st ->
  (forall u, last (path st) = Some u -> edge graph u node) ->
  wf (enter node st).
Proof.
  intros Hwf Hnew Hedge. split; simpl.
  - rewrite (wf_stack _ _ Hwf), list_to_set_app_L. simpl. set_solver.
  - apply NoDup_app. split; [apply Hwf|]. split; [|apply NoDup_singleton].
    intros x Hx Hx'. apply list_elem_of_singleton in Hx' as ->.
    apply Hnew. by apply (wf_visited _ _ Hwf).
  - intros x Hx. apply elem_of_app in Hx as [Hx|Hx].
    + apply elem_of_union_l. by apply (wf_visited _ _ Hwf).
    + apply list_elem_of_singleton in Hx as ->. set_solver.
  - apply walk_snoc; [apply Hwf|done].
  - apply Hwf.
Qed.

Lemma record_cycle_cycles neighbor st i :
  indexOf (path st) neighbor = Some i ->
  cycles (record_cycle neighbor st)
  = cycles st ++ [neighbor :: drop (S i) (path st) ++ [neighbor]].
Proof.
  intros Hi. unfold record_cycle. rewrite Hi. simpl.
  by rewrite (slice_lookup _ _ _ (indexOf_Some _ _ _ Hi)).
Qed.

Lemma record_cycle_frame neighbor st : frame st (record_cycle neighbor st).
Proof.
  unfold record_cycle. destruct (indexOf (path st) neighbor); [|apply frame_refl].
  split; simpl; try done. eauto.
Qed.

Lemma record_cycle_wf node neighbor st :
  wf st -> last (path st) = Some node -> edge graph node neighbor ->
  wf (record_cycle neighbor st).
Proof.
  intros Hwf Hlast Hedge.
  destruct (indexOf (path st) neighbor) as [i|] eqn:Hi;
    [|unfold record_cycle; by rewrite Hi].
  pose proof (record_cycle_cycles _ _ _ Hi) as Hc.
  pose proof (record_cycle_frame neighbor st) as [Hp Hs Hv _].
  split.
  - rewrite Hp, Hs. apply Hwf.
  - rewrite Hp. apply Hwf.
  - rewrite Hp. intros x Hx. apply Hv. by apply (wf_visited _ _ Hwf).
  - rewrite Hp. apply Hwf.
  - rewrite Hc. intros c Hin. apply elem_of_app in Hin as [Hin|Hin];
      [by apply (wf_cycles _ _ Hwf)|].
    apply list_elem_of_singleton in Hin as ->.
    pose proof (indexOf_Some _ _ _ Hi) as Hlook.
    exists neighbor, (drop (S i) (path st)). split; [done|].
    rewrite <- (slice_lookup _ _ _ Hlook). unfold slice. split.
    + eapply sublist_NoDup; [apply Hwf|apply sublist_drop].
    + change (neighbor :: drop (S i) (path st) ++ [neighbor])
        with ((neighbor :: drop (S i) (path st)) ++ [neighbor]).
      rewrite <- (slice_lookup _ _ _ Hlook). unfold slice.
      apply walk_snoc; [apply walk_drop, Hwf|].
      intros u Hu. rewrite last_drop in Hu.
      * rewrite Hlast in Hu. by injection Hu as <-.
      * by apply lookup_lt_Some in Hlook.
Qed.

(** *** What one call of [dfs] does to a well-formed state *)

Lemma dfs_wf fuel node st st' :
  wf st -> node ∉ visited st ->
  (forall u, last (path st) = Some u -> edge graph u node) ->
  dfs graph fuel node st = Some st' ->
  wf st' /\ frame st st' /\ node ∈ visited st'.
Proof.
  revert node st st'. induction fuel as [|fuel IH]; intros node st st';
    [discriminate|].
  intros Hwf Hnew Hedge Hrun. simpl in Hrun.
  destruct (for_each _ _ _) as [st1|] eqn:Hloop; [|discriminate].
  injection Hrun as <-.
  assert (wf st1 /\ frame (enter node st) st1) as [Hwf1 Hfr1].
  { revert Hloop.
    apply (for_each_inv (fun s => wf s /\ frame (enter node st) s)).
    - intros x s s' Hx [Hws Hfs] Hbody.
      assert (last (path s) = Some node) as Hlast.
      { rewrite (fr_path _ _ Hfs). simpl. apply last_snoc. }
      unfold visit_neighbor in Hbody.
      destruct (decide (x ∈ visited s)) as [Hv|Hv].
      + destruct (decide (x ∈ recStack s)) as [Hr|Hr];
          injection Hbody as <-; [|done].
        split; [by apply (record_cycle_wf node)|].
        eapply frame_trans; [exact Hfs|apply record_cycle_frame].
      + destruct (IH x s s' Hws Hv) as (Hws' & Hfs' & _); [|done|].
        * intros u Hu. rewrite Hlast in Hu. by injection Hu as <-.
        * split; [done|]. by eapply frame_trans.
    - split; [by apply wf_enter|apply frame_refl]. }
  destruct Hfr1 as [Hp1 Hs1 Hv1 [new Hc1]]. simpl in *.
  assert (node ∉ recStack st) as Hnr.
  { intros Hr. apply Hnew. by apply wf_stack_visited. }
  split; [|split].
  - split; simpl.
    + rewrite Hp1, pop_snoc, Hs1, <- (wf_stack _ _ Hwf). set_solver.
    + rewrite Hp1, pop_snoc. apply Hwf.
    + rewrite Hp1, pop_snoc. intros x Hx. apply Hv1.
      apply elem_of_union_l. by apply (wf_visited _ _ Hwf).
    + rewrite Hp1, pop_snoc. apply Hwf.
    + apply Hwf1.
  - split; simpl.
    + by rewrite Hp1, pop_snoc.
    + rewrite Hs1. set_solver.
    + set_solver.
    + eauto.
  - simpl. set_solver.
Qed.

(** *** Nothing is missed *)

Lemma closes_frame st st' u w :
  frame st st' -> closes (cycles st) u w -> closes (cycles st') u w.
Proof.
  intros [_ _ _ [new ->]] [before Hin]. exists before.
  apply elem_of_app. by left.
Qed.

Lemma topo_mono cs cs' F :
  (forall u w, closes cs u w -> closes cs' u w) ->
  topo graph cs F -> topo graph cs' F.
Proof.
  intros Hcs. induction F as [|v F IH]; simpl; [done|].
  intros [Hv HF]. split; [|by apply IH].
  intros w Hw. destruct (Hv w Hw) as [Hin|Hc]; [by left|right; by apply Hcs].
Qed.

Lemma topo_step cs F u w :
  topo graph cs F -> u ∈ F -> edge graph u w -> w ∈ F \/ closes cs u w.
Proof.
  induction F as [|v F IH]; simpl; intros HF Hu Hedge.
  - inversion Hu.
  - destruct HF as [Hv HF]. apply elem_of_cons in Hu as [->|Hu].
    + destruct (Hv w Hedge) as [Hin|Hc]; [left; by right|by right].
    + destruct (IH HF Hu Hedge) as [Hin|Hc]; [left; by right|by right].
Qed.

Lemma on_walk_cons x l u w : on_walk l u w -> on_walk (x :: l) u w.
Proof. intros (before & after & ->). by exists (x :: before), after. Qed.

(** A walk from a node of the order stays in the order until it takes an
    import that closes a cycle. *)
Lemma topo_walk cs F l u :
  topo graph cs F -> u ∈ F -> walk graph (u :: l) ->
  (exists a b, on_walk (u :: l) a b /\ closes cs a b) \/
  (forall x, x ∈ l -> x ∈ F).
Proof.
  intros HF. revert u. induction l as [|w l IH]; intros u Hu Hw.
  - right. intros x Hx. inversion Hx.
  - destruct Hw as [Hhead Hw].
    destruct (topo_step cs F u w HF Hu (Hhead w eq_refl)) as [HwF|Hc].
    + destruct (IH w HwF Hw) as [(a & b & Hon & Hc)|Hall].
      * left. exists a, b. split; [by apply on_walk_cons|done].
      * right. intros x Hx. apply elem_of_cons in Hx as [->|Hx]; [done|].
        by apply Hall.
    + left. exists u, w. split; [by exists [], l|done].
Qed.

(** A closed walk through a node of the order takes an import that closes
    a cycle. *)
Lemma topo_closed_walk cs F u l :
  topo graph cs F -> u ∈ F -> walk graph (u :: l ++ [u]) ->
  exists a b, on_walk (u :: l ++ [u]) a b /\ closes cs a b.
Proof.
  revert u l. induction F as [|v F IH]; intros u l HF Hu Hw.
  - inversion Hu.
  - destruct HF as [Hv HF].
    apply elem_of_cons in Hu as [->|Hu]; [|by apply (IH u l)].
    destruct l as [|w l].
    + destruct Hw as [Hhead _].
      destruct (Hv v (Hhead v eq_refl)) as [Hin|Hc].
      * apply (IH v []); [done|done|]. simpl. split; [done|]. by split.
      * exists v, v. split; [by exists [], []|done].
    + destruct Hw as [Hhead Hw].
      destruct (Hv w (Hhead w eq_refl)) as [Hin|Hc].
      * destruct (topo_walk cs F (l ++ [v]) w HF Hin Hw)
          as [(a & b & Hon & Hc)|Hall].
        -- exists a, b. split; [by apply on_walk_cons|done].
        -- apply (IH v (w :: l)); [done| |by split].
           apply Hall. apply elem_of_app. right. left.
      * exists v, w. split; [by exists [], (l ++ [v])|done].
Qed.

Lemma complete_initial : complete initial_state.
Proof.
  split.
  - exists []. split; [|done]. intros x. split.
    + intros H. inversion H.
    + intros [H _]. simpl in H. set_solver.
  - intros v [H _]. simpl in H. set_solver.
Qed.

Lemma finished_frame st st' x : frame st st' -> finished st x -> finished st' x.
Proof.
  intros [_ Hs Hv _] [H1 H2]. split; [by apply Hv|by rewrite Hs].
Qed.

Lemma frame_cycles_elem st st' c : frame st st' -> c ∈ cycles st -> c ∈ cycles st'.
Proof. intros [_ _ _ [new ->]] H. apply elem_of_app. by left. Qed.

(** The cycle recorded for an import of the node on top of the path ends
    with that import. *)
Lemma record_cycle_closes node neighbor st :
  wf st -> last (path st) = Some node -> neighbor ∈ recStack st ->
  closes (cycles (record_cycle neighbor st)) node neighbor.
Proof.
  intros Hwf Hlast Hr. rewrite (wf_stack _ _ Hwf) in Hr.
  apply elem_of_list_to_set, indexOf_elem in Hr as [i Hi].
  rewrite (record_cycle_cycles _ _ _ Hi).
  pose proof (indexOf_Some _ _ _ Hi) as Hlook.
  assert (neighbor :: drop (S i) (path st) ++ [neighbor]
          = drop i (path st) ++ [neighbor]) as ->.
  { change (neighbor :: drop (S i) (path st) ++ [neighbor])
      with ((neighbor :: drop (S i) (path st)) ++ [neighbor]).
    by rewrite <- (slice_lookup _ _ _ Hlook). }
  apply last_Some in Hlast as [p Hp]. rewrite Hp in Hlook |- *.
  apply lookup_lt_Some in Hlook. rewrite length_app in Hlook. simpl in Hlook.
  exists (drop i p). apply elem_of_app. right. apply list_elem_of_singleton.
  rewrite drop_app_le by lia. by rewrite <- app_assoc.
Qed.

Lemma record_cycle_self node st p :
  path st = p ++ [node] -> node ∉ p ->
  [node; node] ∈ cycles (record_cycle node st).
Proof.
  intros Hp Hnin.
  assert (indexOf (path st) node = Some (length p)) as Hi
    by (rewrite Hp; by apply indexOf_last).
  rewrite (record_cycle_cycles _ _ _ Hi), Hp.
  apply elem_of_app. right. apply list_elem_of_singleton.
  rewrite drop_ge; [done|]. rewrite length_app. simpl. lia.
Qed.

Lemma complete_frame_same st st' :
  frame st st' -> visited st' = visited st -> complete st -> complete st'.
Proof.
  intros Hfr Hv [Ho Hs].
  assert (forall x, finished st' x <-> finished st x) as Hfin.
  { intros x. unfold finished. by rewrite Hv, (fr_stack _ _ Hfr). }
  split.
  - destruct Ho as [F [HF Ht]]. exists F. split.
    + intros x. by rewrite Hfin.
    + revert Ht. apply topo_mono. intros u w. by apply closes_frame.
  - intros v Hf He. eapply frame_cycles_elem; [done|]. apply Hs; [|done].
    by apply Hfin.
Qed.

Lemma dfs_complete fuel node st st' :
  wf st -> complete st -> node ∉ visited st ->
  (forall u, last (path st) = Some u -> edge graph u node) ->
  dfs graph fuel node st = Some st' ->
  complete st' /\ finished st' node.
Proof.
  revert node st st'. induction fuel as [|fuel IH]; intros node st st';
    [discriminate|].
  intros Hwf Hco Hnew Hedge Hrun.
  destruct (dfs_wf _ _ _ _ Hwf Hnew Hedge Hrun) as (Hwf' & Hfr' & Hvis').
  assert (node ∉ recStack st) as Hnr.
  { intros Hr. apply Hnew. by apply wf_stack_visited. }
  assert (node ∉ path st) as Hnp.
  { intros Hp. apply Hnew. by apply (wf_visited _ _ Hwf). }
  assert (finished st' node) as Hfin.
  { split; [done|]. by rewrite (fr_stack _ _ Hfr'). }
  split; [|done].
  simpl in Hrun.
  destruct (for_each _ _ _) as [st1|] eqn:Hloop; [|discriminate].
  injection Hrun as <-.
  assert (loop_inv node st (neighbors_of graph node) st1) as Hinv.
  { revert Hloop. apply (for_each_prefix_inv (loop_inv node st)).
    - intros pre x post s s' Hxs [Hws Hfs Hcs Hds Hss] Hbody.
      assert (edge graph node x) as Hex.
      { unfold edge. rewrite Hxs. apply elem_of_app. right. left. }
      assert (last (path s) = Some node) as Hlast.
      { rewrite (fr_path _ _ Hfs). simpl. apply last_snoc. }
      assert (node ∈ recStack s) as Hns.
      { rewrite (fr_stack _ _ Hfs). simpl. set_solver. }
      assert (node ∈ visited s) as Hnv by (by apply wf_stack_visited).
      unfold visit_neighbor in Hbody.
      destruct (decide (x ∈ visited s)) as [Hv|Hv];
        [destruct (decide (x ∈ recStack s)) as [Hr|Hr]|].
      + injection Hbody as <-.
        pose proof (record_cycle_frame x s) as Hrf.
        assert (visited (record_cycle x s) = visited s) as Hrv.
        { unfold record_cycle. by destruct (indexOf (path s) x). }
        split.
        * by apply (record_cycle_wf node).
        * by eapply frame_trans.
        * by apply (complete_frame_same s).
        * intros w Hw. apply elem_of_app in Hw as [Hw|Hw].
          -- destruct (Hds w Hw) as [Hf|Hc].
             ++ left. by eapply finished_frame.
             ++ right. by eapply closes_frame.
          -- apply list_elem_of_singleton in Hw as ->. right.
             by apply record_cycle_closes.
        * intros Hin. apply elem_of_app in Hin as [Hin|Hin].
          -- eapply frame_cycles_elem; [done|]. by apply Hss.
          -- apply list_elem_of_singleton in Hin as <-.
             apply (record_cycle_self _ _ (path st)); [|done].
             by rewrite (fr_path _ _ Hfs).
      + injection Hbody as <-. split; try done.
        * intros w Hw. apply elem_of_app in Hw as [Hw|Hw]; [by apply Hds|].
          apply list_elem_of_singleton in Hw as ->. left. by split.
        * intros Hin. apply elem_of_app in Hin as [Hin|Hin]; [by apply Hss|].
          apply list_elem_of_singleton in Hin as <-. done.
      + assert (forall u, last (path s) = Some u -> edge graph u x) as Hlx.
        { intros u Hu. rewrite Hlast in Hu. by injection Hu as <-. }
        destruct (dfs_wf _ _ _ _ Hws Hv Hlx Hbody) as (Hws' & Hfs' & _).
        destruct (IH _ _ _ Hws Hcs Hv Hlx Hbody) as [Hcs' Hfx].
        split; try done.
        * by eapply frame_trans.
        * intros w Hw. apply elem_of_app in Hw as [Hw|Hw].
          -- destruct (Hds w Hw) as [Hf|Hc].
             ++ left. by eapply finished_frame.
             ++ right. by eapply closes_frame.
          -- apply list_elem_of_singleton in Hw as ->. by left.
        * intros Hin. apply elem_of_app in Hin as [Hin|Hin].
          -- eapply frame_cycles_elem; [done|]. by apply Hss.
          -- apply list_elem_of_singleton in Hin as <-. done.
    - split.
      + by apply wf_enter.
      + apply frame_refl.
      + assert (forall x, finished (enter node st) x <-> finished st x) as Hfe.
        { intros x. unfold finished. simpl. set_solver. }
        destruct Hco as [Ho Hs]. split.
        * destruct Ho as [F [HF Ht]]. exists F.
          split; [|done]. intros x. by rewrite Hfe.
        * intros v Hv. apply Hs. by apply Hfe.
      + intros w Hw. inversion Hw.
      + intros Hin. inversion Hin. }
  destruct Hinv as [Hw1 Hf1 Hc1 Hd1 Hs1].
  assert (forall x, finished (leave node st1) x <-> finished st1 x \/ x = node)
    as Hfl.
  { intros x. unfold finished. simpl.
    assert (node ∈ visited st1) as Hn.
    { apply (fr_visited _ _ Hf1). simpl. set_solver. }
    destruct (decide (x = node)) as [->|Hne]; set_solver. }
  split.
  - destruct (co_order _ _ Hc1) as [F [HF Ht]].
    exists (node :: F). split.
    + intros x. rewrite Hfl, elem_of_cons, HF. tauto.
    + simpl. split; [|done]. intros w Hw.
      destruct (Hd1 w Hw) as [Hf|Hc]; [left; by apply HF|by right].
  - intros v Hv He. apply Hfl in Hv as [Hv| ->].
    + by apply (co_self _ _ Hc1).
    + by apply Hs1.
Qed.

(** *** The traversal returns *)

Lemma for_each_total (P : dfs_state -> Prop) body xs :
  (forall x s, x ∈ xs -> P s -> exists s', body x s = Some s' /\ P s') ->
  forall s, P s -> exists s', for_each body xs s = Some s' /\ P s'.
Proof.
  induction xs as [|x xs IH]; intros Hstep s HP; simpl; [eauto|].
  destruct (Hstep x s) as (s1 & -> & HP1); [left|done|].
  apply IH; [|done]. intros y s2 Hy. apply Hstep. by right.
Qed.

Lemma for_each_mono body1 body2 xs s s' :
  (forall x s s', body1 x s = Some s' -> body2 x s = Some s') ->
  for_each body1 xs s = Some s' -> for_each body2 xs s = Some s'.
Proof.
  intros Hb. revert s. induction xs as [|x xs IH]; intros s; simpl; [done|].
  destruct (body1 x s) as [s1|] eqn:E; [|discriminate].
  rewrite (Hb _ _ _ E). apply IH.
Qed.

(** More fuel never changes a result. *)
Lemma dfs_fuel_mono fuel fuel' node st st' :
  fuel <= fuel' -> dfs graph fuel node st = Some st' ->
  dfs graph fuel' node st = Some st'.
Proof.
  revert fuel' node st st'.
  induction fuel as [|fuel IH]; intros fuel' node st st' Hle; [discriminate|].
  destruct fuel' as [|fuel']; [lia|]. simpl.
  destruct (for_each (visit_neighbor (dfs graph fuel)) _ _) as [s1|] eqn:E;
    [|discriminate].
  intros [= <-].
  assert (for_each (visit_neighbor (dfs graph fuel'))
            (neighbors_of graph node) (enter node st) = Some s1) as ->; [|done].
  revert E. apply for_each_mono. intros x s s'. unfold visit_neighbor.
  destruct (decide (x ∈ visited s)); [done|]. apply IH. lia.
Qed.

Lemma dfs_visited_mono fuel node st st' :
  dfs graph fuel node st = Some st' -> visited (enter node st) ⊆ visited st'.
Proof.
  revert node st st'. induction fuel as [|fuel IH]; intros node st st';
    [discriminate|]. simpl.
  destruct (for_each _ _ _) as [s1|] eqn:E; [|discriminate].
  intros [= <-]. simpl. revert E.
  apply (for_each_inv (fun s => visited st ∪ {[node]} ⊆ visited s)); [|done].
  intros x s s' _ Hs. unfold visit_neighbor.
  destruct (decide (x ∈ visited s)).
  - destruct (decide (x ∈ recStack s)); intros [= <-]; [|done].
    unfold record_cycle. by destruct (indexOf (path s) x).
  - intros Hd. apply IH in Hd. simpl in Hd. set_solver.
Qed.

(** The nodes of the graph as a set. *)
Local Abbreviation universe := (list_to_set (nodes graph) : gset string).

Lemma edge_universe u w : edge graph u w -> w ∈ universe.
Proof.
  unfold edge, neighbors_of, nodes. intros H.
  apply elem_of_list_to_set, elem_of_app. right.
  induction graph as [|[k v] g IH]; simpl in *; [inversion H|].
  destruct (String.eqb k u).
  - apply elem_of_app. by left.
  - apply elem_of_app. right. by apply IH.
Qed.

Lemma key_universe k : k ∈ keys graph -> k ∈ universe.
Proof.
  intros H. apply elem_of_list_to_set, elem_of_app. by left.
Qed.

Lemma edge_key u w : edge graph u w -> u ∈ keys graph.
Proof.
  unfold edge, neighbors_of, keys.
  induction graph as [|[k v] g IH]; simpl; intros H; [inversion H|].
  destruct (String.eqb_spec k u) as [->|Hne]; [left|right; by apply IH].
Qed.

Lemma size_list_to_set_le (l : list string) :
  size (list_to_set l : gset string) <= length l.
Proof.
  induction l as [|x l IH].
  - by rewrite list_to_set_nil, size_empty.
  - rewrite list_to_set_cons, size_union_alt, size_singleton.
    pose proof (subseteq_size (list_to_set l ∖ {[x]}) (list_to_set l : gset string)
                  ltac:(set_solver)). simpl. lia.
Qed.

(** Every call of [dfs] on a new node returns when the fuel exceeds the
    number of nodes not yet visited. *)
Lemma dfs_total fuel node st :
  node ∈ universe -> node ∉ visited st ->
  size (universe ∖ visited st) <= fuel ->
  exists st', dfs graph fuel node st = Some st'.
Proof.
  revert node st. induction fuel as [|fuel IH]; intros node st Hu Hnew Hsize.
  - exfalso.
    assert (universe ∖ visited st ≡ ∅) as He by (apply size_empty_iff; lia).
    assert (node ∈ universe ∖ visited st) as Hin by (by apply elem_of_difference).
    rewrite He in Hin. by apply not_elem_of_empty in Hin.
  - simpl.
    assert (size (universe ∖ visited (enter node st)) <= fuel) as Hsize'.
    { assert (universe ∖ visited (enter node st) ⊂ universe ∖ visited st) as Hsub
        by (simpl; split; [set_solver|]; intros Hc; apply Hnew;
            assert (node ∈ universe ∖ visited st) as Hn by set_solver;
            apply Hc in Hn; set_solver).
      apply subset_size in Hsub. lia. }
    destruct (for_each_total
                (fun s => visited (enter node st) ⊆ visited s)
                (visit_neighbor (dfs graph fuel))
                (neighbors_of graph node)) with (s := enter node st)
      as (s1 & -> & _); [|done|eauto].
    intros x s Hx Hs. unfold visit_neighbor.
    destruct (decide (x ∈ visited s)) as [Hv|Hv].
    + destruct (decide (x ∈ recStack s)); eexists; (split; [done|]); [|done].
      unfold record_cycle. by destruct (indexOf (path s) x).
    + destruct (IH x s) as [s' Hs']; [by apply (edge_universe node)|done| |].
      * pose proof (subseteq_size (universe ∖ visited s)
                      (universe ∖ visited (enter node st)) ltac:(set_solver)).
        lia.
      * exists s'. split; [done|]. apply dfs_visited_mono in Hs'.
        simpl in *. set_solver.
Qed.

(** *** The loop over the keys *)

Lemma roots_run fuel st :
  for_each (visit_root graph fuel) (keys graph) initial_state = Some st ->
  roots_inv (keys graph) st.
Proof.
  apply (for_each_prefix_inv roots_inv).
  - intros pre x post s s' _ [Hw Hc Hp Hs Hv]. unfold visit_root.
    destruct (decide (x ∈ visited s)) as [Hx|Hx].
    + intros [= <-]. split; try done. intros k Hk.
      apply elem_of_app in Hk as [Hk|Hk]; [by apply Hv|].
      by apply list_elem_of_singleton in Hk as ->.
    + intros Hd.
      assert (forall u, last (path s) = Some u -> edge graph u x) as Hl
        by (rewrite Hp; discriminate).
      destruct (dfs_wf _ _ _ _ Hw Hx Hl Hd) as (Hw' & Hf' & Hx').
      destruct (dfs_complete _ _ _ _ Hw Hc Hx Hl Hd) as [Hc' _].
      split; try done.
      * by rewrite (fr_path _ _ Hf').
      * by rewrite (fr_stack _ _ Hf').
      * intros k Hk. apply elem_of_app in Hk as [Hk|Hk].
        -- apply (fr_visited _ _ Hf'). by apply Hv.
        -- by apply list_elem_of_singleton in Hk as ->.
  - split; try done.
    + apply wf_initial.
    + apply complete_initial.
    + intros k Hk. inversion Hk.
Qed.

Lemma roots_total fuel :
  length (nodes graph) <= fuel ->
  exists st, for_each (visit_root graph fuel) (keys graph) initial_state = Some st.
Proof.
  intros Hfuel.
  destruct (for_each_total (fun _ => True) (visit_root graph fuel) (keys graph))
    with (s := initial_state) as (st & Hst & _); [|done|eauto].
  intros x s Hx _. unfold visit_root.
  destruct (decide (x ∈ visited s)) as [Hv|Hv]; [eauto|].
  destruct (dfs_total fuel x s) as [s' Hs']; [by apply key_universe|done| |eauto].
  pose proof (subseteq_size (universe ∖ visited s) universe ltac:(set_solver)).
  pose proof (size_list_to_set_le (nodes graph)). lia.
Qed.

(** The fuel [detectCycles] runs with is enough, and so is any larger. *)
Lemma detectCycles_fuel_enough fuel :
  length (nodes graph) <= fuel ->
  detectCycles_fuel graph fuel = Some (detectCycles graph).
Proof.
  intros Hfuel. unfold detectCycles, detectCycles_fuel.
  destruct (roots_total (S (length (nodes graph)))) as [st Hst]; [lia|].
  destruct (roots_total fuel Hfuel) as [st' Hst'].
  rewrite Hst, Hst'. simpl. f_equal.
  destruct (Nat.le_ge_cases fuel (S (length (nodes graph)))) as [Hle|Hle].
  - assert (for_each (visit_root graph (S (length (nodes graph))))
              (keys graph) initial_state = Some st') as Hst''.
    { revert Hst'. apply for_each_mono. intros x s s'. unfold visit_root.
      destruct (decide (x ∈ visited s)); [done|]. by apply dfs_fuel_mono. }
    congruence.
  - assert (for_each (visit_root graph fuel) (keys graph) initial_state
            = Some st) as Hst''.
    { revert Hst. apply for_each_mono. intros x s s'. unfold visit_root.
      destruct (decide (x ∈ visited s)); [done|]. by apply dfs_fuel_mono. }
    congruence.
Qed.

Lemma detectCycles_final :
  exists st,
    for_each (visit_root graph (S (length (nodes graph)))) (keys graph)
      initial_state = Some st /\
    detectCycles graph = cycles st /\ roots_inv (keys graph) st.
Proof.
  destruct (roots_total (S (length (nodes graph)))) as [st Hst]; [lia|].
  exists st. split; [done|]. split; [|by eapply roots_run].
  unfold detectCycles, detectCycles_fuel. by rewrite Hst.
Qed.

(** Every returned cycle is a simple cycle of the graph. *)
Lemma detectCycles_sound c :
  c ∈ detectCycles graph -> simple_cycle graph c.
Proof.
  destruct detectCycles_final as (st & _ & -> & Hinv).
  apply (wf_cycles _ _ (ri_wf _ _ _ Hinv)).
Qed.

(** Every closed walk of the graph takes the import that closes a
    returned cycle. *)
Lemma detectCycles_closing_import c :
  closed_walk graph c ->
  exists u w, on_walk c u w /\ closes (detectCycles graph) u w.
Proof.
  intros (n & rest & -> & Hw).
  destruct detectCycles_final as (st & _ & -> & [Hwf Hco Hp Hs Hv]).
  destruct (co_order _ _ Hco) as [F [HF Ht]].
  apply (topo_closed_walk (cycles st) F n rest); [done| |done].
  apply HF. split.
  - apply Hv. destruct Hw as [Hhead _].
    destruct rest as [|w rest]; eapply edge_key; by apply Hhead.
  - rewrite Hs. set_solver.
Qed.

(** A graph with a closed walk has a cycle returned. *)
Lemma detectCycles_detects c :
  closed_walk graph c -> detectCycles graph <> [].
Proof.
  intros Hc. destruct (detectCycles_closing_import c Hc)
    as (u & w & _ & before & Hin).
  intros Hnil. rewrite Hnil in Hin. inversion Hin.
Qed.

(** A node that imports itself is returned as the cycle [[n; n]]. *)
Lemma detectCycles_self_loop n :
  edge graph n n -> [n; n] ∈ detectCycles graph.
Proof.
  intros He.
  destruct detectCycles_final as (st & _ & -> & [Hwf Hco Hp Hs Hv]).
  apply (co_self _ _ Hco); [|done]. split.
  - apply Hv. by eapply edge_key.
  - rewrite Hs. set_solver.
Qed.

End Traversal.
End GraphFacts.

(** ** Facts about the classifier, the resolver and the toggles *)

Module RuleFacts.
Import JsValue Counted Ast Core Host Parser Rules Spec Js JsFacts.

(** What the classifier computes on a declaration with a non-empty name. *)
Lemma isComponentFunction_declaration `{Host} c rest start cs :
  isComponentFunction
    (mkNode (FunctionDeclaration (Some (String c rest))) start cs) = true
  <-> startsWithOwnUpperCase (String c rest) = true
      \/ startsWith (String c rest) "use" = true.
Proof.
  unfold isComponentFunction, isFunctionDeclaration, kind.
  cbn [negb andb]. apply orb_true_iff.
Qed.

(** Only declarations are ever classified as components. *)
Lemma isComponentFunction_not_declaration `{Host} node :
  isFunctionDeclaration node = false -> isComponentFunction node = false.
Proof.
  destruct node as [k s cs]. unfold isComponentFunction, isFunctionDeclaration.
  simpl. destruct k; try done.
Qed.

(** *** The layer resolver *)

Lemma get_append_head pre c rest :
  String.get (String.length pre) (pre +:+ String c rest) = Some c.
Proof.
  pose proof (append_correct2 pre (String c rest) 0) as H.
  simpl in H. by rewrite <- H.
Qed.

Lemma normalized_has_no_backslash_segment p l :
  includes (replace_backslashes p) ("\" +:+ l +:+ "\") = false.
Proof.
  destruct (includes _ _) eqn:E; [|done]. exfalso.
  apply includes_app in E as (pre & post & E).
  apply (replace_backslashes_no_backslash p (String.length pre)).
  rewrite E. apply get_append_head.
Qed.

Lemma includes_segment path l :
  includes path ("/" +:+ l +:+ "/") = true <-> occurs_as_segment l path.
Proof.
  rewrite includes_app. unfold occurs_as_segment.
  split; intros (pre & post & ->); exists pre, post; f_equal;
    by rewrite !append_assoc.
Qed.

Lemma first_layer_in_spec p names :
  match first_layer_in (replace_backslashes p) names with
  | Some l =>
      exists earlier later,
        names = earlier ++ l :: later /\
        occurs_as_segment l (replace_backslashes p) /\
        forall l', l' ∈ earlier -> ~ occurs_as_segment l' (replace_backslashes p)
  | None =>
      forall l, l ∈ names -> ~ occurs_as_segment l (replace_backslashes p)
  end.
Proof.
  induction names as [|n names IH]; simpl.
  - intros l Hl. inversion Hl.
  - rewrite normalized_has_no_backslash_segment, orb_false_r.
    destruct (includes (replace_backslashes p) ("/" +:+ n +:+ "/")) eqn:E.
    + exists [], names. split; [done|]. split; [by apply includes_segment|].
      intros l' Hl'. inversion Hl'.
    + assert (~ occurs_as_segment n (replace_backslashes p)) as Hn.
      { intros Ho. apply includes_segment in Ho. congruence. }
      destruct (first_layer_in (replace_backslashes p) names) as [l|].
      * destruct IH as (earlier & later & -> & Ho & Hearlier).
        exists (n :: earlier), later. split; [done|]. split; [done|].
        intros l' Hl'. apply elem_of_cons in Hl' as [->|Hl']; [done|].
        by apply Hearlier.
      * intros l Hl. apply elem_of_cons in Hl as [->|Hl]; [done|]. by apply IH.
Qed.

Lemma replace_backslashes_get p i :
  String.get i (replace_backslashes p)
  = option_map (fun c => if Ascii.eqb c "\"%char then "/"%char else c)
      (String.get i p).
Proof.
  revert i. induction p as [|c p IH]; intros i; simpl; [done|].
  destruct i as [|i]; [done|]. apply IH.
Qed.

End RuleFacts.

(** ** Facts about the boundary rule *)

Module BoundaryFacts.
Import JsValue Counted Ast Core Host Parser Rules Spec Js JsFacts RuleFacts.

(** Induction on a syntax tree, with the hypothesis for every child. *)
Lemma Node_tree_ind (P : Node -> Prop) :
  (forall k s cs, Forall P cs -> P (mkNode k s cs)) -> forall n, P n.
Proof.
  intros Hstep. fix IH 1. intros [k s cs]. apply Hstep.
  induction cs as [|c cs IHcs]; constructor; [apply IH|exact IHcs].
Qed.

Lemma fold_find_is_Some p cs found :
  Forall (fun c => forall f, is_Some f -> is_Some (findImportNode_visit p c f)) cs ->
  is_Some found ->
  is_Some (fold_left (fun acc c => findImportNode_visit p c acc) cs found).
Proof.
  intros Hall. revert found. induction Hall as [|c cs Hc _ IH]; intros found Hf;
    simpl; [done|]. apply IH. by apply Hc.
Qed.

(** Once an import declaration is found, one stays found. *)
Lemma findImportNode_visit_is_Some p n found :
  is_Some found -> is_Some (findImportNode_visit p n found).
Proof.
  revert found. induction n as [k s cs IH] using Node_tree_ind. intros found Hf.
  simpl. pose proof (fold_find_is_Some p cs found IH Hf) as Hd.
  destruct k as [| [text|] clause | | | | | | | | | | |]; try done.
  destruct (String.eqb text p); [by eexists|done].
Qed.

Lemma extractImports_handle_elem imp n acc :
  imp ∈ extractImports_handle n acc ->
  imp ∈ acc \/ moduleSpecifierText n = Some (from imp).
Proof.
  destruct n as [k s cs]. unfold extractImports_handle, moduleSpecifierText.
  simpl. destruct k as [| [text|] clause | | | | | | | | | | |]; auto.
  intros Hin. apply elem_of_app in Hin as [Hin|Hin]; [by left|].
  apply list_elem_of_singleton in Hin as ->. by right.
Qed.

Lemma findImportNode_visit_match p k s cs found :
  moduleSpecifierText (mkNode k s cs) = Some p ->
  findImportNode_visit p (mkNode k s cs) found = Some (mkNode k s cs).
Proof.
  unfold moduleSpecifierText. simpl.
  destruct k as [| [text|] clause | | | | | | | | | | |]; try done.
  intros [= ->]. by rewrite String.eqb_refl.
Qed.

(** Every import that [extractImports] collects in a tree has an import
    declaration that [findImportNode] finds in it. *)
Lemma extracted_import_found imp n :
  forall acc found,
    imp ∈ visit_all extractImports_handle n acc ->
    imp ∈ acc \/ is_Some (findImportNode_visit (from imp) n found).
Proof.
  induction n as [k s cs IH] using Node_tree_ind. intros acc found Hin.
  destruct (decide (moduleSpecifierText (mkNode k s cs) = Some (from imp)))
    as [Hm|Hm].
  { right. rewrite findImportNode_visit_match by done. by eexists. }
  assert (forall acc0 found0,
             imp ∈ fold_left (fun a c => visit_all extractImports_handle c a) cs acc0 ->
             imp ∈ acc0 \/
             is_Some (fold_left (fun a c => findImportNode_visit (from imp) c a)
                        cs found0)) as Hfold.
  { clear Hin Hm acc found. induction IH as [|c cs Hc Hcs IHcs];
      intros acc0 found0 Hin; simpl in *; [by left|].
    destruct (IHcs _ (findImportNode_visit (from imp) c found0) Hin) as [Hin'|Hs];
      [|by right].
    destruct (Hc acc0 found0 Hin') as [Hacc|Hs]; [by left|].
    right. apply fold_find_is_Some; [|done].
    eapply Forall_impl; [exact Hcs|]. intros c' _ f.
    apply findImportNode_visit_is_Some. }
  simpl in Hin. destruct (Hfold _ found Hin) as [Hh|Hs].
  - apply extractImports_handle_elem in Hh as [Hacc|Hspec]; [by left|done].
  - right. simpl.
    destruct k as [| [text|] clause | | | | | | | | | | |]; try done.
    destruct (String.eqb text (from imp)); [by eexists|done].
Qed.

Lemma extractImports_found sourceFile imp :
  imp ∈ extractImports sourceFile ->
  is_Some (findImportNode sourceFile (from imp)).
Proof.
  intros Hin. destruct (extracted_import_found imp sourceFile [] None Hin)
    as [Hnil|Hs]; [inversion Hnil|done].
Qed.

Lemma get_layer_is_Some ls l : l ∈ map fst ls -> is_Some (get_layer ls l).
Proof.
  induction ls as [|[k v] ls IH]; simpl; intros Hin; [inversion Hin|].
  destruct (String.eqb_spec k l) as [->|Hne]; [by eexists|].
  apply elem_of_cons in Hin as [->|Hin]; [done|]. by apply IH.
Qed.

Lemma first_layer_in_elem p names l :
  first_layer_in p names = Some l -> l ∈ names.
Proof.
  induction names as [|n names IH]; simpl; [done|].
  destruct (_ || _); [intros [= ->]; left|]. intros Hl. right. by apply IH.
Qed.

Section WithHost.
Context `{Host}.

Lemma boundary_step_report context layerName layerConfig vs imp :
  boundary_step context layerName layerConfig vs imp
  = vs ++ boundary_report context layerName layerConfig imp.
Proof.
  unfold boundary_step, boundary_report, disallowed_layer.
  destruct (isRelativeImport (from imp)); [|by rewrite app_nil_r].
  destruct (detectLayerFromImportPath _ _ _) as [imported|];
    [|by rewrite app_nil_r].
  destruct (negb (String.eqb imported "") && negb (String.eqb imported layerName));
    [|by rewrite app_nil_r].
  simpl. destruct (negb (has_string _ _)); [|by rewrite app_nil_r].
  destruct (findImportNode _ _); [done|by rewrite app_nil_r].
Qed.

Lemma boundary_fold context layerName layerConfig imps vs :
  fold_left (boundary_step context layerName layerConfig) imps vs
  = vs ++ concat (map (boundary_report context layerName layerConfig) imps).
Proof.
  revert vs. induction imps as [|imp imps IH]; intros vs; simpl.
  - by rewrite app_nil_r.
  - by rewrite IH, boundary_step_report, <- app_assoc.
Qed.

(** With the toggle on, the violations of a file in a layer are the reports
    of its imports, in order; for the imports the parser extracted from the
    source text the import declaration is always found. *)
Lemma boundary_violations_by_import context layerName :
  truthy (enforceFeatureBoundaries (rules (architecture context))) = true ->
  detectLayerFromPath (filePath context) (layers (architecture context))
  = Some layerName ->
  layerName <> "" ->
  exists layerConfig,
    get_layer (layers (architecture context)) layerName = Some layerConfig /\
    violations (value (execute createLayerImportBoundaryRule context))
    = concat (map (boundary_report context layerName layerConfig)
                (imports context)) /\
    (imports context
     = extractImports (parseTypeScript (sourceCode context) (filePath context)) ->
     forall imp, imp ∈ imports context ->
       is_Some (findImportNode
                  (parseTypeScript (sourceCode context) (filePath context))
                  (from imp))).
Proof.
  intros Hon Hlayer Hname.
  destruct (get_layer_is_Some (layers (architecture context)) layerName)
    as [layerConfig Hcfg].
  { by apply (first_layer_in_elem _ _ _ Hlayer). }
  exists layerConfig. split; [done|]. split.
  - simpl. unfold layerImportBoundary_execute. rewrite Hon, Hlayer. simpl.
    apply String.eqb_neq in Hname. rewrite Hname. simpl. rewrite Hcfg.
    unfold value. simpl. by rewrite boundary_fold.
  - intros Himports imp Hin. apply extractImports_found. by rewrite <- Himports.
Qed.

End WithHost.
End BoundaryFacts.

(** ** Facts about the cycle rule and the check run *)

Module RunFacts.
Import JsValue Counted Ast Core Host Parser Rules Spec Cli Js JsFacts.
Import Graph GraphFacts Reports.

(** *** The counter *)

Lemma value_bind {A B : Type} (m : Counted A) (f : A -> Counted B) :
  value (bind m f) = value (f (value m)).
Proof. destruct m as [a n]. unfold bind, value. simpl. by destruct (f a). Qed.

Lemma scans_bind {A B : Type} (m : Counted A) (f : A -> Counted B) :
  scans (bind m f) = scans m + scans (f (value m)).
Proof. destruct m as [a n]. unfold bind, scans, value. simpl. by destruct (f a). Qed.

Lemma bind_ext {A B : Type} (m : Counted A) (f g : A -> Counted B) :
  (forall a, f a = g a) -> bind m f = bind m g.
Proof. intros Hfg. destruct m as [a n]. unfold bind. by rewrite Hfg. Qed.

(** *** The canonical reporter of a cycle *)

Section Reporter.
Context `{Host}.

(** The violations of the cycle rule are those of the returned cycles
    whose first sorted entry is the file. *)
Lemma circular_fold_reporter context cs acc :
  fold_left (circular_step context) cs acc
  = acc ++ map (cycle_violation (filePath context))
             (List.filter (is_reporter (filePath context)) cs).
Proof.
  revert acc. induction cs as [|c cs IH]; intros acc; simpl.
  - by rewrite app_nil_r.
  - rewrite IH. unfold circular_step, is_reporter.
    destruct (decide (Some (filePath context) = firstFileInCycle c)) as [Heq|Hne].
    + rewrite bool_decide_eq_true_2 by done. simpl. by rewrite <- app_assoc.
    + by rewrite bool_decide_eq_false_2 by done.
Qed.

Lemma circular_on_reporter context graph :
  truthy (noCircularLayerDeps (rules (architecture context))) = true ->
  importGraph context = Some graph ->
  execute createCircularDependencyRule context
  = (let violations :=
       map (cycle_violation (filePath context))
         (List.filter (is_reporter (filePath context)) (detectCycles graph)) in
     {| violations := violations;
        passed := Nat.eqb (length violations) 0 |}, 1).
Proof.
  intros Hon Hgraph. simpl. unfold circularDependency_execute.
  rewrite Hon, Hgraph. simpl. by rewrite circular_fold_reporter.
Qed.

Lemma forallb_leb f (c : list string) :
  forallb (codeUnitLeb f) c = true
  <-> forall y, y ∈ c -> codeUnitLeb f y = true.
Proof.
  rewrite forallb_forall. split; intros Hall y Hy; apply Hall;
    by apply list_elem_of_In.
Qed.

(** In the total order of [sort] the first sorted entry is the smallest
    entry. *)
Hypothesis order : sorts_by_total_order.

Lemma firstFileInCycle_smallest f c :
  firstFileInCycle c = Some f <-> smallest_in f c = true.
Proof.
  destruct order as (Htotal & Htrans & Hantisym).
  unfold firstFileInCycle, smallest_in.
  rewrite andb_true_iff, bool_decide_eq_true, forallb_leb. split.
  - by apply sort_head.
  - intros [Hin Hleast].
    destruct (sort_head_is_Some codeUnitLeb c) as [m Hm];
      [by destruct c; [inversion Hin|]|].
    rewrite Hm. f_equal.
    apply (sort_head codeUnitLeb Htotal Htrans) in Hm as [Hmin Hmleast].
    apply Hantisym; [by apply Hmleast|by apply Hleast].
Qed.

Lemma is_reporter_smallest f c : is_reporter f c = smallest_in f c.
Proof.
  unfold is_reporter. destruct (smallest_in f c) eqn:E.
  - apply firstFileInCycle_smallest in E. by apply bool_decide_eq_true.
  - apply bool_decide_eq_false. intros Heq. symmetry in Heq.
    apply firstFileInCycle_smallest in Heq. congruence.
Qed.

Lemma circular_fold context cs acc :
  fold_left (circular_step context) cs acc
  = acc ++ map (cycle_violation (filePath context))
             (List.filter (smallest_in (filePath context)) cs).
Proof.
  rewrite circular_fold_reporter. do 2 f_equal.
  apply filter_ext. intros c. apply is_reporter_smallest.
Qed.

Lemma circular_on_violations context graph :
  truthy (noCircularLayerDeps (rules (architecture context))) = true ->
  importGraph context = Some graph ->
  execute createCircularDependencyRule context
  = (let violations :=
       map (cycle_violation (filePath context))
         (List.filter (smallest_in (filePath context)) (detectCycles graph)) in
     {| violations := violations;
        passed := Nat.eqb (length violations) 0 |}, 1).
Proof.
  intros Hon Hgraph. simpl. unfold circularDependency_execute.
  rewrite Hon, Hgraph. simpl. by rewrite circular_fold.
Qed.

End Reporter.

(** *** Two files that import each other *)

Lemma neighbors_of_mutual_l a b : neighbors_of (mutual_imports a b) a = [b].
Proof. unfold neighbors_of, mutual_imports. simpl. by rewrite String.eqb_refl. Qed.

Lemma neighbors_of_mutual_r a b :
  a <> b -> neighbors_of (mutual_imports a b) b = [a].
Proof.
  intros Hab. unfold neighbors_of, mutual_imports. simpl.
  apply String.eqb_neq in Hab. by rewrite Hab, String.eqb_refl.
Qed.

Lemma detectCycles_mutual a b :
  a <> b -> detectCycles (mutual_imports a b) = [[a; b; a]].
Proof.
  intros Hab. unfold detectCycles, detectCycles_fuel.
  change (keys (mutual_imports a b)) with [a; b].
  change (length (nodes (mutual_imports a b))) with 4.
  cbn [for_each]. unfold visit_root at 1.
  rewrite decide_False by (simpl; set_solver).
  cbn [dfs]. rewrite neighbors_of_mutual_l. cbn [for_each].
  unfold visit_neighbor at 1.
  rewrite decide_False by (simpl; set_solver).
  cbn [dfs]. rewrite neighbors_of_mutual_r by done. cbn [for_each].
  unfold visit_neighbor at 1.
  rewrite decide_True by (simpl; set_solver).
  rewrite decide_True by (simpl; set_solver).
  unfold record_cycle. cbn [path enter initial_state app indexOf].
  rewrite String.eqb_refl.
  unfold visit_root.
  rewrite decide_True by (simpl; set_solver).
  reflexivity.
Qed.

(** *** How often the graph is scanned *)

Section WithHost.
Context `{Host}.

Lemma scans_boundary context :
  scans (execute createLayerImportBoundaryRule context) = 0.
Proof.
  simpl. unfold layerImportBoundary_execute. repeat case_match; done.
Qed.

Lemma scans_businessLogic context :
  scans (execute createBusinessLogicInComponentsRule context) = 0.
Proof. simpl. unfold businessLogic_execute. repeat case_match; done. Qed.

Lemma scans_dataFetching context :
  scans (execute createDataFetchingInUIRule context) = 0.
Proof. simpl. unfold dataFetching_execute. repeat case_match; done. Qed.

Lemma scans_circular context :
  scans (execute createCircularDependencyRule context)
  = if truthy (noCircularLayerDeps (rules (architecture context)))
    then match importGraph context with Some _ => 1 | None => 0 end
    else 0.
Proof.
  simpl. unfold circularDependency_execute.
  destruct (truthy _); [|done]. by destruct (importGraph context).
Qed.

Lemma scans_executeRules_loop todo context acc :
  scans (executeRules_loop todo context acc)
  = foldr (fun r n => scans (execute r context) + n) 0 todo.
Proof.
  revert acc. induction todo as [|r todo IH]; intros acc; simpl; [done|].
  by rewrite scans_bind, IH.
Qed.

Lemma scans_check_engine context :
  scans (executeRules check_engine context)
  = if truthy (noCircularLayerDeps (rules (architecture context)))
    then match importGraph context with Some _ => 1 | None => 0 end
    else 0.
Proof.
  unfold executeRules. rewrite scans_bind, scans_executeRules_loop.
  unfold check_engine, registerRule, new_RuleEngine.
  cbn [engine_rules app foldr].
  rewrite scans_boundary, scans_businessLogic, scans_dataFetching, scans_circular.
  simpl. lia.
Qed.

Lemma scans_runChecks_loop fs architecture graph todo acc :
  scans (runChecks_loop fs architecture graph check_engine todo acc)
  = if truthy (noCircularLayerDeps (rules architecture))
    then length todo else 0.
Proof.
  revert acc. induction todo as [|f todo IH]; intros acc; cbn [runChecks_loop].
  - by destruct (truthy _).
  - rewrite scans_bind, scans_check_engine, IH. cbn [Core.architecture importGraph].
    destruct (truthy _); simpl; lia.
Qed.

(** *** The run reads only what it is given *)

Lemma first_existing_ext fs1 fs2 candidates :
  (forall p, existsSync fs1 p = existsSync fs2 p) ->
  first_existing fs1 candidates = first_existing fs2 candidates.
Proof.
  intros He. induction candidates as [|p ps IH]; simpl; [done|].
  by rewrite He, IH.
Qed.

Lemma resolveImportPath_ext fs1 fs2 importPath fromFile :
  (forall p, existsSync fs1 p = existsSync fs2 p) ->
  (forall p, isFile fs1 p = isFile fs2 p) ->
  resolveImportPath fs1 importPath fromFile
  = resolveImportPath fs2 importPath fromFile.
Proof.
  intros He Hf. unfold resolveImportPath.
  by rewrite He, Hf, !(first_existing_ext fs1 fs2).
Qed.

Lemma fold_left_ext_in {A B : Type} (f g : A -> B -> A) (l : list B) (a : A) :
  (forall acc x, x ∈ l -> f acc x = g acc x) ->
  fold_left f l a = fold_left g l a.
Proof.
  revert a. induction l as [|x l IH]; intros a Hfg; simpl; [done|].
  rewrite Hfg by left. apply IH. intros acc y Hy. apply Hfg. by right.
Qed.

Lemma buildImportGraph_ext fs1 fs2 sourceFiles :
  (forall f, f ∈ sourceFiles -> readFileSync fs1 f = readFileSync fs2 f) ->
  (forall p, existsSync fs1 p = existsSync fs2 p) ->
  (forall p, isFile fs1 p = isFile fs2 p) ->
  buildImportGraph fs1 sourceFiles = buildImportGraph fs2 sourceFiles.
Proof.
  intros Hr He Hf. unfold buildImportGraph.
  apply fold_left_ext_in. intros graph f Hin. rewrite (Hr f Hin). f_equal.
  apply fold_left_ext_in. intros acc imp _. unfold relativeImports_step.
  by rewrite (resolveImportPath_ext fs1 fs2).
Qed.

Lemma runChecks_loop_ext fs1 fs2 architecture graph engine todo acc :
  (forall f, f ∈ todo -> readFileSync fs1 f = readFileSync fs2 f) ->
  runChecks_loop fs1 architecture graph engine todo acc
  = runChecks_loop fs2 architecture graph engine todo acc.
Proof.
  revert acc. induction todo as [|f todo IH]; intros acc Hr; cbn [runChecks_loop];
    [done|].
  rewrite (Hr f) by left. apply bind_ext. intros result.
  apply IH. intros g Hg. apply Hr. by right.
Qed.

End WithHost.
End RunFacts.

(** ** The claims about the classifier, the resolver and the toggles *)

Module ClassifierClaims.
Import JsValue Counted Ast Core Host Parser Rules Spec Js JsFacts RuleFacts.

Section WithHost.
Context `{Host}.

(** C2, at the inputs where the code departs from it: a function expression
    named [UserList] and an arrow function are not classified as components,
    though the declaration of the same name is, as case conversion leaves
    its first letter as it is. The name is read from declarations only. *)
Theorem isComponentFunction_expression_and_arrow_rejected :
  isComponentFunction (mkNode (FunctionExpression (Some "UserList")) 0 []) = false
  /\ isComponentFunction (mkNode ArrowFunction 0 []) = false
  /\ (converts_ascii_letters ->
      isComponentFunction (mkNode (FunctionDeclaration (Some "UserList")) 0 [])
      = true)
  /\ (forall name start cs,
         isComponentFunction (mkNode (FunctionExpression name) start cs) = false)
  /\ (forall start cs, isComponentFunction (mkNode ArrowFunction start cs) = false).
Proof.
  split; [reflexivity|]. split; [reflexivity|]. split.
  - intros Hascii. apply isComponentFunction_declaration. left.
    by rewrite Hascii.
  - split; intros; by apply isComponentFunction_not_declaration.
Qed.


End WithHost.

End ClassifierClaims.

Module ResolverClaims.
Import JsValue Counted Ast Core Host Parser Rules Spec Js JsFacts RuleFacts.

(** C6. The layer resolver replaces every backslash of the path by a slash
    and returns the first layer name, in the order of the mapping, that
    occurs in the normalized path with a separator on both sides; when no
    layer name occurs so it returns none, and the boundary rule then returns
    the empty passing result. *)
Theorem detectLayerFromPath_first_segment_match `{Host}
    (path : string) (layers : list (string * LayerConfig)) :
  let normalized := replace_backslashes path in
  (forall i, String.get i normalized
             = option_map (fun c => if Ascii.eqb c "\"%char then "/"%char else c)
                 (String.get i path)) /\
  match detectLayerFromPath path layers with
  | Some layerName =>
      exists earlier later,
        map fst layers = earlier ++ layerName :: later /\
        occurs_as_segment layerName normalized /\
        forall l, l ∈ earlier -> ~ occurs_as_segment l normalized
  | None =>
      (forall l, l ∈ map fst layers -> ~ occurs_as_segment l normalized) /\
      forall context,
        filePath context = path ->
        Core.layers (architecture context) = layers ->
        execute createLayerImportBoundaryRule context = ret empty_result
  end.
Proof.
  intros normalized. split; [apply replace_backslashes_get|].
  pose proof (first_layer_in_spec path (map fst layers)) as Hspec.
  unfold detectLayerFromPath.
  destruct (first_layer_in (replace_backslashes path) (map fst layers)) as [l|] eqn:E;
    [done|].
  split; [done|]. intros context Hp Hl. simpl.
  unfold layerImportBoundary_execute, detectLayerFromPath.
  rewrite Hp, Hl, E. simpl. by destruct (negb _).
Qed.

End ResolverClaims.

Module ToggleClaims.
Import JsValue Counted Ast Core Host Parser Rules Spec Config Js JsFacts RuleFacts.

Section WithHost.
Context `{Host}.

Lemma boundary_off context :
  truthy (enforceFeatureBoundaries (rules (architecture context))) = false ->
  execute createLayerImportBoundaryRule context = ret empty_result.
Proof. intros Hoff. simpl. unfold layerImportBoundary_execute. by rewrite Hoff. Qed.

Lemma businessLogic_off context :
  truthy (noBusinessLogicInComponents (rules (architecture context))) = false ->
  execute createBusinessLogicInComponentsRule context = ret empty_result.
Proof. intros Hoff. simpl. unfold businessLogic_execute. by rewrite Hoff. Qed.

Lemma dataFetching_off context :
  truthy (noDataFetchingInUI (rules (architecture context))) = false ->
  execute createDataFetchingInUIRule context = ret empty_result.
Proof. intros Hoff. simpl. unfold dataFetching_execute. by rewrite Hoff. Qed.

Lemma circular_off context :
  truthy (noCircularLayerDeps (rules (architecture context))) = false ->
  execute createCircularDependencyRule context = ret empty_result.
Proof. intros Hoff. simpl. unfold circularDependency_execute. by rewrite Hoff. Qed.

(** C7. Each of the four rules returns the result with no violation and
    [passed = true] when its toggle is off, whatever the file, its imports
    and the import graph are. *)
Theorem disabled_rule_passes_empty (context : RuleContext) :
  (truthy (enforceFeatureBoundaries (rules (architecture context))) = false ->
   passes_empty (value (execute createLayerImportBoundaryRule context))) /\
  (truthy (noBusinessLogicInComponents (rules (architecture context))) = false ->
   passes_empty (value (execute createBusinessLogicInComponentsRule context))) /\
  (truthy (noDataFetchingInUI (rules (architecture context))) = false ->
   passes_empty (value (execute createDataFetchingInUIRule context))) /\
  (truthy (noCircularLayerDeps (rules (architecture context))) = false ->
   passes_empty (value (execute createCircularDependencyRule context))).
Proof.
  split; [|split; [|split]]; intros Hoff.
  - by rewrite boundary_off.
  - by rewrite businessLogic_off.
  - by rewrite dataFetching_off.
  - by rewrite circular_off.
Qed.

Lemma absent_defaults config toggle :
  toggle_absent config toggle ->
  nullish_else (get_prop (or_else (get_prop config "rules") (JObj [])) toggle)
    (JBool false) = JBool false.
Proof.
  intros [Hr|Ht]; unfold or_else.
  - by rewrite Hr.
  - destruct (truthy (get_prop config "rules")); [by rewrite Ht|done].
Qed.

(** C9. In the configuration the validator returns, each toggle that the
    document does not mention is [false] (so also when the document has no
    [rules] section), and the rule of that toggle returns the empty passing
    result on every file. *)
Theorem absent_toggle_defaults_to_false
    (config : JsValue) (architecture : ArchitectureConfig) :
  validateArchitectureConfig config = Returns architecture ->
  (toggle_absent config "noBusinessLogicInComponents" ->
   noBusinessLogicInComponents (rules architecture) = JBool false /\
   forall context, Core.architecture context = architecture ->
     passes_empty (value (execute createBusinessLogicInComponentsRule context))) /\
  (toggle_absent config "noDataFetchingInUI" ->
   noDataFetchingInUI (rules architecture) = JBool false /\
   forall context, Core.architecture context = architecture ->
     passes_empty (value (execute createDataFetchingInUIRule context))) /\
  (toggle_absent config "enforceFeatureBoundaries" ->
   enforceFeatureBoundaries (rules architecture) = JBool false /\
   forall context, Core.architecture context = architecture ->
     passes_empty (value (execute createLayerImportBoundaryRule context))) /\
  (toggle_absent config "noCircularLayerDeps" ->
   noCircularLayerDeps (rules architecture) = JBool false /\
   forall context, Core.architecture context = architecture ->
     passes_empty (value (execute createCircularDependencyRule context))).
Proof.
  unfold validateArchitectureConfig.
  destruct (negb (truthy config) || negb (typeof_object config)); [discriminate|].
  destruct (negb (truthy (get_prop config "layers")) || _); [discriminate|].
  destruct (validate_layers _ _) as [ls|msg]; [|discriminate].
  intros [= <-].
  cbn [rules noBusinessLogicInComponents noDataFetchingInUI
       enforceFeatureBoundaries noCircularLayerDeps].
  split; [|split; [|split]]; intros Habs;
    (split; [by apply absent_defaults|]); intros context Hctx.
  - rewrite businessLogic_off; [done|]. rewrite Hctx. simpl.
    by rewrite absent_defaults.
  - rewrite dataFetching_off; [done|]. rewrite Hctx. simpl.
    by rewrite absent_defaults.
  - rewrite boundary_off; [done|]. rewrite Hctx. simpl.
    by rewrite absent_defaults.
  - rewrite circular_off; [done|]. rewrite Hctx. simpl.
    by rewrite absent_defaults.
Qed.

End WithHost.
End ToggleClaims.

(** ** The claims about cycles *)

Module CycleClaims.
Import JsValue Counted Ast Core Host Parser Rules Spec Cli Js JsFacts.
Import Graph GraphFacts RunFacts.

(** C1, as the code has it. On every import graph [detectCycles] returns,
    and every cycle it returns is a simple cycle of the graph: a sequence
    of file paths that starts and ends at the same node, follows import
    edges and repeats no other node. It returns at least one cycle exactly
    when the graph has a cycle, and a node that imports itself is returned
    as the cycle [[n; n]], of one edge. A cycle of the graph need not be
    returned, but none is left untouched: every closed walk of the graph,
    so every simple cycle, takes the import that closes a returned
    cycle. *)
Theorem detectCycles_returns_simple_cycles (graph : ImportGraph) :
  (forall fuel, length (nodes graph) <= fuel ->
     detectCycles_fuel graph fuel = Some (detectCycles graph)) /\
  (forall c, c ∈ detectCycles graph -> simple_cycle graph c) /\
  ((exists c, closed_walk graph c) <-> detectCycles graph <> []) /\
  (forall n, edge graph n n -> [n; n] ∈ detectCycles graph) /\
  (forall c, closed_walk graph c ->
     exists u w, on_walk c u w /\ closes (detectCycles graph) u w).
Proof.
  split; [apply detectCycles_fuel_enough|].
  split; [apply detectCycles_sound|].
  split; [|split; [apply detectCycles_self_loop
                  |apply detectCycles_closing_import]].
  split.
  - intros [c Hc]. by apply (detectCycles_detects graph c).
  - intros Hne. destruct (detectCycles graph) as [|c cs] eqn:E; [done|].
    exists c. assert (simple_cycle graph c) as (n & rest & -> & _ & Hw).
    { apply detectCycles_sound. rewrite E. left. }
    by exists n, rest.
Qed.

(** C1, as the specification has it, fails: in the graph with the imports
    a -> b, a -> c, b -> c and c -> a the simple cycle a -> c -> a is not
    among the returned cycles, which are a -> b -> c -> a alone. *)
Lemma detectCycles_misses_a_simple_cycle :
  detectCycles Examples.two_cycles_graph = [["a"; "b"; "c"; "a"]] /\
  simple_cycle Examples.two_cycles_graph ["a"; "c"; "a"] /\
  ~ finds_every_simple_cycle Examples.two_cycles_graph.
Proof.
  assert (detectCycles Examples.two_cycles_graph = [["a"; "b"; "c"; "a"]]) as Hd
    by (vm_compute; reflexivity).
  assert (simple_cycle Examples.two_cycles_graph ["a"; "c"; "a"]) as Hs.
  { exists "a", ["c"]. split; [done|]. split.
    - apply NoDup_cons. split; [|apply NoDup_singleton].
      intros Hin. apply list_elem_of_singleton in Hin. discriminate.
    - simpl. split; [|split; [|done]].
      + intros w [= <-]. unfold edge. vm_compute. right. left.
      + intros w [= <-]. unfold edge. vm_compute. left. }
  split; [done|]. split; [done|].
  intros Hall. destruct (Hall _ Hs) as (c' & Hin & k & Hrot).
  rewrite Hd in Hin. apply list_elem_of_singleton in Hin as ->.
  apply (f_equal length) in Hrot. rewrite length_rotate in Hrot.
  simpl in Hrot. lia.
Qed.

Section WithHost.
Context `{Host}.

(** C3, as the code has it. When its toggle is on and the import graph is
    present, the cycle rule reports, of the cycles [detectCycles] returns,
    exactly those whose smallest file path, in the order of [sort], is the
    file of the context, each by one violation at line 1, column 1 of that
    file, with the full cycle in the message; for two files that import
    each other once each, the executions on the two files report one
    violation together, on the file that sorts first. *)
Theorem cycle_reported_on_smallest_file :
  sorts_by_total_order ->
  (forall context graph,
      truthy (noCircularLayerDeps (rules (architecture context))) = true ->
      importGraph context = Some graph ->
      violations (value (execute createCircularDependencyRule context))
      = map (fun cycle =>
               {| file := filePath context;
                  line := 1;
                  column := 1;
                  message :=
                    "Circular dependency detected: " +:+ Js.join arrow cycle
                    +:+ ". Break the cycle by extracting shared code to a common layer or using dependency inversion.";
                  rule := "no-circular-layer-deps" |})
          (List.filter
             (fun cycle =>
                bool_decide (filePath context ∈ cycle)
                && forallb (codeUnitLeb (filePath context)) cycle)
             (detectCycles graph))) /\
  (forall a b contextA contextB,
      a <> b ->
      filePath contextA = a -> filePath contextB = b ->
      importGraph contextA = Some (mutual_imports a b) ->
      importGraph contextB = Some (mutual_imports a b) ->
      truthy (noCircularLayerDeps (rules (architecture contextA))) = true ->
      truthy (noCircularLayerDeps (rules (architecture contextB))) = true ->
      violations (value (execute createCircularDependencyRule contextA))
      ++ violations (value (execute createCircularDependencyRule contextB))
      = [cycle_violation (if codeUnitLeb a b then a else b) [a; b; a]]).
Proof.
  intros order. pose proof order as (Htotal & Htrans & Hantisym). split.
  - intros context graph Hon Hgraph.
    by rewrite (circular_on_violations order context graph Hon Hgraph).
  - intros a b cA cB Hab HA HB HgA HgB HonA HonB.
    rewrite (circular_on_violations order cA _ HonA HgA).
    rewrite (circular_on_violations order cB _ HonB HgB).
    rewrite detectCycles_mutual by done. rewrite HA, HB.
    unfold value. cbn [fst violations List.filter].
    unfold smallest_in. cbn [forallb].
    rewrite !(leb_reflexive codeUnitLeb Htotal), !andb_true_r.
    rewrite !bool_decide_eq_true_2 by (set_solver).
    cbn [andb].
    destruct (codeUnitLeb a b) eqn:Eab; destruct (codeUnitLeb b a) eqn:Eba.
    + exfalso. apply Hab. by apply Hantisym.
    + reflexivity.
    + reflexivity.
    + destruct (Htotal a b); congruence.
Qed.

(** C4, as the code has it. With the toggle on, a run over N files scans
    the import graph N times: once in the execution of the cycle rule on
    each analyzed file. With the toggle off it does not scan it. *)
Theorem graph_scanned_once_per_file
    (fs : FileSystem) (architecture : ArchitectureConfig)
    (sourceFiles : list string) :
  scans (runChecks fs architecture sourceFiles)
  = if truthy (noCircularLayerDeps (rules architecture))
    then length sourceFiles else 0.
Proof.
  unfold runChecks. rewrite scans_bind. unfold runChecks_violations.
  rewrite scans_runChecks_loop.
  assert (forall vs : list Violation,
             scans (if Nat.ltb 0 (length vs)
                    then ret {| check_passed := false;
                                violationCount := length vs |}
                    else ret {| check_passed := true; violationCount := 0 |})
             = 0) as Hret by (intros vs; by destruct (Nat.ltb 0 (length vs))).
  rewrite Hret. lia.
Qed.

End WithHost.
End CycleClaims.

(** ** The claim about the boundary rule *)

Module BoundaryClaims.
Import JsValue Counted Ast Core Host Parser Rules Spec Cli Js JsFacts.
Import ExampleHost Examples.

(** The example of the specification: a [ui] file that imports
    [../domain/user] gets one violation, at the import statement, that names
    [ui] and [domain] and lists the allowed layers. *)
Example boundary_violation_for_ui_importing_domain :
  violations
    (value (execute createLayerImportBoundaryRule
              (context_of architecture_on None foo_path foo_source)))
  = [ {| file := "/proj/src/ui/Foo.tsx";
         line := 1;
         column := 1;
         message := "Layer 'ui' cannot import from 'domain'. Import from allowed layers only: features, shared. Move the imported code to an allowed layer or restructure dependencies.";
         rule := "layer-import-boundary" |} ].
Proof. vm_compute. reflexivity. Qed.

(** C5, at the input where the code departs from it: a [ui] file whose
    lines 1 and 2 both import [../domain/user]. Both imports are reported,
    and both violations are placed at line 2: [findImportNode] keeps the
    last import declaration of the specifier, not the one being checked. *)
Theorem boundary_violations_of_repeated_import_share_location :
  let context := context_of architecture_on None foo_path twice_source in
  map from (imports context) = ["../domain/user"; "../domain/user"] /\
  map (fun n => getLineAndCharacterOfPosition (ast context) (getStart n))
      (children (ast context)) = [(0, 0); (1, 0)] /\
  map (fun v => (line v, column v))
      (violations (value (execute createLayerImportBoundaryRule context)))
  = [(2, 1); (2, 1)].
Proof. vm_compute. repeat split; reflexivity. Qed.

End BoundaryClaims.

(** ** The theorems at concrete inputs *)

Module Witnesses.
Import JsValue Counted Ast Core Host Parser Rules Spec Config Cli Js.
Import ExampleHost Examples.
Import Graph ClassifierClaims ResolverClaims ToggleClaims CycleClaims.

(** The runtime of the examples keeps to what the language guarantees. *)
Lemma example_sorts_by_total_order : @sorts_by_total_order example_host.
Proof.
  split; [|split].
  - apply String.leb_total.
  - apply JsFacts.leb_trans.
  - apply String.leb_antisym.
Qed.



Lemma detectLayerFromPath_first_segment_match_witness :
  detectLayerFromPath "C:\proj\ui\domain\Foo.tsx" example_layers
  = Some "domain"
  /\ occurs_as_segment "domain" "C:/proj/ui/domain/Foo.tsx"
  /\ execute createLayerImportBoundaryRule
       (context_of architecture_on None
          "/proj/src/lib/util.ts" foo_source)
     = ret empty_result.
Proof.
  pose proof (detectLayerFromPath_first_segment_match
                (H := example_host)
                "C:\proj\ui\domain\Foo.tsx" example_layers)
    as [_ Hlayered].
  pose proof (detectLayerFromPath_first_segment_match
                (H := example_host)
                "/proj/src/lib/util.ts" example_layers)
    as [_ Hunlayered].
  change (detectLayerFromPath "C:\proj\ui\domain\Foo.tsx" example_layers)
    with (Some "domain") in Hlayered.
  change (detectLayerFromPath "/proj/src/lib/util.ts" example_layers)
    with (@None string) in Hunlayered.
  destruct Hlayered as (earlier & later & _ & Hoccurs & _).
  destruct Hunlayered as [_ Hpass].
  split; [reflexivity|]. split; [exact Hoccurs|].
  apply Hpass; reflexivity.
Defined.


Lemma disabled_rule_passes_empty_witness :
  let context := context_of architecture_off
                   (Some (mutual_imports "/proj/a.ts" "/proj/b.ts"))
                   foo_path foo_source in
  passes_empty (value (execute createLayerImportBoundaryRule context))
  /\ passes_empty (value (execute createBusinessLogicInComponentsRule context))
  /\ passes_empty (value (execute createDataFetchingInUIRule context))
  /\ passes_empty (value (execute createCircularDependencyRule context)).
Proof.
  intros context.
  destruct (disabled_rule_passes_empty context) as (H1 & H2 & H3 & H4).
  split; [apply H1; reflexivity|].
  split; [apply H2; reflexivity|].
  split; [apply H3; reflexivity|].
  apply H4; reflexivity.
Defined.

Lemma absent_toggle_defaults_to_false_witness :
  (exists architecture,
      validateArchitectureConfig layers_only_document = Returns architecture
      /\ rules architecture = all_off)
  /\ (exists architecture,
        validateArchitectureConfig one_toggle_document = Returns architecture
        /\ enforceFeatureBoundaries (rules architecture) = JBool false
        /\ forall context, Core.architecture context = architecture ->
             passes_empty (value (execute createLayerImportBoundaryRule context))).
Proof.
  split.
  - eexists. split; [reflexivity|].
    destruct (absent_toggle_defaults_to_false layers_only_document _ eq_refl)
      as (H1 & H2 & H3 & H4).
    destruct (H1 (or_introl eq_refl)) as [E1 _].
    destruct (H2 (or_introl eq_refl)) as [E2 _].
    destruct (H3 (or_introl eq_refl)) as [E3 _].
    destruct (H4 (or_introl eq_refl)) as [E4 _].
    reflexivity.
  - eexists. split; [reflexivity|].
    destruct (absent_toggle_defaults_to_false one_toggle_document _ eq_refl)
      as (_ & _ & H3 & _).
    exact (H3 (or_intror eq_refl)).
Defined.

Lemma detectCycles_returns_simple_cycles_witness :
  detectCycles_fuel two_cycles_graph 7 = Some [["a"; "b"; "c"; "a"]]
  /\ simple_cycle two_cycles_graph ["a"; "b"; "c"; "a"]
  /\ detectCycles two_cycles_graph <> []
  /\ ["x"; "x"] ∈ detectCycles [("x", ["x"])]
  /\ (exists u w, on_walk ["a"; "c"; "a"] u w
                  /\ closes (detectCycles two_cycles_graph) u w).
Proof.
  destruct (detectCycles_returns_simple_cycles two_cycles_graph)
    as (Hfuel & Hsound & Hdetects & _ & Hcloses).
  destruct (detectCycles_returns_simple_cycles [("x", ["x"])])
    as (_ & _ & _ & Hself & _).
  assert (closed_walk two_cycles_graph ["a"; "c"; "a"]) as Hwalk.
  { exists "a", ["c"]. split; [reflexivity|].
    simpl. split; [|split; [|split; [discriminate|exact I]]].
    - intros w Hw. injection Hw as <-. unfold edge. vm_compute. right. left.
    - intros w Hw. injection Hw as <-. unfold edge. vm_compute. left. }
  split; [|split; [|split; [|split]]].
  - rewrite (Hfuel 7); [reflexivity|]. simpl. lia.
  - apply Hsound. vm_compute. left.
  - apply Hdetects. by exists ["a"; "c"; "a"].
  - apply Hself. unfold edge. vm_compute. left.
  - by apply Hcloses.
Defined.

(** The run on the two files that import each other: the graph that is
    built, and the one violation that is collected. *)
Example mutual_project_graph :
  buildImportGraph (table_fs mutual_project) (map fst mutual_project)
  = mutual_imports "/proj/a.ts" "/proj/b.ts".
Proof. vm_compute. reflexivity. Qed.

Example mutual_project_violations :
  value (runChecks_violations (table_fs mutual_project) architecture_on
           (map fst mutual_project))
  = [cycle_violation "/proj/a.ts" ["/proj/a.ts"; "/proj/b.ts"; "/proj/a.ts"]].
Proof. vm_compute. reflexivity. Qed.

Lemma cycle_reported_on_smallest_file_witness :
  let graph := mutual_imports "/proj/b.ts" "/proj/a.ts" in
  let contextB :=
    context_of architecture_on (Some graph) "/proj/b.ts" "import { a } from './a'" in
  let contextA :=
    context_of architecture_on (Some graph) "/proj/a.ts" "import { b } from './b'" in
  violations (value (execute createCircularDependencyRule contextB)) = []
  /\ violations (value (execute createCircularDependencyRule contextB))
     ++ violations (value (execute createCircularDependencyRule contextA))
     = [cycle_violation "/proj/a.ts" ["/proj/b.ts"; "/proj/a.ts"; "/proj/b.ts"]].
Proof.
  intros graph contextB contextA.
  destruct (@cycle_reported_on_smallest_file example_host
              example_sorts_by_total_order) as [Heach Hpair].
  split.
  - rewrite (Heach contextB graph); reflexivity.
  - apply (Hpair "/proj/b.ts" "/proj/a.ts" contextB contextA);
      try reflexivity. discriminate.
Defined.

(** C3, as the specification has it, fails in its last part: when the
    second of two files that import each other does so by two import
    statements, the cycle is returned twice and the run reports two
    violations on the first file. *)
Lemma mutual_imports_reported_twice :
  buildImportGraph (table_fs twice_mutual_project) (map fst twice_mutual_project)
  = [("/proj/a.ts", ["/proj/b.ts"]); ("/proj/b.ts", ["/proj/a.ts"; "/proj/a.ts"])]
  /\ value (runChecks_violations (table_fs twice_mutual_project) architecture_on
              (map fst twice_mutual_project))
     = [cycle_violation "/proj/a.ts" ["/proj/a.ts"; "/proj/b.ts"; "/proj/a.ts"];
        cycle_violation "/proj/a.ts" ["/proj/a.ts"; "/proj/b.ts"; "/proj/a.ts"]]
  /\ length (value (runChecks_violations (table_fs twice_mutual_project)
                      architecture_on (map fst twice_mutual_project))) <> 1.
Proof.
  split; [vm_compute; reflexivity|]. split; [vm_compute; reflexivity|].
  vm_compute. discriminate.
Qed.

(** C4, as the specification has it, fails: the run over the two files that
    import each other scans the import graph twice, not once. *)
Lemma graph_scanned_twice_for_two_files :
  truthy (noCircularLayerDeps (rules architecture_on)) = true
  /\ scans (runChecks (table_fs mutual_project) architecture_on
              (map fst mutual_project)) = 2
  /\ scans (runChecks (table_fs mutual_project) architecture_on
              (map fst mutual_project)) <> 1.
Proof.
  split; [reflexivity|]. split; [vm_compute; reflexivity|].
  vm_compute. discriminate.
Qed.

(** The other examples of the specification. *)

(** The declaration of [UserList] is a component. *)
Example declaration_of_UserList_is_component :
  isComponentFunction (mkNode (FunctionDeclaration (Some "UserList")) 0 [])
  = true.
Proof. reflexivity. Qed.

(** An import the layer allows is silent. *)
Example allowed_import_is_silent :
  execute createLayerImportBoundaryRule
    (context_of architecture_on None foo_path
       "import { useUser } from '../features/user'")
  = ret empty_result.
Proof. vm_compute. reflexivity. Qed.

(** A chain of imports with no edge back has no cycle. *)
Example chain_has_no_cycle :
  detectCycles [("a", ["b"]); ("b", ["c"]); ("c", [])] = [].
Proof. vm_compute. reflexivity. Qed.

(** A cycle that is entered twice is returned twice: the second import of
    [a] by [b] closes the same cycle again. *)
Example repeated_import_repeats_cycle :
  detectCycles [("a", ["b"]); ("b", ["a"; "a"])]
  = [["a"; "b"; "a"]; ["a"; "b"; "a"]].
Proof. vm_compute. reflexivity. Qed.

End Witnesses.

(** ** Facts about the traversals of a syntax tree *)

Module TreeFacts.
Import JsValue Counted Ast Core Host Parser Rules Spec Tree Js JsFacts.
Import RuleFacts BoundaryFacts.

Lemma visit_children_preorder {S : Type} (handle : Node -> S -> S) cs s :
  Forall (fun c => forall s0,
            visit_all handle c s0
            = fold_left (fun acc m => handle m acc) (preorder c) s0) cs ->
  fold_left (fun acc c => visit_all handle c acc) cs s
  = fold_left (fun acc m => handle m acc) (concat (map preorder cs)) s.
Proof.
  intros Hall. revert s. induction Hall as [|c cs Hc _ IH]; intros s; simpl;
    [done|]. by rewrite fold_left_app, <- Hc, IH.
Qed.

(** A recursive [visit] handles the nodes in preorder. *)
Lemma visit_all_preorder {S : Type} (handle : Node -> S -> S) n s :
  visit_all handle n s = fold_left (fun acc m => handle m acc) (preorder n) s.
Proof.
  revert s. induction n as [k st cs IH] using Node_tree_ind. intros s.
  simpl. by rewrite visit_children_preorder.
Qed.

Lemma preorder_root n : n ∈ preorder n.
Proof. destruct n. simpl. left. Qed.

Lemma preorder_child k st cs c m :
  c ∈ cs -> m ∈ preorder c -> m ∈ preorder (mkNode k st cs).
Proof.
  intros Hc Hm. simpl. right. apply list_elem_of_In, in_concat.
  exists (preorder c). split; [|by apply list_elem_of_In].
  apply in_map. by apply list_elem_of_In.
Qed.

(** The nodes of a subtree are nodes of the tree. *)
Lemma preorder_trans n m l :
  m ∈ preorder n -> l ∈ preorder m -> l ∈ preorder n.
Proof.
  induction n as [k st cs IH] using Node_tree_ind. intros Hm Hl.
  simpl in Hm. apply elem_of_cons in Hm as [->|Hm]; [done|].
  apply list_elem_of_In, in_concat in Hm as (ls & Hls & Hm).
  apply in_map_iff in Hls as (c & <- & Hc).
  apply (preorder_child k st cs c); [by apply list_elem_of_In|].
  rewrite Forall_forall in IH. apply (IH c); [by apply list_elem_of_In| |done].
  by apply list_elem_of_In.
Qed.

(** *** [extractImports] *)

Lemma extractImports_handle_from n acc :
  map from (extractImports_handle n acc)
  = map from acc ++ match moduleSpecifierText n with
                    | Some text => [text]
                    | None => []
                    end.
Proof.
  destruct n as [k st cs]. unfold extractImports_handle, moduleSpecifierText.
  simpl. destruct k as [| [text|] clause | | | | | | | | | | |];
    try (by rewrite app_nil_r).
  by rewrite map_app.
Qed.

Lemma extractImports_fold_from ns acc :
  map from (fold_left (fun a m => extractImports_handle m a) ns acc)
  = map from acc ++ omap moduleSpecifierText ns.
Proof.
  revert acc. induction ns as [|n ns IH]; intros acc; simpl.
  - by rewrite app_nil_r.
  - rewrite IH, extractImports_handle_from, <- app_assoc. f_equal.
    by destruct (moduleSpecifierText n).
Qed.

Lemma extractImports_from sourceFile :
  map from (extractImports sourceFile)
  = omap moduleSpecifierText (preorder sourceFile).
Proof.
  unfold extractImports. by rewrite visit_all_preorder, extractImports_fold_from.
Qed.

(** *** [findImportNode] *)

Lemma findImportNode_fold_found p cs found m :
  Forall (fun c => forall f x,
            findImportNode_visit p c f = Some x ->
            f = Some x \/ (x ∈ preorder c /\ moduleSpecifierText x = Some p)) cs ->
  fold_left (fun acc c => findImportNode_visit p c acc) cs found = Some m ->
  found = Some m \/
  exists c, c ∈ cs /\ m ∈ preorder c /\ moduleSpecifierText m = Some p.
Proof.
  intros Hall. revert found. induction Hall as [|c cs Hc _ IH]; intros found;
    simpl; [by left|].
  intros Hm. destruct (IH _ Hm) as [Hv|(c' & Hc' & Hin & Hs)].
  - destruct (Hc _ _ Hv) as [Hf|[Hin Hs]]; [by left|].
    right. exists c. split; [left|done].
  - right. exists c'. split; [by right|done].
Qed.

Lemma findImportNode_visit_found p n :
  forall found m,
    findImportNode_visit p n found = Some m ->
    found = Some m \/ (m ∈ preorder n /\ moduleSpecifierText m = Some p).
Proof.
  induction n as [k st cs IH] using Node_tree_ind. intros found m Hm.
  assert (fold_left (fun acc c => findImportNode_visit p c acc) cs found = Some m ->
          found = Some m \/
          (m ∈ preorder (mkNode k st cs) /\ moduleSpecifierText m = Some p))
    as Hdescend.
  { intros Hd. destruct (findImportNode_fold_found p cs found m IH Hd)
      as [Hf|(c & Hc & Hin & Hs)]; [by left|].
    right. split; [by apply (preorder_child k st cs c)|done]. }
  simpl in Hm.
  destruct k as [| [text|] clause | | | | | | | | | | |]; try by apply Hdescend.
  destruct (String.eqb_spec text p) as [->|Hne]; [|by apply Hdescend].
  injection Hm as <-. right. split; [left|done].
Qed.

End TreeFacts.

(** ** Facts about the heuristic rules and the engine *)

Module HeuristicFacts.
Import JsValue Counted Ast Core Host Parser Rules Spec Tree Reports Js JsFacts.
Import RuleFacts BoundaryFacts TreeFacts RunFacts.

Section WithHost.
Context `{Host}.

(** *** [isReactComponentFile] *)

Lemma isComponentFunction_is_declaration n :
  isComponentFunction n = true -> isFunctionDeclaration n = true.
Proof.
  intros Hc. destruct (isFunctionDeclaration n) eqn:E; [done|].
  by rewrite isComponentFunction_not_declaration in Hc.
Qed.

Lemma isReactComponentFile_handle_flags n r c :
  isReactComponentFile_handle n (r, c)
  = (r || imports_react n, c || isComponentFunction n).
Proof.
  unfold isReactComponentFile_handle, imports_react, moduleSpecifierText.
  f_equal.
  - destruct (kind n) as [| [text|] clause | | | | | | | | | | |];
      rewrite ?orb_false_r; try done.
    destruct (String.eqb text "react"); [by rewrite orb_true_r|by rewrite orb_false_r].
  - destruct (isComponentFunction n) eqn:Ec.
    + rewrite (isComponentFunction_is_declaration n Ec). simpl.
      by rewrite orb_true_r.
    + rewrite orb_false_r. by destruct (_ || _).
Qed.

Lemma isReactComponentFile_fold ns r c :
  fold_left (fun acc m => isReactComponentFile_handle m acc) ns (r, c)
  = (r || existsb imports_react ns, c || existsb isComponentFunction ns).
Proof.
  revert r c. induction ns as [|n ns IH]; intros r c; cbn [fold_left existsb].
  - by rewrite !orb_false_r.
  - by rewrite isReactComponentFile_handle_flags, IH, !orb_assoc.
Qed.

Lemma isReactComponentFile_preorder sourceFile :
  isReactComponentFile sourceFile
  = existsb imports_react (preorder sourceFile)
    && existsb isComponentFunction (preorder sourceFile).
Proof.
  unfold isReactComponentFile.
  by rewrite visit_all_preorder, isReactComponentFile_fold.
Qed.

Lemma violation_at_fields sourceFile pos path msg r :
  file (violation_at sourceFile pos path msg r) = path /\
  message (violation_at sourceFile pos path msg r) = msg /\
  rule (violation_at sourceFile pos path msg r) = r.
Proof.
  unfold violation_at. by destruct (getLineAndCharacterOfPosition sourceFile pos).
Qed.

(** *** [checkForBusinessLogic] *)

Lemma checkForBusinessLogic_handle_flags sourceFile path n vs :
  checkForBusinessLogic_handle sourceFile path n vs
  = vs ++ node_flags sourceFile path n.
Proof.
  unfold checkForBusinessLogic_handle, node_flags, isLoop,
    loop_violation, conditional_violation.
  destruct (isForStatement n || isForInStatement n || isForOfStatement n);
    destruct (isIfStatement n && negb (isSimpleConditional n));
    by rewrite <- ?app_assoc, ?app_nil_r.
Qed.

Lemma checkForBusinessLogic_fold sourceFile path ns vs :
  fold_left (fun acc m => checkForBusinessLogic_handle sourceFile path m acc) ns vs
  = vs ++ concat (map (node_flags sourceFile path) ns).
Proof.
  revert vs. induction ns as [|n ns IH]; intros vs; simpl.
  - by rewrite app_nil_r.
  - by rewrite IH, checkForBusinessLogic_handle_flags, <- app_assoc.
Qed.

Lemma checkForBusinessLogic_preorder node sourceFile vs path :
  checkForBusinessLogic node sourceFile vs path
  = vs ++ concat (map (node_flags sourceFile path) (preorder node)).
Proof.
  unfold checkForBusinessLogic.
  by rewrite visit_all_preorder, checkForBusinessLogic_fold.
Qed.

Lemma businessLogic_fold sourceFile path ns vs :
  fold_left (fun acc m => businessLogic_handle sourceFile path m acc) ns vs
  = vs ++ concat (map (fun f =>
                         if isComponentFunction f
                         then concat (map (node_flags sourceFile path) (preorder f))
                         else []) ns).
Proof.
  revert vs. induction ns as [|n ns IH]; intros vs; cbn [fold_left map concat].
  - by rewrite app_nil_r.
  - rewrite IH. unfold businessLogic_handle.
    destruct (isComponentFunction n).
    + by rewrite checkForBusinessLogic_preorder, <- app_assoc.
    + done.
Qed.

(** The violations of the business-logic rule when it runs to the end. *)
Lemma businessLogic_violations context :
  truthy (noBusinessLogicInComponents (rules (architecture context))) = true ->
  isReactComponentFile
    (parseTypeScript (sourceCode context) (filePath context)) = true ->
  violations (value (execute createBusinessLogicInComponentsRule context))
  = let sourceFile := parseTypeScript (sourceCode context) (filePath context) in
    concat (map (fun f =>
                   if isComponentFunction f
                   then concat (map (node_flags sourceFile (filePath context))
                                  (preorder f))
                   else []) (preorder sourceFile)).
Proof.
  intros Hon Hfile. simpl. unfold businessLogic_execute. rewrite Hon, Hfile.
  simpl. by rewrite visit_all_preorder, businessLogic_fold.
Qed.

(** *** The data-fetching rule *)

Lemma dataFetching_inner_fold sourceFile path indexes vs :
  fold_left
    (fun violations index =>
       violations ++
       [violation_at sourceFile index path dataFetching_message
          "no-data-fetching-in-ui"]) indexes vs
  = vs ++ map (fetch_violation sourceFile path) indexes.
Proof.
  revert vs. induction indexes as [|i indexes IH]; intros vs; simpl.
  - by rewrite app_nil_r.
  - by rewrite IH, <- app_assoc.
Qed.

Lemma dataFetching_outer_fold sourceFile context patterns vs :
  fold_left
    (fun violations pattern =>
       fold_left
         (fun violations index =>
            violations ++
            [violation_at sourceFile index (filePath context)
               dataFetching_message "no-data-fetching-in-ui"])
         (matchAll pattern (sourceCode context)) violations)
    patterns vs
  = vs ++ concat (map (fun pattern =>
                         map (fetch_violation sourceFile (filePath context))
                           (matchAll pattern (sourceCode context))) patterns).
Proof.
  revert vs. induction patterns as [|p patterns IH]; intros vs; simpl.
  - by rewrite app_nil_r.
  - by rewrite IH, dataFetching_inner_fold, <- app_assoc.
Qed.

Lemma dataFetching_violations_by_pattern sourceFile context :
  dataFetching_violations sourceFile context
  = concat (map (fun pattern =>
                   map (fetch_violation sourceFile (filePath context))
                     (matchAll pattern (sourceCode context)))
              forbiddenPatterns).
Proof. unfold dataFetching_violations. by rewrite dataFetching_outer_fold. Qed.

(** *** The engine *)

Lemma value_executeRules_loop todo context acc :
  value (executeRules_loop todo context acc)
  = acc ++ concat (map (fun r => violations (value (execute r context))) todo).
Proof.
  revert acc. induction todo as [|r todo IH]; intros acc; simpl.
  - by rewrite app_nil_r.
  - by rewrite value_bind, IH, <- app_assoc.
Qed.

Lemma violations_executeRules engine context :
  violations (value (executeRules engine context))
  = concat (map (fun r => violations (value (execute r context)))
              (engine_rules engine)).
Proof.
  unfold executeRules. rewrite value_bind. simpl.
  by rewrite value_executeRules_loop.
Qed.

Lemma passed_executeRules engine context :
  passed (value (executeRules engine context))
  = Nat.eqb (length (violations (value (executeRules engine context)))) 0.
Proof. unfold executeRules. by rewrite value_bind. Qed.

End WithHost.
End HeuristicFacts.

(** ** Facts about the import graph builder and the run *)

Module BuildFacts.
Import JsValue Counted Ast Core Host Parser Rules Spec Cli Run Tree Reports.
Import Js JsFacts Graph GraphFacts RuleFacts BoundaryFacts TreeFacts RunFacts.
Import HeuristicFacts.

(** *** [graph[filePath] = relativeImports] *)

Lemma get_graph_set_eq graph f v : get (graph_set graph f v) f = Some v.
Proof.
  induction graph as [|[k w] graph IH]; simpl.
  - by rewrite String.eqb_refl.
  - destruct (String.eqb k f) eqn:E; simpl; by rewrite E.
Qed.

Lemma get_graph_set_ne graph f g v :
  f <> g -> get (graph_set graph f v) g = get graph g.
Proof.
  intros Hne. induction graph as [|[k w] graph IH]; simpl.
  - apply String.eqb_neq in Hne. by rewrite Hne.
  - destruct (String.eqb_spec k f) as [->|Hk]; simpl.
    + apply String.eqb_neq in Hne. by rewrite Hne.
    + by rewrite IH.
Qed.

Lemma keys_graph_set_old graph f v :
  f ∈ keys graph -> keys (graph_set graph f v) = keys graph.
Proof.
  unfold keys. induction graph as [|[k w] graph IH]; simpl; intros Hin.
  - inversion Hin.
  - destruct (String.eqb_spec k f) as [->|Hk]; simpl; [done|].
    apply elem_of_cons in Hin as [->|Hin]; [done|]. by rewrite IH.
Qed.

Lemma keys_graph_set_new graph f v :
  f ∉ keys graph -> keys (graph_set graph f v) = keys graph ++ [f].
Proof.
  unfold keys. induction graph as [|[k w] graph IH]; simpl; intros Hnin; [done|].
  destruct (String.eqb_spec k f) as [->|Hk]; simpl.
  - exfalso. apply Hnin. left.
  - rewrite IH; [done|]. intros Hin. apply Hnin. by right.
Qed.

Section WithHost.
Context `{Host}.

Lemma buildImportGraph_fold fs sourceFiles :
  buildImportGraph fs sourceFiles
  = fold_left (fun graph f =>
                 graph_set graph f (relativeImports_of fs sourceFiles f))
      sourceFiles [].
Proof. reflexivity. Qed.

Lemma build_fold_get (R : string -> list string) l graph f :
  get (fold_left (fun g x => graph_set g x (R x)) l graph) f
  = if decide (f ∈ l) then Some (R f) else get graph f.
Proof.
  revert graph. induction l as [|x l IH]; intros graph; cbn [fold_left].
  - destruct (decide (f ∈ [])) as [Hin|_]; [inversion Hin|done].
  - rewrite IH. destruct (decide (f ∈ l)) as [Hl|Hl].
    + destruct (decide (f ∈ x :: l)) as [_|Hn]; [done|].
      exfalso. apply Hn. by right.
    + destruct (decide (f = x)) as [->|Hne].
      * destruct (decide (x ∈ x :: l)) as [_|Hn]; [apply get_graph_set_eq|].
        exfalso. apply Hn. left.
      * destruct (decide (f ∈ x :: l)) as [Hin|_].
        -- apply elem_of_cons in Hin as [?|?]; done.
        -- by apply get_graph_set_ne.
Qed.

Lemma build_fold_keys_elem (R : string -> list string) l graph f :
  f ∈ keys (fold_left (fun g x => graph_set g x (R x)) l graph)
  <-> f ∈ keys graph \/ f ∈ l.
Proof.
  revert graph. induction l as [|x l IH]; intros graph; simpl.
  - split; [by left|]. intros [Hk|Hl]; [done|inversion Hl].
  - rewrite IH, elem_of_cons.
    destruct (decide (x ∈ keys graph)) as [Hx|Hx].
    + rewrite keys_graph_set_old by done. split; [tauto|].
      intros [Hk|[->|Hl]]; tauto.
    + rewrite keys_graph_set_new by done. rewrite elem_of_app, list_elem_of_singleton.
      tauto.
Qed.

Lemma build_fold_keys_fresh (R : string -> list string) l graph :
  NoDup (keys graph ++ l) ->
  keys (fold_left (fun g x => graph_set g x (R x)) l graph) = keys graph ++ l.
Proof.
  revert graph. induction l as [|x l IH]; intros graph Hnd; simpl.
  - by rewrite app_nil_r.
  - assert (x ∉ keys graph) as Hx.
    { apply NoDup_app in Hnd as (_ & Hdisj & _). intros Hin.
      apply (Hdisj x Hin). left. }
    rewrite IH; rewrite keys_graph_set_new by done.
    + by rewrite <- app_assoc.
    + by rewrite <- app_assoc.
Qed.

(** *** The imports that become edges *)

Lemma relativeImports_step_elem fs sourceFiles filePath acc imp x :
  x ∈ relativeImports_step fs sourceFiles filePath acc imp ->
  x ∈ acc \/
  (x ∈ sourceFiles /\ isRelativeImport (from imp) = true /\
   resolveImportPath fs (from imp) filePath = Some x).
Proof.
  unfold relativeImports_step, isRelativeImport.
  destruct (_ || _); [|by left].
  destruct (resolveImportPath fs (from imp) filePath) as [p|]; [|by left].
  destruct (negb (String.eqb p "") && bool_decide (p ∈ sourceFiles)) eqn:E;
    [|by left].
  apply andb_true_iff in E as [_ Hin]. apply bool_decide_eq_true in Hin.
  intros Hx. apply elem_of_app in Hx as [Hx|Hx]; [by left|].
  apply list_elem_of_singleton in Hx as ->. by right.
Qed.

Lemma relativeImports_fold_elem fs sourceFiles filePath imps acc x :
  x ∈ fold_left (relativeImports_step fs sourceFiles filePath) imps acc ->
  x ∈ acc \/
  exists imp, imp ∈ imps /\ x ∈ sourceFiles /\
              isRelativeImport (from imp) = true /\
              resolveImportPath fs (from imp) filePath = Some x.
Proof.
  revert acc. induction imps as [|imp imps IH]; intros acc; simpl; [by left|].
  intros Hx. destruct (IH _ Hx) as [Hacc|(imp' & Hin & Hrest)].
  - apply relativeImports_step_elem in Hacc as [Hacc|Hnew]; [by left|].
    right. exists imp. split; [left|done].
  - right. exists imp'. split; [by right|done].
Qed.

(** *** [resolveImportPath] *)

Lemma first_existing_Some fs cs p :
  first_existing fs cs = Some p -> p ∈ cs /\ existsSync fs p = true.
Proof.
  induction cs as [|c cs IH]; simpl; [done|].
  destruct (existsSync fs c) eqn:E.
  - intros [= <-]. split; [left|done].
  - intros Hp. destruct (IH Hp). split; [by right|done].
Qed.

Lemma first_existing_None fs cs :
  first_existing fs cs = None <-> forall c, c ∈ cs -> existsSync fs c = false.
Proof.
  induction cs as [|c cs IH]; simpl.
  - split; [|done]. intros _ c Hc. inversion Hc.
  - destruct (existsSync fs c) eqn:E.
    + split; [done|]. intros Hall. specialize (Hall c ltac:(left)). congruence.
    + rewrite IH. split.
      * intros Hall x Hx. apply elem_of_cons in Hx as [->|Hx]; [done|by apply Hall].
      * intros Hall x Hx. apply Hall. by right.
Qed.

(** *** The loop of [runChecks] *)

Lemma value_runChecks_loop fs architecture graph engine todo acc :
  value (runChecks_loop fs architecture graph engine todo acc)
  = acc ++ concat (map (fun f =>
                          violations
                            (value (executeRules engine
                                      (run_context fs architecture graph f))))
                     todo).
Proof.
  revert acc. induction todo as [|f todo IH]; intros acc; cbn [runChecks_loop].
  - simpl. by rewrite app_nil_r.
  - rewrite value_bind, IH. simpl. by rewrite <- app_assoc.
Qed.

Lemma engine_rules_check_engine :
  engine_rules check_engine
  = [ createLayerImportBoundaryRule; createBusinessLogicInComponentsRule;
      createDataFetchingInUIRule; createCircularDependencyRule ].
Proof. reflexivity. Qed.

End WithHost.
End BuildFacts.

(** ** Facts about the walker, the configuration and the rules document *)

Module MiscFacts.
Import JsValue Counted Ast Core Host Config ConfigSpec ConfigSearch Cursor Walker.
Import Js JsFacts.


(** *** The walker *)

Lemma endsWith_app s suffix :
  endsWith s suffix = true <-> exists before, s = before +:+ suffix.
Proof.
  induction s as [|c s IH]; cbn [endsWith].
  - rewrite orb_false_r, String.eqb_eq. split.
    + intros <-. by exists "".
    + intros [before Hb]. destruct before; [done|discriminate].
  - rewrite orb_true_iff, IH, String.eqb_eq. split.
    + intros [<-|[before ->]]; [by exists ""|]. by exists (String c before).
    + intros [before Hb]. destruct before as [|d before].
      * left. done.
      * right. exists before. rewrite append_cons in Hb. congruence.
Qed.

Lemma Dirent_tree_ind (P : Dirent -> Prop) :
  (forall name, P (FileEntry name)) ->
  (forall name entries, Forall P entries -> P (DirEntry name entries)) ->
  (forall name, P (OtherEntry name)) ->
  forall e, P e.
Proof.
  intros Hfile Hdir Hother. fix IH 1. intros [name|name entries|name].
  - apply Hfile.
  - apply Hdir. induction entries as [|e entries IHes]; constructor;
      [apply IH|exact IHes].
  - apply Hother.
Qed.

Lemma fold_left_appending {A B : Type} (f : list A -> B -> list A) (l : list B) :
  Forall (fun x => forall acc, f acc x = acc ++ f [] x) l ->
  forall acc, fold_left f l acc = acc ++ concat (map (f []) l).
Proof.
  induction 1 as [|x l Hx _ IH]; intros acc; simpl.
  - by rewrite app_nil_r.
  - by rewrite IH, Hx, <- app_assoc.
Qed.

Section WithJoin.
Variable path_join : string -> string -> string.

Local Abbreviation walk_entry := (Walker.walk_entry path_join).
Local Abbreviation walk := (Walker.walk path_join).
Local Abbreviation descend := (Walker.descend path_join).

(** What an entry adds does not depend on what was found before it. *)
Lemma walk_entry_appends e :
  forall currentDir files,
    walk_entry currentDir e files = files ++ walk_entry currentDir e [].
Proof.
  induction e as [name|name entries IH|name] using Dirent_tree_ind;
    intros currentDir files; simpl.
  - destruct (_ || _); [done|by rewrite app_nil_r].
  - destruct (negb _); [|by rewrite app_nil_r].
    assert (Forall (fun x => forall acc,
                      walk_entry (path_join currentDir name) x acc
                      = acc ++ walk_entry (path_join currentDir name) x [])
              entries) as Hall.
    { eapply Forall_impl; [exact IH|]. intros e He acc. apply He. }
    rewrite (fold_left_appending
               (fun files e => walk_entry (path_join currentDir name) e files)
               entries Hall files).
    by rewrite (fold_left_appending
                  (fun files e => walk_entry (path_join currentDir name) e files)
                  entries Hall []).
  - by rewrite app_nil_r.
Qed.

Lemma walk_concat currentDir entries files :
  walk currentDir entries files
  = files ++ concat (map (fun e => walk_entry currentDir e []) entries).
Proof.
  unfold Walker.walk.
  apply (fold_left_appending (fun files e => walk_entry currentDir e files)).
  apply Forall_forall. intros e _ acc. apply walk_entry_appends.
Qed.

Lemma walk_elem currentDir entries p :
  p ∈ walk currentDir entries []
  <-> exists e, e ∈ entries /\ p ∈ walk_entry currentDir e [].
Proof.
  rewrite walk_concat. simpl. rewrite list_elem_of_In, in_concat. split.
  - intros (l & Hl & Hp). apply in_map_iff in Hl as (e & <- & He).
    exists e. by rewrite !list_elem_of_In.
  - intros (e & He & Hp). exists (walk_entry currentDir e []).
    split; [|by apply list_elem_of_In].
    apply in_map_iff. exists e. split; [done|by apply list_elem_of_In].
Qed.

Lemma walk_entry_dir currentDir name entries :
  walk_entry currentDir (DirEntry name entries) []
  = if negb (bool_decide (name ∈ ignoreDirs))
    then walk (path_join currentDir name) entries []
    else [].
Proof. reflexivity. Qed.

Lemma located_mono es1 es2 dirs name :
  (forall e, e ∈ es1 -> e ∈ es2) ->
  located es1 dirs name -> located es2 dirs name.
Proof.
  intros Hsub. destruct dirs as [|d ds]; simpl.
  - apply Hsub.
  - intros (sub & Hin & Hl). exists sub. split; [by apply Hsub|done].
Qed.

Lemma walk_entry_sound e :
  forall currentDir p,
    p ∈ walk_entry currentDir e [] ->
    exists dirs name,
      located [e] dirs name /\
      Forall (fun d => d ∉ ignoreDirs) dirs /\
      (endsWith name ".ts" = true \/ endsWith name ".tsx" = true) /\
      p = path_join (descend currentDir dirs) name.
Proof.
  induction e as [name|name entries IH|name] using Dirent_tree_ind;
    intros currentDir p Hp.
  - simpl in Hp. destruct (endsWith name ".ts" || endsWith name ".tsx") eqn:E;
      [|inversion Hp].
    apply list_elem_of_singleton in Hp as ->.
    exists [], name. simpl. split; [left|]. split; [constructor|].
    split; [by apply orb_true_iff|done].
  - rewrite walk_entry_dir in Hp.
    destruct (bool_decide (name ∈ ignoreDirs)) eqn:E; [inversion Hp|].
    apply bool_decide_eq_false in E. simpl in Hp.
    apply walk_elem in Hp as (e & He & Hp).
    rewrite Forall_forall in IH.
    destruct (IH e He _ _ Hp)
      as (dirs & file & Hloc & Hok & Hts & ->).
    exists (name :: dirs), file. split; [|split; [|split]]; try done.
    + simpl. exists entries. split; [left|].
      apply (located_mono [e]); [|done].
      intros x Hx. by apply list_elem_of_singleton in Hx as ->.
    + by constructor.
  - inversion Hp.
Qed.

Lemma walk_complete dirs :
  forall entries currentDir name,
    located entries dirs name ->
    Forall (fun d => d ∉ ignoreDirs) dirs ->
    endsWith name ".ts" = true \/ endsWith name ".tsx" = true ->
    path_join (descend currentDir dirs) name ∈ walk currentDir entries [].
Proof.
  induction dirs as [|d ds IH]; intros entries currentDir name Hloc Hok Hts.
  - simpl in Hloc. apply walk_elem. exists (FileEntry name). split; [done|].
    simpl. apply orb_true_iff in Hts. rewrite Hts. left.
  - destruct Hloc as (sub & Hin & Hloc). apply Forall_cons in Hok as [Hd Hok].
    apply walk_elem. exists (DirEntry d sub). split; [done|].
    rewrite walk_entry_dir. rewrite bool_decide_eq_false_2 by done. simpl.
    by apply IH.
Qed.

End WithJoin.

(** *** The validator *)

Lemma validate_layers_returns todo :
  forall layers,
    (exists result, validate_layers todo layers = Returns result)
    <-> Forall valid_layer_entry todo.
Proof.
  induction todo as [|[name v] todo IH]; intros layers; simpl.
  - split; [constructor|eauto].
  - rewrite Forall_cons. unfold valid_layer_entry at 1, is_object. cbn [snd].
    destruct (truthy v); cbn [negb orb andb];
      [|split; [intros [? ?]; discriminate|intros [[? _] _]; discriminate]].
    destruct (typeof_object v); cbn [negb orb andb];
      [|split; [intros [? ?]; discriminate|intros [[? _] _]; discriminate]].
    destruct (get_prop v "allowedImports") as [| | | | |items|] eqn:E;
      try (split; [intros [? ?]; discriminate|
                   intros [[_ [? ?]] _]; discriminate]).
    rewrite IH. split.
    + intros Hall. split; [|done]. split; [done|]. by exists items.
    + by intros [_ Hall].
Qed.

Lemma set_own_layer_keys layers name config :
  name ∉ map fst layers ->
  map fst (set_own_layer layers name config) = map fst layers ++ [name].
Proof.
  intros Hfresh. induction layers as [|[k w] layers IHl]; simpl; [done|].
  destruct (String.eqb_spec k name) as [->|Hk]; simpl.
  - exfalso. apply Hfresh. left.
  - rewrite IHl; [done|]. intros Hin. apply Hfresh. by right.
Qed.

Lemma validate_layers_keys todo :
  forall layers result,
    validate_layers todo layers = Returns result ->
    NoDup (map fst layers ++ map fst todo) ->
    map fst result
    = map fst layers
      ++ List.filter (fun k => negb (String.eqb k "__proto__")) (map fst todo).
Proof.
  induction todo as [|[name v] todo IH]; intros layers result; simpl.
  - intros [= <-] _. by rewrite app_nil_r.
  - destruct (negb (truthy v) || negb (typeof_object v)); [discriminate|].
    destruct (get_prop v "allowedImports") as [| | | | |items|]; try discriminate.
    intros Hr Hnd.
    assert (name ∉ map fst layers) as Hfresh.
    { apply NoDup_app in Hnd as (_ & Hdisj & _). intros Hin.
      apply (Hdisj name Hin). left. }
    unfold set_layer in Hr.
    destruct (String.eqb name "__proto__"); cbn [negb].
    + apply (IH _ _ Hr). apply NoDup_app in Hnd as (Hl & Hdisj & Ht).
      apply NoDup_cons in Ht as [_ Ht].
      apply NoDup_app. split; [done|]. split; [|done].
      intros x Hx Hxt. apply (Hdisj x Hx). by right.
    + rewrite (IH _ _ Hr); rewrite set_own_layer_keys by done.
      * by rewrite <- app_assoc.
      * by rewrite <- app_assoc.
Qed.

Lemma get_set_own_layer_eq layers name config :
  get_layer (set_own_layer layers name config) name = Some config.
Proof.
  induction layers as [|[k w] layers IH]; simpl.
  - by rewrite String.eqb_refl.
  - destruct (String.eqb k name) eqn:E; simpl; by rewrite E.
Qed.

Lemma get_set_own_layer_ne layers name other config :
  name <> other ->
  get_layer (set_own_layer layers name config) other = get_layer layers other.
Proof.
  intros Hne. induction layers as [|[k w] layers IH]; simpl.
  - apply String.eqb_neq in Hne. by rewrite Hne.
  - destruct (String.eqb_spec k name) as [->|Hk]; simpl.
    + apply String.eqb_neq in Hne. by rewrite Hne.
    + by rewrite IH.
Qed.

Lemma get_set_layer_eq layers name config :
  name <> "__proto__" ->
  get_layer (set_layer layers name config) name = Some config.
Proof.
  intros Hne. unfold set_layer. apply String.eqb_neq in Hne. rewrite Hne.
  apply get_set_own_layer_eq.
Qed.

Lemma get_set_layer_ne layers name other config :
  name <> other ->
  get_layer (set_layer layers name config) other = get_layer layers other.
Proof.
  intros Hne. unfold set_layer. destruct (String.eqb name "__proto__"); [done|].
  by apply get_set_own_layer_ne.
Qed.

Lemma get_set_layer_proto layers config other :
  get_layer (set_layer layers "__proto__" config) other = get_layer layers other.
Proof. done. Qed.

Lemma validate_layers_get todo :
  forall layers result name,
    validate_layers todo layers = Returns result ->
    NoDup (map fst todo) ->
    get_layer result name
    = if String.eqb name "__proto__" then get_layer layers name
      else match lookup_prop todo name with
           | Some v =>
               match get_prop v "allowedImports" with
               | JArr items => Some {| allowedImports := items |}
               | _ => None
               end
           | None => get_layer layers name
           end.
Proof.
  induction todo as [|[k v] todo IH]; intros layers result name; simpl.
  - intros [= <-] _. by destruct (String.eqb name "__proto__").
  - destruct (negb (truthy v) || negb (typeof_object v)); [discriminate|].
    destruct (get_prop v "allowedImports") as [| | | | |items|] eqn:E;
      try discriminate.
    intros Hr Hnd. apply NoDup_cons in Hnd as [Hk Hnd].
    rewrite (IH _ _ name Hr Hnd).
    destruct (String.eqb_spec name "__proto__") as [->|Hproto].
    + destruct (String.eqb_spec k "__proto__") as [->|Hne];
        [apply get_set_layer_proto|by apply get_set_layer_ne].
    + destruct (String.eqb_spec k name) as [->|Hne].
      * assert (lookup_prop todo name = None) as ->.
        { clear -Hk. induction todo as [|[k' v'] todo IHt]; simpl; [done|].
          destruct (String.eqb_spec k' name) as [->|Hk'].
          - exfalso. apply Hk. left.
          - apply IHt. intros Hin. apply Hk. by right. }
        by rewrite get_set_layer_eq, E.
      * destruct (lookup_prop todo name); [done|]. by apply get_set_layer_ne.
Qed.

(** *** The rules document *)



(** *** The search for the configuration file *)

Section WithPaths.
Context `{Host}.
Variable path_join : string -> string -> string.

Local Abbreviation search := (ConfigSearch.search path_join).

Lemma ancestor_succ k p : ancestor (S k) p = path_dirname (ancestor k p).
Proof.
  revert p. induction k as [|k IH]; intros p; [done|].
  change (ancestor (S (S k)) p) with (ancestor (S k) (path_dirname p)).
  by rewrite IH.
Qed.

Lemma search_found fuel fs p q :
  search fuel fs p = Some (Some q) ->
  exists k,
    q = path_join (ancestor k p) "architecture.yaml" /\
    existsSync fs q = true /\
    (forall j, j <= k -> ancestor j p <> path_dirname (ancestor j p)) /\
    (forall j, j < k ->
       existsSync fs (path_join (ancestor j p) "architecture.yaml") = false).
Proof.
  revert p. induction fuel as [|fuel IH]; intros p; simpl; [discriminate|].
  destruct (String.eqb_spec p (path_dirname p)) as [Hroot|Hnot]; [discriminate|].
  destruct (existsSync fs (path_join p "architecture.yaml")) eqn:E.
  - intros [= <-]. exists 0. simpl. split; [done|]. split; [done|].
    split; intros j Hj; [|lia]. by replace j with 0 by lia.
  - intros Hs. destruct (IH _ Hs) as (k & -> & Hex & Hnr & Hnone).
    exists (S k). split; [done|]. split; [done|]. split.
    + intros [|j] Hj; [done|]. apply (Hnr j). lia.
    + intros [|j] Hj; [done|]. apply (Hnone j). lia.
Qed.

Lemma search_not_found fuel fs p :
  search fuel fs p = Some None ->
  exists k,
    ancestor k p = path_dirname (ancestor k p) /\
    (forall j, j < k -> ancestor j p <> path_dirname (ancestor j p)) /\
    (forall j, j < k ->
       existsSync fs (path_join (ancestor j p) "architecture.yaml") = false).
Proof.
  revert p. induction fuel as [|fuel IH]; intros p; simpl; [discriminate|].
  destruct (String.eqb_spec p (path_dirname p)) as [Hroot|Hnot].
  - intros _. exists 0. split; [done|]. split; intros j Hj; lia.
  - destruct (existsSync fs (path_join p "architecture.yaml")) eqn:E;
      [discriminate|].
    intros Hs. destruct (IH _ Hs) as (k & Hroot & Hnr & Hnone).
    exists (S k). split; [done|]. split.
    + intros [|j] Hj; [done|]. apply (Hnr j). lia.
    + intros [|j] Hj; [done|]. apply (Hnone j). lia.
Qed.

Lemma search_total fs n :
  forall p fuel,
    ancestor n p = path_dirname (ancestor n p) ->
    n < fuel ->
    exists r, search fuel fs p = Some r.
Proof.
  induction n as [|n IH]; intros p fuel Hroot Hfuel;
    (destruct fuel as [|fuel]; [lia|]); simpl.
  - simpl in Hroot. rewrite <- Hroot, String.eqb_refl. eauto.
  - destruct (String.eqb p (path_dirname p)); [eauto|].
    destruct (existsSync fs _); [eauto|]. apply IH; [done|lia].
Qed.

Lemma search_fuel_mono fs fuel fuel' p r :
  fuel <= fuel' -> search fuel fs p = Some r -> search fuel' fs p = Some r.
Proof.
  revert fuel' p. induction fuel as [|fuel IH]; intros fuel' p Hle;
    [discriminate|].
  destruct fuel' as [|fuel']; [lia|]. simpl.
  destruct (String.eqb p (path_dirname p)); [done|].
  destruct (existsSync fs _); [done|]. apply IH. lia.
Qed.

End WithPaths.
End MiscFacts.

(** ** Further properties: the engine and the rules *)

Module EngineProperties.
Import JsValue Counted Ast Core Host Parser Rules Spec Cli Run Tree Reports.
Import Js JsFacts RuleFacts BoundaryFacts TreeFacts RunFacts HeuristicFacts.
Import BuildFacts.

(** X1. [executeRules] runs the registered rules in the order of their
    registration and concatenates their violations: a rule registered later
    has its violations after those of the rules registered before, and the
    result passes exactly when no rule reports a violation. *)
Theorem executeRules_in_registration_order
    (engine : RuleEngine) (rule : Rule) (context : RuleContext) :
  violations (value (executeRules engine context))
  = concat (map (fun r => violations (value (execute r context)))
              (getRegisteredRules engine)) /\
  violations (value (executeRules (registerRule rule engine) context))
  = violations (value (executeRules engine context))
    ++ violations (value (execute rule context)) /\
  (passed (value (executeRules engine context)) = true <->
   forall r, r ∈ getRegisteredRules engine ->
             violations (value (execute r context)) = []).
Proof.
  unfold getRegisteredRules. split; [apply violations_executeRules|]. split.
  - rewrite !violations_executeRules. unfold registerRule. simpl.
    rewrite map_app, concat_app. simpl. by rewrite app_nil_r.
  - rewrite passed_executeRules, violations_executeRules, Nat.eqb_eq.
    rewrite length_zero_iff_nil. split.
    + intros Hnil r Hr.
      induction (engine_rules engine) as [|r' rs IH]; [inversion Hr|].
      simpl in Hnil. apply app_eq_nil in Hnil as [Hr' Hrs].
      apply elem_of_cons in Hr as [->|Hr]; [done|by apply IH].
    + intros Hall. induction (engine_rules engine) as [|r' rs IH]; [done|].
      simpl. rewrite (Hall r') by left. simpl. apply IH.
      intros r Hr. apply Hall. by right.
Qed.

Section WithHost.
Context `{Host}.

Lemma boundary_report_fields context layerName layerConfig imp v :
  v ∈ boundary_report context layerName layerConfig imp ->
  rule v = "layer-import-boundary" /\ file v = filePath context.
Proof.
  unfold boundary_report. destruct (disallowed_layer _ _ _ _); [|by inversion 1].
  destruct (findImportNode _ _); [|by inversion 1].
  intros Hv. apply list_elem_of_singleton in Hv as ->.
  by destruct (violation_at_fields
                 (parseTypeScript (sourceCode context) (filePath context))
                 (getStart n) (filePath context)
                 (boundary_message layerName s layerConfig)
                 "layer-import-boundary") as (-> & _ & ->).
Qed.

Lemma elem_of_concat_map {A B : Type} (f : A -> list B) (l : list A) (y : B) :
  y ∈ concat (map f l) <-> exists x, x ∈ l /\ y ∈ f x.
Proof.
  rewrite list_elem_of_In, in_concat. split.
  - intros (ys & Hys & Hy). apply in_map_iff in Hys as (x & <- & Hx).
    exists x. by rewrite !list_elem_of_In.
  - intros (x & Hx & Hy). exists (f x). split; [|by apply list_elem_of_In].
    apply in_map_iff. exists x. split; [done|by apply list_elem_of_In].
Qed.

(** The result of the boundary rule, in every case. *)
Lemma boundary_result context :
  execute createLayerImportBoundaryRule context = ret empty_result \/
  exists layerName layerConfig,
    execute createLayerImportBoundaryRule context
    = ret (let violations :=
             concat (map (boundary_report context layerName layerConfig)
                       (imports context)) in
           {| violations := violations;
              passed := Nat.eqb (length violations) 0 |}).
Proof.
  simpl. unfold layerImportBoundary_execute.
  destruct (negb (truthy _)); [by left|].
  destruct (detectLayerFromPath _ _) as [layerName|]; [|by left].
  destruct (negb (truthy_name (Some layerName))); [by left|].
  destruct (get_layer _ _) as [layerConfig|]; [|by left].
  right. exists layerName, layerConfig. by rewrite boundary_fold.
Qed.

Lemma node_flags_fields sourceFile path n v :
  v ∈ node_flags sourceFile path n ->
  rule v = "no-business-logic-in-components" /\ file v = path.
Proof.
  unfold node_flags, loop_violation, conditional_violation. intros Hv.
  apply elem_of_app in Hv as [Hv|Hv].
  - destruct (isLoop n); [|inversion Hv].
    apply list_elem_of_singleton in Hv as ->.
    by destruct (violation_at_fields sourceFile (getStart n) path
                   "Loop detected in UI component. Extract loop logic to a utility function in features/domain layer and pass processed data as props."
                   "no-business-logic-in-components") as (-> & _ & ->).
  - destruct (isIfStatement n && negb (isSimpleConditional n)); [|inversion Hv].
    apply list_elem_of_singleton in Hv as ->.
    by destruct (violation_at_fields sourceFile (getStart n) path
                   "Complex conditional in UI component. Extract to a custom hook (e.g. useConditionalLogic) in features layer or move to domain utilities."
                   "no-business-logic-in-components") as (-> & _ & ->).
Qed.

(** The result of the business-logic rule, in every case. *)
Lemma businessLogic_result context :
  execute createBusinessLogicInComponentsRule context = ret empty_result \/
  execute createBusinessLogicInComponentsRule context
  = ret (let sourceFile :=
           parseTypeScript (sourceCode context) (filePath context) in
         let violations :=
           concat (map (fun f =>
                          if isComponentFunction f
                          then concat (map (node_flags sourceFile (filePath context))
                                         (preorder f))
                          else []) (preorder sourceFile)) in
         {| violations := violations;
            passed := Nat.eqb (length violations) 0 |}).
Proof.
  simpl. unfold businessLogic_execute.
  destruct (negb (truthy _)); [by left|].
  destruct (negb (isReactComponentFile _)); [by left|].
  right. by rewrite visit_all_preorder, businessLogic_fold.
Qed.

(** The result of the data-fetching rule, in every case. *)
Lemma dataFetching_result context :
  execute createDataFetchingInUIRule context = ret empty_result \/
  execute createDataFetchingInUIRule context
  = ret (let sourceFile :=
           parseTypeScript (sourceCode context) (filePath context) in
         let violations :=
           concat (map (fun pattern =>
                          map (fetch_violation sourceFile (filePath context))
                            (matchAll pattern (sourceCode context)))
                     forbiddenPatterns) in
         {| violations := violations;
            passed := Nat.eqb (length violations) 0 |}).
Proof.
  simpl. unfold dataFetching_execute.
  destruct (negb (truthy _)); [by left|].
  destruct (negb (isReactComponentFile _)); [by left|].
  right. by rewrite dataFetching_violations_by_pattern.
Qed.

(** The result of the cycle rule, in every case. *)
Lemma circular_result context :
  execute createCircularDependencyRule context = ret empty_result \/
  exists graph,
    importGraph context = Some graph /\
    truthy (noCircularLayerDeps (rules (architecture context))) = true /\
    execute createCircularDependencyRule context
    = (let violations :=
         map (cycle_violation (filePath context))
           (List.filter (is_reporter (filePath context))
              (Graph.detectCycles graph)) in
       {| violations := violations;
          passed := Nat.eqb (length violations) 0 |}, 1).
Proof.
  destruct (truthy (noCircularLayerDeps (rules (architecture context)))) eqn:Hon.
  - destruct (importGraph context) as [graph|] eqn:Hg.
    + right. exists graph. split; [done|]. split; [done|].
      by apply circular_on_reporter.
    + left. simpl. unfold circularDependency_execute. by rewrite Hon, Hg.
  - left. simpl. unfold circularDependency_execute. by rewrite Hon.
Qed.

Lemma rule_result_cases context r :
  r ∈ engine_rules check_engine ->
  (passed (value (execute r context)) = true <->
   violations (value (execute r context)) = []) /\
  forall v, v ∈ violations (value (execute r context)) ->
            rule v = name r /\ file v = filePath context.
Proof.
  rewrite engine_rules_check_engine. intros Hr.
  assert (forall vs : list Violation,
             Nat.eqb (length vs) 0 = true <-> vs = []) as Hlen.
  { intros vs. by rewrite Nat.eqb_eq, length_zero_iff_nil. }
  repeat (apply elem_of_cons in Hr as [->|Hr]); [| | | |inversion Hr].
  - destruct (boundary_result context) as [->|(ln & lc & ->)].
    + split; [done|]. intros v Hv. inversion Hv.
    + unfold ret, value. cbn [fst violations passed]. split; [apply Hlen|].
      intros v Hv. apply elem_of_concat_map in Hv as (imp & _ & Hv).
      by apply boundary_report_fields in Hv.
  - destruct (businessLogic_result context) as [->| ->].
    + split; [done|]. intros v Hv. inversion Hv.
    + unfold ret, value. cbn [fst violations passed]. split; [apply Hlen|].
      intros v Hv. apply elem_of_concat_map in Hv as (f & _ & Hv).
      destruct (isComponentFunction f); [|inversion Hv].
      apply elem_of_concat_map in Hv as (n & _ & Hv).
      by apply node_flags_fields in Hv.
  - destruct (dataFetching_result context) as [->| ->].
    + split; [done|]. intros v Hv. inversion Hv.
    + unfold ret, value. cbn [fst violations passed]. split; [apply Hlen|].
      intros v Hv. apply elem_of_concat_map in Hv as (p & _ & Hv).
      apply list_elem_of_fmap in Hv as (i & -> & _).
      unfold fetch_violation.
      by destruct (violation_at_fields
                     (parseTypeScript (sourceCode context) (filePath context))
                     i (filePath context) dataFetching_message
                     "no-data-fetching-in-ui") as (-> & _ & ->).
  - destruct (circular_result context) as [->|(g & _ & _ & ->)].
    + split; [done|]. intros v Hv. inversion Hv.
    + unfold value. cbn [fst violations passed]. split; [apply Hlen|].
      intros v Hv. by apply list_elem_of_fmap in Hv as (c & -> & _).
Qed.

(** X2. Every one of the four rules keeps the result consistent and labels
    its violations: [passed] is true exactly when there is no violation,
    and each violation carries the name of the rule and the path of the
    file being checked. *)
Theorem rule_results_are_consistent (context : RuleContext) :
  Forall (fun r =>
            (passed (value (execute r context)) = true <->
             violations (value (execute r context)) = []) /\
            forall v, v ∈ violations (value (execute r context)) ->
                      rule v = name r /\ file v = filePath context)
    (getRegisteredRules check_engine).
Proof.
  apply Forall_forall. intros r Hr. by apply rule_result_cases.
Qed.

End WithHost.
End EngineProperties.

(** ** Further properties: the run over the source files *)

Module RunProperties.
Import JsValue Counted Ast Core Host Parser Rules Spec Cli Run Tree Reports.
Import Js JsFacts Graph GraphFacts RuleFacts BoundaryFacts TreeFacts RunFacts.
Import HeuristicFacts BuildFacts.

Section WithHost.
Context `{Host}.

Lemma executeRules_check_engine_violations context :
  violations (value (executeRules check_engine context))
  = violations (value (execute createLayerImportBoundaryRule context))
    ++ violations (value (execute createBusinessLogicInComponentsRule context))
    ++ violations (value (execute createDataFetchingInUIRule context))
    ++ violations (value (execute createCircularDependencyRule context)).
Proof.
  rewrite violations_executeRules, engine_rules_check_engine.
  cbn [map concat]. by rewrite app_nil_r.
Qed.

Lemma value_runChecks_violations fs architecture sourceFiles :
  value (runChecks_violations fs architecture sourceFiles)
  = concat (map (fun f =>
                   violations
                     (value (executeRules check_engine
                               (run_context fs architecture
                                  (buildImportGraph fs sourceFiles) f))))
              sourceFiles).
Proof. unfold runChecks_violations. by rewrite value_runChecks_loop. Qed.

Lemma value_runChecks fs architecture sourceFiles :
  value (runChecks fs architecture sourceFiles)
  = let all := value (runChecks_violations fs architecture sourceFiles) in
    {| check_passed := Nat.eqb (length all) 0; violationCount := length all |}.
Proof.
  unfold runChecks. rewrite value_bind.
  destruct (value (runChecks_violations fs architecture sourceFiles)); done.
Qed.

(** X3. With the four toggles off the run passes with no violation,
    whatever the source files hold, and the import graph is never
    scanned. *)
Theorem runChecks_passes_when_all_rules_off
    (fs : FileSystem) (architecture : ArchitectureConfig)
    (sourceFiles : list string) :
  truthy (enforceFeatureBoundaries (rules architecture)) = false ->
  truthy (noBusinessLogicInComponents (rules architecture)) = false ->
  truthy (noDataFetchingInUI (rules architecture)) = false ->
  truthy (noCircularLayerDeps (rules architecture)) = false ->
  runChecks fs architecture sourceFiles
  = ret {| check_passed := true; violationCount := 0 |}.
Proof.
  intros Hb Hl Hd Hc.
  assert (forall todo acc,
             runChecks_loop fs architecture (buildImportGraph fs sourceFiles)
               check_engine todo acc = ret acc) as Hloop.
  { induction todo as [|f todo IH]; intros acc; cbn [runChecks_loop]; [done|].
    unfold executeRules, check_engine, registerRule, new_RuleEngine.
    cbn [engine_rules app executeRules_loop execute
           createLayerImportBoundaryRule createBusinessLogicInComponentsRule
           createDataFetchingInUIRule createCircularDependencyRule].
    unfold layerImportBoundary_execute, businessLogic_execute,
      dataFetching_execute, circularDependency_execute.
    cbn [Core.architecture]. rewrite Hb, Hl, Hd, Hc.
    cbn [negb bind ret empty_result violations app].
    rewrite IH. by rewrite app_nil_r. }
  unfold runChecks, runChecks_violations. by rewrite Hloop.
Qed.

(** X4. The run takes the source files in the order they are listed and,
    for each, the four rules in the order boundary, business logic, data
    fetching, cycles; its violations are the concatenation of theirs. The
    run passes exactly when there is none, and it counts them all. *)
Theorem runChecks_collects_by_file_then_rule
    (fs : FileSystem) (architecture : ArchitectureConfig)
    (sourceFiles : list string) :
  let graph := buildImportGraph fs sourceFiles in
  let report f r :=
    violations (value (execute r (run_context fs architecture graph f))) in
  let all := value (runChecks_violations fs architecture sourceFiles) in
  all = concat (map (fun f =>
                       report f createLayerImportBoundaryRule
                       ++ report f createBusinessLogicInComponentsRule
                       ++ report f createDataFetchingInUIRule
                       ++ report f createCircularDependencyRule)
                  sourceFiles) /\
  value (runChecks fs architecture sourceFiles)
  = {| check_passed := Nat.eqb (length all) 0;
       violationCount := length all |}.
Proof.
  intros graph report all. split; [|apply value_runChecks].
  unfold all. rewrite value_runChecks_violations. f_equal.
  apply map_ext. intros f. apply executeRules_check_engine_violations.
Qed.

(** The result of the boundary rule with the layer of the file. *)
Lemma boundary_result_layer context :
  violations (value (execute createLayerImportBoundaryRule context)) = [] \/
  exists layerName layerConfig,
    detectLayerFromPath (filePath context) (layers (architecture context))
    = Some layerName /\
    get_layer (layers (architecture context)) layerName = Some layerConfig /\
    violations (value (execute createLayerImportBoundaryRule context))
    = concat (map (boundary_report context layerName layerConfig)
                (imports context)).
Proof.
  simpl. unfold layerImportBoundary_execute.
  destruct (negb (truthy _)); [by left|].
  destruct (detectLayerFromPath _ _) as [layerName|]; [|by left].
  destruct (negb (truthy_name (Some layerName))); [by left|].
  destruct (get_layer _ _) as [layerConfig|] eqn:Hcfg; [|by left].
  right. exists layerName, layerConfig. split; [done|]. split; [done|].
  unfold ret, value. cbn [fst violations]. by rewrite boundary_fold.
Qed.

(** X5. A violation of the boundary rule has a cause among the imports of
    the file: a relative import that resolves into a layer other than the
    layer of the file and not among the layer's allowed imports; the
    message names the two layers. *)
Theorem boundary_violation_has_a_cause (context : RuleContext) (v : Violation) :
  v ∈ violations (value (execute createLayerImportBoundaryRule context)) ->
  exists layerName layerConfig imp imported,
    detectLayerFromPath (filePath context) (layers (architecture context))
    = Some layerName /\
    get_layer (layers (architecture context)) layerName = Some layerConfig /\
    imp ∈ imports context /\
    isRelativeImport (from imp) = true /\
    detectLayerFromImportPath (from imp) (filePath context)
      (layers (architecture context)) = Some imported /\
    imported <> layerName /\
    has_string (allowedImports layerConfig) imported = false /\
    message v = boundary_message layerName imported layerConfig.
Proof.
  destruct (boundary_result_layer context)
    as [->|(layerName & layerConfig & Hlayer & Hcfg & ->)]; [inversion 1|].
  intros Hv. apply EngineProperties.elem_of_concat_map in Hv as (imp & Himp & Hv).
  exists layerName, layerConfig, imp.
  unfold boundary_report, disallowed_layer in Hv.
  destruct (isRelativeImport (from imp)) eqn:Hrel; [|inversion Hv].
  destruct (detectLayerFromImportPath _ _ _) as [imported|] eqn:Himported;
    [|inversion Hv].
  destruct (negb (String.eqb imported "") && negb (String.eqb imported layerName)
            && negb (has_string (allowedImports layerConfig) imported)) eqn:E;
    [|inversion Hv].
  apply andb_true_iff in E as [E Hallowed].
  apply andb_true_iff in E as [_ Hother].
  apply negb_true_iff in Hallowed, Hother. apply String.eqb_neq in Hother.
  destruct (findImportNode _ _) as [node|]; [|inversion Hv].
  apply list_elem_of_singleton in Hv as ->.
  exists imported. repeat (split; [done|]).
  by destruct (violation_at_fields
                 (parseTypeScript (sourceCode context) (filePath context))
                 (getStart node) (filePath context)
                 (boundary_message layerName imported layerConfig)
                 "layer-import-boundary") as (_ & -> & _).
Qed.

(** X6. The boundary rule reports at most one violation for each relative
    import of the context, and none when the file has only package
    imports. *)
Theorem boundary_reports_at_most_one_per_relative_import
    (context : RuleContext) :
  length (violations (value (execute createLayerImportBoundaryRule context)))
  <= length (List.filter (fun imp => isRelativeImport (from imp))
               (imports context)) /\
  ((forall imp, imp ∈ imports context -> isRelativeImport (from imp) = false) ->
   violations (value (execute createLayerImportBoundaryRule context)) = []).
Proof.
  destruct (boundary_result_layer context)
    as [->|(layerName & layerConfig & _ & _ & ->)].
  { split; [simpl; lia|done]. }
  assert (forall imp,
             length (boundary_report context layerName layerConfig imp)
             <= if isRelativeImport (from imp) then 1 else 0) as Hone.
  { intros imp. unfold boundary_report, disallowed_layer.
    destruct (isRelativeImport (from imp)); [|done].
    destruct (detectLayerFromImportPath _ _ _); [|simpl; lia].
    destruct (_ && _); [|simpl; lia].
    destruct (findImportNode _ _); simpl; lia. }
  split.
  - induction (imports context) as [|imp imps IH]; [done|].
    cbn [map concat List.filter]. rewrite length_app.
    specialize (Hone imp). destruct (isRelativeImport (from imp)); simpl; lia.
  - intros Hall. induction (imports context) as [|imp imps IH]; [done|].
    cbn [map concat]. rewrite IH by (intros i Hi; apply Hall; by right).
    specialize (Hone imp). rewrite (Hall imp) in Hone by left.
    destruct (boundary_report context layerName layerConfig imp); [done|].
    simpl in Hone. lia.
Qed.

End WithHost.
End RunProperties.

(** ** Further properties: the import graph and its cycles *)

Module GraphProperties.
Import JsValue Counted Ast Core Host Parser Rules Spec Cli Run Tree Reports.
Import Js JsFacts Graph GraphFacts RuleFacts BoundaryFacts TreeFacts RunFacts.
Import HeuristicFacts BuildFacts.

Lemma walk_inner_keys graph l z x :
  walk graph (l ++ [z]) -> x ∈ l -> x ∈ keys graph.
Proof.
  induction l as [|u l IH]; [by inversion 2|].
  cbn [app walk]. intros [Hhead Hrest] Hx.
  apply elem_of_cons in Hx as [->|Hx]; [|by apply IH].
  destruct (l ++ [z]) as [|w rest] eqn:E; [by destruct l|].
  apply (edge_key graph u w). by apply Hhead.
Qed.

Lemma simple_cycle_keys graph c x :
  simple_cycle graph c -> x ∈ c -> x ∈ keys graph.
Proof.
  intros (n & rest & -> & _ & Hwalk) Hx.
  change (n :: rest ++ [n]) with ((n :: rest) ++ [n]) in *.
  apply elem_of_app in Hx as [Hx|Hx].
  - by apply (walk_inner_keys graph (n :: rest) n).
  - apply list_elem_of_singleton in Hx as ->.
    apply (walk_inner_keys graph (n :: rest) n); [done|left].
Qed.

Section WithHost.
Context `{Host}.

(** The file a returned cycle is reported on is a key of the graph. *)
Lemma reporter_is_key graph c :
  c ∈ detectCycles graph ->
  exists m, firstFileInCycle c = Some m /\ m ∈ keys graph.
Proof.
  intros Hc. apply detectCycles_sound in Hc.
  pose proof (fun x => simple_cycle_keys graph c x Hc) as Hkeys.
  destruct Hc as (n & rest & -> & _ & _).
  destruct (sort_head_is_Some codeUnitLeb (n :: rest ++ [n])) as [f Hf];
    [done|].
  exists f. split; [done|]. apply sort_head_elem in Hf. by apply Hkeys.
Qed.

(** X7. Every cycle [detectCycles] returns has at least two entries, ends
    where it starts and runs through keys of the graph only; so the file
    the cycle rule reports it on, the first of its sorted entries, is a key
    of the graph. *)
Theorem returned_cycle_runs_through_keys
    (graph : ImportGraph) (c : list string) :
  c ∈ detectCycles graph ->
  2 <= length c /\
  head c = last c /\
  (forall x, x ∈ c -> x ∈ keys graph) /\
  exists f, firstFileInCycle c = Some f /\ f ∈ c /\ f ∈ keys graph.
Proof.
  intros Hc. apply detectCycles_sound in Hc.
  pose proof (fun x => simple_cycle_keys graph c x Hc) as Hkeys.
  destruct Hc as (n & rest & -> & _ & _).
  split; [simpl; rewrite length_app; simpl; lia|].
  split; [simpl; change (n :: rest ++ [n]) with ((n :: rest) ++ [n]);
          by rewrite last_snoc|].
  split; [done|].
  destruct (sort_head_is_Some codeUnitLeb (n :: rest ++ [n])) as [f Hf];
    [done|].
  exists f. split; [done|]. apply sort_head_elem in Hf.
  split; [done|by apply Hkeys].
Qed.

Section Counting.
Context {A B : Type} (P : A -> B -> bool).

Lemma length_filter_columns (xs : list A) (y : B) (ys : list B) :
  length (concat (map (fun x => List.filter (P x) (y :: ys)) xs))
  = length (List.filter (fun x => P x y) xs)
    + length (concat (map (fun x => List.filter (P x) ys) xs)).
Proof.
  induction xs as [|x xs IH]; [done|].
  cbn [map concat]. rewrite !length_app, IH. cbn [List.filter].
  destruct (P x y); simpl; lia.
Qed.

Lemma length_filter_rows (xs : list A) (ys : list B) :
  (forall y, y ∈ ys -> length (List.filter (fun x => P x y) xs) = 1) ->
  length (concat (map (fun x => List.filter (P x) ys) xs)) = length ys.
Proof.
  induction ys as [|y ys IH]; intros Hone.
  - clear Hone. induction xs as [|x xs IHx]; [done|].
    cbn [map concat List.filter app]. exact IHx.
  - rewrite length_filter_columns, IH, Hone; [done|left|].
    intros y' Hy'. apply Hone. by right.
Qed.

End Counting.

Lemma length_concat_map_map {A B C : Type} (g : A -> B -> C)
    (F : A -> list B) (l : list A) :
  length (concat (map (fun x => map (g x) (F x)) l))
  = length (concat (map F l)).
Proof.
  induction l as [|x l IH]; [done|].
  cbn [map concat]. by rewrite !length_app, length_map, IH.
Qed.

Lemma filter_all {A : Type} (p : A -> bool) (l : list A) :
  (forall x, x ∈ l -> p x = true) -> List.filter p l = l.
Proof.
  induction l as [|x l IH]; intros Hall; [done|]. simpl.
  rewrite (Hall x) by left. f_equal. apply IH. intros y Hy. apply Hall. by right.
Qed.

Lemma filter_none {A : Type} (p : A -> bool) (l : list A) :
  (forall x, x ∈ l -> p x = false) -> List.filter p l = [].
Proof.
  induction l as [|x l IH]; intros Hall; [done|]. simpl.
  rewrite (Hall x) by left. apply IH. intros y Hy. apply Hall. by right.
Qed.

(** One file of a list without repetition is the reporter of a cycle. *)
Lemma one_reporter (files : list string) (c : list string) m :
  NoDup files -> firstFileInCycle c = Some m -> m ∈ files ->
  length (List.filter (fun f => is_reporter f c) files) = 1.
Proof.
  intros Hnd Hm Hin.
  assert (forall f, is_reporter f c = bool_decide (f = m)) as Heq.
  { intros f. unfold is_reporter. rewrite Hm.
    apply bool_decide_ext. split; congruence. }
  induction Hnd as [|f files Hf Hnd IH]; [inversion Hin|].
  cbn [List.filter]. rewrite Heq.
  destruct (decide (f = m)) as [->|Hne].
  - rewrite bool_decide_eq_true_2 by done. simpl. f_equal.
    rewrite filter_none; [done|]. intros x Hx. rewrite Heq.
    apply bool_decide_eq_false. by intros ->.
  - rewrite bool_decide_eq_false_2 by done.
    apply IH. apply elem_of_cons in Hin as [?|?]; [congruence|done].
Qed.

Lemma keys_buildImportGraph fs sourceFiles f :
  f ∈ keys (buildImportGraph fs sourceFiles) <-> f ∈ sourceFiles.
Proof.
  rewrite buildImportGraph_fold, build_fold_keys_elem. split; [|by right].
  intros [Hk|Hf]; [inversion Hk|done].
Qed.

(** The part of the run's violations that the cycle rule reported. *)
Lemma cycle_reports_of_run fs architecture sourceFiles :
  truthy (noCircularLayerDeps (rules architecture)) = true ->
  List.filter (fun v => String.eqb (rule v) "no-circular-layer-deps")
    (value (runChecks_violations fs architecture sourceFiles))
  = concat (map (fun f =>
                   map (cycle_violation f)
                     (List.filter (is_reporter f)
                        (detectCycles (buildImportGraph fs sourceFiles))))
              sourceFiles).
Proof.
  intros Hon. rewrite RunProperties.value_runChecks_violations.
  set (graph := buildImportGraph fs sourceFiles). clearbody graph.
  induction sourceFiles as [|f files IH]; [done|].
  cbn [map concat]. rewrite List.filter_app, IH. f_equal.
  rewrite RunProperties.executeRules_check_engine_violations.
  set (context := run_context fs architecture graph f).
  assert (forall r, r ∈ engine_rules check_engine ->
                    name r <> "no-circular-layer-deps" ->
                    List.filter
                      (fun v => String.eqb (rule v) "no-circular-layer-deps")
                      (violations (value (execute r context))) = []) as Hother.
  { intros r Hr Hname. apply filter_none. intros v Hv.
    destruct (EngineProperties.rule_result_cases context r Hr) as [_ Hfields].
    destruct (Hfields v Hv) as [-> _]. by apply String.eqb_neq. }
  rewrite !List.filter_app.
  rewrite (Hother createLayerImportBoundaryRule);
    [|rewrite engine_rules_check_engine; left|done].
  rewrite (Hother createBusinessLogicInComponentsRule);
    [|rewrite engine_rules_check_engine; right; left|done].
  rewrite (Hother createDataFetchingInUIRule);
    [|rewrite engine_rules_check_engine; right; right; left|done].
  cbn [app].
  rewrite (circular_on_reporter context graph Hon eq_refl).
  unfold value. cbn [fst violations filePath context run_context].
  apply filter_all. intros v Hv.
  by apply list_elem_of_fmap in Hv as (c & -> & _).
Qed.

(** X8. With the cycle rule on and no source file listed twice, the run
    reports each cycle that [detectCycles] returns for the built graph
    once: there are as many cycle violations as returned cycles, none
    exactly when the graph has no closed walk, and a graph with a closed
    walk makes the run fail. *)
Theorem run_reports_each_cycle_once
    (fs : FileSystem) (architecture : ArchitectureConfig)
    (sourceFiles : list string) :
  truthy (noCircularLayerDeps (rules architecture)) = true ->
  NoDup sourceFiles ->
  let graph := buildImportGraph fs sourceFiles in
  let reports :=
    List.filter (fun v => String.eqb (rule v) "no-circular-layer-deps")
      (value (runChecks_violations fs architecture sourceFiles)) in
  length reports = length (detectCycles graph) /\
  (reports = [] <-> forall c, ~ closed_walk graph c) /\
  ((exists c, closed_walk graph c) ->
   check_passed (value (runChecks fs architecture sourceFiles)) = false).
Proof.
  intros Hon Hnd graph reports.
  assert (length reports = length (detectCycles graph)) as Hcount.
  { unfold reports. rewrite cycle_reports_of_run by done. fold graph.
    rewrite <- (length_filter_rows (fun f c => is_reporter f c) sourceFiles
                  (detectCycles graph)).
    - apply length_concat_map_map.
    - intros c Hc.
      destruct (reporter_is_key graph c Hc)
        as (m & Hm & Hkey).
      apply (one_reporter sourceFiles c m); [done|done|].
      by apply (keys_buildImportGraph fs sourceFiles m). }
  assert (detectCycles graph = [] <-> forall c, ~ closed_walk graph c) as Hnone.
  { split.
    - intros Hempty c Hc. by apply detectCycles_detects in Hc.
    - intros Hacyclic. destruct (detectCycles graph) as [|c cs] eqn:E; [done|].
      exfalso. apply (Hacyclic c).
      assert (simple_cycle graph c) as (n & rest & Hshape & _ & Hwalk).
      { apply detectCycles_sound. rewrite E. left. }
      by exists n, rest. }
  split; [done|]. split.
  - rewrite <- Hnone, <- !length_zero_iff_nil. by rewrite Hcount.
  - intros [c Hc]. rewrite RunProperties.value_runChecks. cbn [check_passed].
    apply Nat.eqb_neq. intros Hzero. apply length_zero_iff_nil in Hzero.
    apply detectCycles_detects in Hc. apply Hc.
    apply length_zero_iff_nil. rewrite <- Hcount. unfold reports.
    by rewrite Hzero.
Qed.

End WithHost.
End GraphProperties.

(** ** Further properties: the builder of the import graph *)

Module BuilderProperties.
Import JsValue Counted Ast Core Host Parser Rules Spec Cli Run Tree Reports.
Import Js JsFacts Graph GraphFacts RuleFacts BoundaryFacts TreeFacts RunFacts.
Import HeuristicFacts BuildFacts.

Section WithHost.
Context `{Host}.

Lemma relativeImports_step_iff fs sourceFiles filePath acc imp x :
  x ∈ relativeImports_step fs sourceFiles filePath acc imp <->
  x ∈ acc \/
  (x ∈ sourceFiles /\ x <> "" /\ isRelativeImport (from imp) = true /\
   resolveImportPath fs (from imp) filePath = Some x).
Proof.
  unfold relativeImports_step, isRelativeImport.
  destruct (_ || _); [|split; [by left|by intros [?|(_ & _ & ? & _)]]].
  destruct (resolveImportPath fs (from imp) filePath) as [p|];
    [|split; [by left|by intros [?|(_ & _ & _ & ?)]]].
  destruct (negb (String.eqb p "") && bool_decide (p ∈ sourceFiles)) eqn:E.
  - apply andb_true_iff in E as [Hne Hin]. apply bool_decide_eq_true in Hin.
    apply negb_true_iff, String.eqb_neq in Hne.
    rewrite elem_of_app, list_elem_of_singleton. split.
    + intros [Hx| ->]; [by left|by right].
    + intros [Hx|(_ & _ & _ & [= ->])]; [by left|by right].
  - split; [by left|]. intros [Hx|(Hin & Hne & _ & [= ->])]; [done|].
    exfalso. apply andb_false_iff in E as [E|E].
    + apply negb_false_iff, String.eqb_eq in E. done.
    + by apply bool_decide_eq_false in E.
Qed.

Lemma relativeImports_fold_iff fs sourceFiles filePath imps acc x :
  x ∈ fold_left (relativeImports_step fs sourceFiles filePath) imps acc <->
  x ∈ acc \/
  exists imp, imp ∈ imps /\ x ∈ sourceFiles /\ x <> "" /\
              isRelativeImport (from imp) = true /\
              resolveImportPath fs (from imp) filePath = Some x.
Proof.
  revert acc. induction imps as [|imp imps IH]; intros acc; cbn [fold_left].
  - split; [by left|]. intros [?|(imp & Himp & _)]; [done|inversion Himp].
  - rewrite IH, relativeImports_step_iff. split.
    + intros [[Hacc|Hnew]|(imp' & Hin & Hrest)].
      * by left.
      * right. exists imp. split; [left|done].
      * right. exists imp'. split; [by right|done].
    + intros [Hacc|(imp' & Hin & Hrest)]; [by left; left|].
      apply elem_of_cons in Hin as [->|Hin].
      * left. by right.
      * right. by exists imp'.
Qed.

(** X9. The graph [buildImportGraph] builds has an edge from [f] to [x]
    exactly when both are source files and [f] has a relative import that
    [resolveImportPath] resolves to [x]: package imports, imports that do
    not resolve and imports of files outside the list give no edge. *)
Theorem buildImportGraph_edges
    (fs : FileSystem) (sourceFiles : list string) (f x : string) :
  edge (buildImportGraph fs sourceFiles) f x <->
  f ∈ sourceFiles /\ x ∈ sourceFiles /\ x <> "" /\
  exists imp,
    imp ∈ extractImports (parseTypeScript (readFileSync fs f) f) /\
    isRelativeImport (from imp) = true /\
    resolveImportPath fs (from imp) f = Some x.
Proof.
  unfold edge, neighbors_of.
  rewrite buildImportGraph_fold, build_fold_get.
  destruct (decide (f ∈ sourceFiles)) as [Hf|Hf].
  - unfold relativeImports_of. rewrite relativeImports_fold_iff. split.
    + intros [Hx|(imp & Himp & Hx & Hne & Hrel & Hres)]; [inversion Hx|].
      split; [done|]. split; [done|]. split; [done|]. by exists imp.
    + intros (_ & Hx & Hne & imp & Himp & Hrel & Hres). right. by exists imp.
  - simpl. split; [inversion 1|]. by intros [? _].
Qed.

(** X10. The keys of the built graph are the source files; the entry of
    a source file holds its kept relative imports, and every edge leads
    from a key to a key. *)
Theorem buildImportGraph_keys
    (fs : FileSystem) (sourceFiles : list string) :
  let graph := buildImportGraph fs sourceFiles in
  (forall f, f ∈ keys graph <-> f ∈ sourceFiles) /\
  (forall f, f ∈ sourceFiles ->
             get graph f = Some (relativeImports_of fs sourceFiles f)) /\
  (forall f, f ∉ sourceFiles -> get graph f = None) /\
  (forall f x, edge graph f x -> f ∈ keys graph /\ x ∈ keys graph).
Proof.
  intros graph.
  assert (forall f, f ∈ keys graph <-> f ∈ sourceFiles) as Hkeys.
  { intros f. apply GraphProperties.keys_buildImportGraph. }
  split; [done|]. split; [|split].
  - intros f Hf. unfold graph. rewrite buildImportGraph_fold, build_fold_get.
    by rewrite decide_True.
  - intros f Hf. unfold graph. rewrite buildImportGraph_fold, build_fold_get.
    by rewrite decide_False.
  - intros f x He. split; [by apply (edge_key graph f x)|].
    apply Hkeys. unfold graph, edge, neighbors_of in He.
    rewrite buildImportGraph_fold, build_fold_get in He.
    destruct (decide (f ∈ sourceFiles)) as [Hf|Hf]; [|inversion He].
    apply relativeImports_fold_elem in He as [He|(imp & _ & Hx & _)];
      [inversion He|done].
Qed.

(** The first pair of a list of candidates and tests whose test holds. *)
Lemma find_first {A : Type} (tests : list (A * bool)) (p : A) :
  fst <$> List.find snd tests = Some p <->
  exists before after,
    tests = before ++ (p, true) :: after /\
    Forall (fun t => snd t = false) before.
Proof.
  induction tests as [|[c b] tests IH]; simpl.
  - split; [done|]. intros (before & after & Heq & _). by destruct before.
  - destruct b; simpl.
    + split.
      * intros [= ->]. by exists [], tests.
      * intros (before & after & Heq & Hall).
        destruct before as [|t before]; simplify_eq/=; [done|].
        by apply Forall_cons in Hall as [? _].
    + rewrite IH. split.
      * intros (before & after & -> & Hall). exists ((c, false) :: before), after.
        split; [done|]. by apply Forall_cons.
      * intros (before & after & Heq & Hall).
        destruct before as [|t before]; simplify_eq/=.
        apply Forall_cons in Hall as [_ Hall]. by exists before, after.
Qed.

Lemma find_nothing {A : Type} (tests : list (A * bool)) :
  fst <$> List.find snd tests = None <->
  Forall (fun t => snd t = false) tests.
Proof.
  induction tests as [|[c b] tests IH]; simpl; [done|].
  rewrite Forall_cons. destruct b; simpl; [split; [done|by intros [? _]]|].
  rewrite IH. tauto.
Qed.

(** X11. [resolveImportPath] tries its candidates in one order: the
    resolved path, which must exist and be a file, then the resolved path
    with [.ts], [.tsx], [.js], [.jsx] added, then with [/index.ts],
    [/index.tsx], [/index.js], [/index.jsx] added, each of which must
    exist. It returns the first candidate that passes its test, so no
    candidate before the returned one passes, and [null] exactly when none
    passes; a returned path exists. *)
Theorem resolveImportPath_first_usable_candidate
    (fs : FileSystem) (importPath fromFile : string) :
  let resolved := path_resolve (path_dirname fromFile) importPath in
  let tests :=
    (resolved, existsSync fs resolved && isFile fs resolved)
    :: map (fun ext => (resolved +:+ ext, existsSync fs (resolved +:+ ext)))
         [ ".ts"; ".tsx"; ".js"; ".jsx";
           "/index.ts"; "/index.tsx"; "/index.js"; "/index.jsx" ] in
  map fst tests = resolve_candidates importPath fromFile /\
  (forall p,
      resolveImportPath fs importPath fromFile = Some p <->
      exists before after,
        tests = before ++ (p, true) :: after /\
        Forall (fun t => snd t = false) before) /\
  (resolveImportPath fs importPath fromFile = None <->
   Forall (fun t => snd t = false) tests) /\
  (forall p, resolveImportPath fs importPath fromFile = Some p ->
             existsSync fs p = true).
Proof.
  intros resolved tests.
  assert (resolveImportPath fs importPath fromFile
          = fst <$> List.find snd tests) as Hfind.
  { unfold resolveImportPath, tests. fold resolved.
    cbn [map first_existing List.find snd fst fmap option_fmap option_map].
    destruct (existsSync fs resolved && isFile fs resolved); [done|].
    repeat (match goal with
            | |- context [existsSync fs ?c] =>
                destruct (existsSync fs c); [done|]
            end).
    done. }
  split; [done|]. rewrite Hfind.
  split; [apply find_first|]. split; [apply find_nothing|].
  intros p Hp. apply find_first in Hp as (before & after & Heq & _).
  assert ((p, true) ∈ tests) as Hin.
  { rewrite Heq. apply elem_of_app. right. left. }
  unfold tests in Hin. apply elem_of_cons in Hin as [Hhead|Hin].
  - injection Hhead as -> Htest. symmetry in Htest.
    by apply andb_true_iff in Htest as [? _].
  - apply list_elem_of_fmap in Hin as (ext & Hpair & _).
    by injection Hpair as -> ->.
Qed.

End WithHost.
End BuilderProperties.

(** ** Further properties: the parser's imports and the heuristic rules *)

Module HeuristicProperties.
Import JsValue Counted Ast Core Host Parser Rules Spec Cli Run Tree Reports.
Import Js JsFacts RuleFacts BoundaryFacts TreeFacts RunFacts HeuristicFacts.

(** X12. [extractImports] returns one import for each import declaration
    of the tree whose module specifier is a string literal, at any depth
    and in the order of the traversal; no other node contributes. *)
Theorem extractImports_lists_import_declarations (sourceFile : Node) :
  map from (extractImports sourceFile)
  = omap moduleSpecifierText (preorder sourceFile) /\
  length (extractImports sourceFile)
  = length (List.filter (fun n => bool_decide (is_Some (moduleSpecifierText n)))
              (preorder sourceFile)).
Proof.
  split; [apply extractImports_from|].
  rewrite <- (length_map from), extractImports_from.
  induction (preorder sourceFile) as [|n ns IH]; [done|].
  cbn [omap list_omap List.filter].
  destruct (moduleSpecifierText n) as [text|]; simpl; [by f_equal|done].
Qed.

Lemma specifier_elem sourceFile p :
  p ∈ map from (extractImports sourceFile) <->
  exists n, n ∈ preorder sourceFile /\ moduleSpecifierText n = Some p.
Proof. rewrite extractImports_from. apply list_elem_of_omap. Qed.

(** X13. [findImportNode] finds a node exactly for the specifiers that
    [extractImports] lists, and the node it finds is an import declaration
    of the tree with that specifier. *)
Theorem findImportNode_finds_a_matching_declaration
    (sourceFile : Node) (importPath : string) :
  (is_Some (findImportNode sourceFile importPath) <->
   importPath ∈ map from (extractImports sourceFile)) /\
  (forall n, findImportNode sourceFile importPath = Some n ->
             n ∈ preorder sourceFile /\
             moduleSpecifierText n = Some importPath).
Proof.
  assert (forall n, findImportNode sourceFile importPath = Some n ->
                    n ∈ preorder sourceFile /\
                    moduleSpecifierText n = Some importPath) as Hfound.
  { intros n Hn. unfold findImportNode in Hn.
    by destruct (findImportNode_visit_found importPath sourceFile None n Hn). }
  split; [|done]. split.
  - intros [n Hn]. apply specifier_elem. exists n. by apply Hfound.
  - intros Hin. apply list_elem_of_fmap in Hin as (imp & -> & Himp).
    by apply extractImports_found.
Qed.

Lemma imports_react_exists sourceFile :
  existsb imports_react (preorder sourceFile) = true <->
  "react" ∈ map from (extractImports sourceFile).
Proof.
  rewrite specifier_elem, existsb_exists. split.
  - intros (n & Hin & Hn). exists n. split; [by apply list_elem_of_In|].
    unfold imports_react in Hn.
    destruct (moduleSpecifierText n) as [text|]; [|done].
    by apply String.eqb_eq in Hn as ->.
  - intros (n & Hin & Hn). exists n. split; [by apply list_elem_of_In|].
    unfold imports_react. by rewrite Hn.
Qed.

Section WithHost.
Context `{Host}.

Lemma component_exists (ns : list Node) :
  existsb isComponentFunction ns = true <->
  exists c rest start cs,
    mkNode (FunctionDeclaration (Some (String c rest))) start cs ∈ ns /\
    (startsWithOwnUpperCase (String c rest) = true
     \/ startsWith (String c rest) "use" = true).
Proof.
  rewrite existsb_exists. split.
  - intros (n & Hin & Hn). apply list_elem_of_In in Hin.
    pose proof (isComponentFunction_is_declaration n Hn) as Hdecl.
    destruct n as [k start cs].
    destruct k as [? | ? ? | [[|c rest]|] | | | | | | | | | | ]; try done.
    exists c, rest, start, cs. split; [done|].
    by apply isComponentFunction_declaration in Hn.
  - intros (c & rest & start & cs & Hin & Hname).
    exists (mkNode (FunctionDeclaration (Some (String c rest))) start cs).
    split; [by apply list_elem_of_In|].
    by apply isComponentFunction_declaration.
Qed.

(** X14. [isReactComponentFile] holds exactly when the tree has an import
    declaration of ["react"] and, at any depth, a function declaration
    with a name that starts with a character that case conversion leaves
    as it is, or that starts with [use]. *)
Theorem isReactComponentFile_import_and_declaration (sourceFile : Node) :
  isReactComponentFile sourceFile = true <->
  "react" ∈ map from (extractImports sourceFile) /\
  exists c rest start cs,
    mkNode (FunctionDeclaration (Some (String c rest))) start cs
    ∈ preorder sourceFile /\
    (startsWithOwnUpperCase (String c rest) = true
     \/ startsWith (String c rest) "use" = true).
Proof.
  rewrite isReactComponentFile_preorder, andb_true_iff.
  by rewrite imports_react_exists, component_exists.
Qed.

(** X15. The business-logic rule and the data-fetching rule return the
    empty result for a file that does not import ["react"], and for a file
    with no function declaration: components written as arrow functions
    or function expressions only are not checked. *)
Theorem heuristic_rules_skip_files_without_react_or_declaration
    (context : RuleContext) :
  let sourceFile := parseTypeScript (sourceCode context) (filePath context) in
  "react" ∉ map from (extractImports sourceFile) \/
  (forall n, n ∈ preorder sourceFile -> isFunctionDeclaration n = false) ->
  execute createBusinessLogicInComponentsRule context = ret empty_result /\
  execute createDataFetchingInUIRule context = ret empty_result.
Proof.
  intros sourceFile Hskip.
  assert (isReactComponentFile sourceFile = false) as Hfile.
  { rewrite isReactComponentFile_preorder. apply andb_false_iff.
    destruct Hskip as [Hreact|Hdecl].
    - left. apply not_true_is_false. by rewrite imports_react_exists.
    - right. apply not_true_is_false. rewrite component_exists.
      intros (c & rest & start & cs & Hin & _).
      by specialize (Hdecl _ Hin). }
  simpl. unfold businessLogic_execute, dataFetching_execute.
  fold sourceFile. rewrite Hfile. split.
  - by destruct (negb (truthy _)).
  - by destruct (negb (truthy _)).
Qed.

(** X16. On a component file the business-logic rule reports exactly the
    loops and the conditionals with a test other than an identifier, a
    property access or a binary expression that lie in the subtree of a
    component function declaration; a loop of a function that is no
    component and lies in none is not reported. *)
Theorem businessLogic_reports_within_components
    (context : RuleContext) (v : Violation) :
  let sourceFile := parseTypeScript (sourceCode context) (filePath context) in
  truthy (noBusinessLogicInComponents (rules (architecture context))) = true ->
  isReactComponentFile sourceFile = true ->
  (v ∈ violations (value (execute createBusinessLogicInComponentsRule context))
   <->
   exists f n,
     f ∈ preorder sourceFile /\ isComponentFunction f = true /\
     n ∈ preorder f /\
     ((isLoop n = true /\
       v = loop_violation sourceFile (filePath context) n) \/
      (isIfStatement n = true /\ isSimpleConditional n = false /\
       v = conditional_violation sourceFile (filePath context) n))).
Proof.
  intros sourceFile Hon Hfile.
  rewrite (businessLogic_violations context Hon Hfile). cbn zeta.
  fold sourceFile. rewrite EngineProperties.elem_of_concat_map.
  assert (forall n, v ∈ node_flags sourceFile (filePath context) n <->
                    (isLoop n = true /\
                     v = loop_violation sourceFile (filePath context) n) \/
                    (isIfStatement n = true /\ isSimpleConditional n = false /\
                     v = conditional_violation sourceFile (filePath context) n))
    as Hflags.
  { intros n. unfold node_flags. rewrite elem_of_app.
    destruct (isLoop n), (isIfStatement n), (isSimpleConditional n);
      cbn [andb negb]; rewrite ?list_elem_of_singleton; split;
      try (intros [Hv|Hv]); try (by inversion Hv); intuition congruence. }
  split.
  - intros (f & Hf & Hv). destruct (isComponentFunction f) eqn:Hc; [|inversion Hv].
    apply EngineProperties.elem_of_concat_map in Hv as (n & Hn & Hv).
    exists f, n. do 3 (split; [done|]). by apply Hflags.
  - intros (f & n & Hf & Hc & Hn & Hv). exists f. split; [done|].
    rewrite Hc. apply EngineProperties.elem_of_concat_map.
    exists n. split; [done|]. by apply Hflags.
Qed.

(** X17. On a component file the data-fetching rule reports one violation
    for every match of every forbidden pattern, pattern by pattern in the
    order of [forbiddenPatterns]: a text that two patterns match is
    reported by both. *)
Theorem dataFetching_reports_every_match (context : RuleContext) :
  let sourceFile := parseTypeScript (sourceCode context) (filePath context) in
  let reported :=
    violations (value (execute createDataFetchingInUIRule context)) in
  truthy (noDataFetchingInUI (rules (architecture context))) = true ->
  isReactComponentFile sourceFile = true ->
  reported
  = concat (map (fun pattern =>
                   map (fetch_violation sourceFile (filePath context))
                     (matchAll pattern (sourceCode context)))
              forbiddenPatterns) /\
  length reported
  = list_sum (map (fun pattern =>
                     length (matchAll pattern (sourceCode context)))
                forbiddenPatterns).
Proof.
  intros sourceFile reported Hon Hfile.
  assert (reported
          = concat (map (fun pattern =>
                           map (fetch_violation sourceFile (filePath context))
                             (matchAll pattern (sourceCode context)))
                      forbiddenPatterns)) as Hreported.
  { unfold reported. simpl. unfold dataFetching_execute. fold sourceFile.
    rewrite Hon, Hfile. simpl. by rewrite dataFetching_violations_by_pattern. }
  split; [done|]. rewrite Hreported. clear Hreported.
  generalize forbiddenPatterns. intros patterns.
  induction patterns as [|p ps IH]; [done|].
  cbn [map concat list_sum fold_right]. by rewrite length_app, length_map, IH.
Qed.

End WithHost.
End HeuristicProperties.

(** ** Further properties: the configuration, the walker of the source
    tree and the rules document *)

Module ConfigProperties.
Import JsValue Counted Ast Core Host Parser Rules Config Cli.
Import Walker ConfigSearch ConfigSpec Cursor.
Import Js JsFacts RuleFacts BoundaryFacts MiscFacts.

Lemma is_object_guard v :
  negb (truthy v) || negb (typeof_object v) = negb (is_object v).
Proof. unfold is_object. by destruct (truthy v), (typeof_object v). Qed.

(** X18. [validateArchitectureConfig] returns a configuration exactly for
    the documents that are an object whose [layers] is an object with
    every entry an object with an array [allowedImports]; it throws for
    every other document. What [typeof] calls an object is enough, so a
    list passes where an object is asked for. *)
Theorem validateArchitectureConfig_accepts (config : JsValue) :
  ((exists architecture,
       validateArchitectureConfig config = Returns architecture)
   <-> acceptable config) /\
  ((exists message, validateArchitectureConfig config = Throws message)
   <-> ~ acceptable config).
Proof.
  assert ((exists architecture,
              validateArchitectureConfig config = Returns architecture)
          <-> acceptable config) as Haccepts.
  { unfold validateArchitectureConfig, acceptable.
    rewrite !is_object_guard.
    destruct (is_object config); cbn [negb];
      [|split; [by intros [? ?]|by intros [? _]]].
    destruct (is_object (get_prop config "layers")); cbn [negb];
      [|split; [by intros [? ?]|by intros (_ & ? & _)]].
    rewrite <- (validate_layers_returns _ []).
    destruct (validate_layers _ []) as [result|message].
    - split; [intros _|by eauto]. split; [done|]. split; [done|]. by eauto.
    - split; [by intros [? ?]|]. by intros (_ & _ & ? & ?). }
  split; [done|]. rewrite <- Haccepts.
  destruct (validateArchitectureConfig config) as [architecture|message].
  - split; [by intros [? ?]|]. intros Hnot. exfalso. apply Hnot. by eauto.
  - split; [|by eauto]. intros _ [? ?]. done.
Qed.

(** X19. A configuration that is returned has the layers of the document
    in the order of its entries, each with the [allowedImports] array of
    its entry, taken as it is: the elements are not checked to be
    strings. An entry under the key [__proto__] is no layer of the
    returned configuration: its assignment sets the prototype of the
    layers object and adds no property. *)
Theorem validateArchitectureConfig_keeps_layers
    (config : JsValue) (architecture : ArchitectureConfig) :
  validateArchitectureConfig config = Returns architecture ->
  NoDup (map fst (entries (get_prop config "layers"))) ->
  map fst (layers architecture)
  = List.filter (fun layerName => negb (String.eqb layerName "__proto__"))
      (map fst (entries (get_prop config "layers"))) /\
  forall layerName,
    get_layer (layers architecture) layerName
    = if String.eqb layerName "__proto__" then None
      else match lookup_prop (entries (get_prop config "layers")) layerName
           with
           | Some entry =>
               match get_prop entry "allowedImports" with
               | JArr items => Some {| allowedImports := items |}
               | _ => None
               end
           | None => None
           end.
Proof.
  unfold validateArchitectureConfig.
  destruct (_ || _); [discriminate|]. destruct (_ || _); [discriminate|].
  destruct (validate_layers _ []) as [result|message] eqn:E; [|discriminate].
  intros [= <-] Hnd. cbn [layers]. split.
  - by rewrite (validate_layers_keys _ [] result E).
  - intros layerName.
    by rewrite (validate_layers_get _ [] result layerName E Hnd).
Qed.

Lemma toggle_truthy r n :
  truthy (nullish_else (get_prop (or_else r (JObj [])) n) (JBool false))
  = truthy (get_prop r n).
Proof.
  unfold or_else. destruct (truthy r) eqn:E.
  - by destruct (get_prop r n).
  - by destruct r.
Qed.

(** X20. A rule of a returned configuration is on exactly when the value
    of its toggle in the [rules] section of the document is truthy: the
    value is not checked to be a boolean, so a text or a number other
    than zero switches the rule on. *)
Theorem validateArchitectureConfig_toggles_by_truthiness
    (config : JsValue) (architecture : ArchitectureConfig) :
  validateArchitectureConfig config = Returns architecture ->
  let toggle name := truthy (get_prop (get_prop config "rules") name) in
  truthy (noBusinessLogicInComponents (rules architecture))
  = toggle "noBusinessLogicInComponents" /\
  truthy (noDataFetchingInUI (rules architecture))
  = toggle "noDataFetchingInUI" /\
  truthy (enforceFeatureBoundaries (rules architecture))
  = toggle "enforceFeatureBoundaries" /\
  truthy (noCircularLayerDeps (rules architecture))
  = toggle "noCircularLayerDeps".
Proof.
  unfold validateArchitectureConfig.
  destruct (_ || _); [discriminate|]. destruct (_ || _); [discriminate|].
  destruct (validate_layers _ []) as [result|message]; [|discriminate].
  intros [= <-]. cbn [rules noBusinessLogicInComponents noDataFetchingInUI
                        enforceFeatureBoundaries noCircularLayerDeps].
  by rewrite !toggle_truthy.
Qed.

(** X21. [findTypeScriptFiles] lists exactly the files whose name ends in
    [.ts] or [.tsx] and that lie in the directory or below it through
    directories none of which is ignored; an entry that is neither a file
    nor a directory is not listed and not entered. *)
Theorem findTypeScriptFiles_lists_reachable_sources
    (path_join : string -> string -> string) (dir : string)
    (entries : list Dirent) (p : string) :
  p ∈ findTypeScriptFiles path_join dir entries <->
  exists dirs name,
    located entries dirs name /\
    Forall (fun d => d ∉ ignoreDirs) dirs /\
    (endsWith name ".ts" = true \/ endsWith name ".tsx" = true) /\
    p = path_join (descend path_join dir dirs) name.
Proof.
  unfold findTypeScriptFiles. split.
  - intros Hp. apply walk_elem in Hp as (e & He & Hp).
    apply walk_entry_sound in Hp as (dirs & name & Hloc & Hdirs & Hext & ->).
    exists dirs, name. split; [|done].
    apply (located_mono [e] entries); [|done].
    intros e' He'. by apply list_elem_of_singleton in He' as ->.
  - intros (dirs & name & Hloc & Hdirs & Hext & ->). by apply walk_complete.
Qed.


Section WithHost.
Context `{Host}.


Local Ltac line_side :=
  solve [ done
        | by repeat constructor
        | unfold businessLogic_line, dataFetching_line, boundaries_line,
            circular_line; discriminate ].

(** X23. The rules document lists a rule exactly when its toggle is on,
    which is when the check enforces it: a rule the document does not
    list returns the empty result for every file. *)
Theorem cursor_rules_follow_the_toggles (architecture : ArchitectureConfig) :
  Forall (fun entry : string * Rule * (RuleToggles -> JsValue) =>
            let '(line, rule, toggle) := entry in
            (line ∈ rule_lines (rules architecture)
             <-> truthy (toggle (rules architecture)) = true) /\
            (line ∉ rule_lines (rules architecture) ->
             forall context,
               Core.architecture context = architecture ->
               execute rule context = ret empty_result))
    [ (businessLogic_line, createBusinessLogicInComponentsRule,
       noBusinessLogicInComponents);
      (dataFetching_line, createDataFetchingInUIRule, noDataFetchingInUI);
      (boundaries_line, createLayerImportBoundaryRule,
       enforceFeatureBoundaries);
      (circular_line, createCircularDependencyRule, noCircularLayerDeps) ].
Proof.
  assert (forall line toggle,
             line ∈ [businessLogic_line; dataFetching_line; boundaries_line;
                     circular_line] ->
             (line = businessLogic_line -> toggle = noBusinessLogicInComponents) ->
             (line = dataFetching_line -> toggle = noDataFetchingInUI) ->
             (line = boundaries_line -> toggle = enforceFeatureBoundaries) ->
             (line = circular_line -> toggle = noCircularLayerDeps) ->
             line ∈ rule_lines (rules architecture)
             <-> truthy (toggle (rules architecture)) = true) as Hlisted.
  { intros line toggle Hline Hb Hd He Hc. unfold rule_lines.
    rewrite !elem_of_app.
    repeat (apply elem_of_cons in Hline as [->|Hline]); [| | | |inversion Hline].
    - rewrite (Hb eq_refl).
      destruct (truthy (noBusinessLogicInComponents _)),
        (truthy (noDataFetchingInUI _)), (truthy (enforceFeatureBoundaries _)),
        (truthy (noCircularLayerDeps _));
        rewrite ?list_elem_of_singleton, ?elem_of_nil;
        unfold businessLogic_line, dataFetching_line, boundaries_line,
          circular_line; intuition congruence.
    - rewrite (Hd eq_refl).
      destruct (truthy (noBusinessLogicInComponents _)),
        (truthy (noDataFetchingInUI _)), (truthy (enforceFeatureBoundaries _)),
        (truthy (noCircularLayerDeps _));
        rewrite ?list_elem_of_singleton, ?elem_of_nil;
        unfold businessLogic_line, dataFetching_line, boundaries_line,
          circular_line; intuition congruence.
    - rewrite (He eq_refl).
      destruct (truthy (noBusinessLogicInComponents _)),
        (truthy (noDataFetchingInUI _)), (truthy (enforceFeatureBoundaries _)),
        (truthy (noCircularLayerDeps _));
        rewrite ?list_elem_of_singleton, ?elem_of_nil;
        unfold businessLogic_line, dataFetching_line, boundaries_line,
          circular_line; intuition congruence.
    - rewrite (Hc eq_refl).
      destruct (truthy (noBusinessLogicInComponents _)),
        (truthy (noDataFetchingInUI _)), (truthy (enforceFeatureBoundaries _)),
        (truthy (noCircularLayerDeps _));
        rewrite ?list_elem_of_singleton, ?elem_of_nil;
        unfold businessLogic_line, dataFetching_line, boundaries_line,
          circular_line; intuition congruence. }
  assert (forall b : bool, b <> true -> negb b = true) as Hoff
    by (by intros []).
  repeat apply List.Forall_cons; [| | | |apply List.Forall_nil];
    (split; [apply Hlisted; line_side|]).
  - rewrite (Hlisted businessLogic_line noBusinessLogicInComponents) by line_side.
    intros Hnot context <-. simpl. unfold businessLogic_execute.
    by rewrite Hoff.
  - rewrite (Hlisted dataFetching_line noDataFetchingInUI) by line_side.
    intros Hnot context <-. simpl. unfold dataFetching_execute.
    by rewrite Hoff.
  - rewrite (Hlisted boundaries_line enforceFeatureBoundaries) by line_side.
    intros Hnot context <-. simpl. unfold layerImportBoundary_execute.
    by rewrite Hoff.
  - rewrite (Hlisted circular_line noCircularLayerDeps) by line_side.
    intros Hnot context <-. simpl. unfold circularDependency_execute.
    by rewrite Hoff.
Qed.

Variable path_absolute : string -> string.
Variable path_join : string -> string -> string.
Variable tryReadFileSync : string -> Outcome string.
Variable parseYaml : string -> Outcome JsValue.

(** X24. When the [n]-th parent of the start directory is a root, a
    directory that is its own parent, [findArchitectureConfig] returns
    within [n + 1] turns of its loop. The path it returns is the
    [architecture.yaml] of the nearest directory on the way up that has
    one; the root is not looked into, so [null] is returned when only the
    root, or no directory, has the file. *)
Theorem findArchitectureConfig_nearest_below_root
    (fs : FileSystem) (startPath : string) (n fuel : nat) :
  let start := path_absolute startPath in
  ancestor n start = path_dirname (ancestor n start) ->
  n < fuel ->
  exists result,
    findArchitectureConfig path_absolute path_join fuel fs startPath
    = Some result /\
    match result with
    | Some configPath =>
        exists k,
          k < n /\
          configPath = path_join (ancestor k start) "architecture.yaml" /\
          existsSync fs configPath = true /\
          (forall j, j < k ->
             existsSync fs (path_join (ancestor j start) "architecture.yaml")
             = false)
    | None =>
        exists k,
          k <= n /\
          ancestor k start = path_dirname (ancestor k start) /\
          (forall j, j < k ->
             existsSync fs (path_join (ancestor j start) "architecture.yaml")
             = false)
    end.
Proof.
  intros start Hroot Hfuel. unfold findArchitectureConfig. fold start.
  destruct (search_total path_join fs n start fuel Hroot Hfuel) as [r Hr].
  exists r. split; [done|]. destruct r as [configPath|].
  - apply search_found in Hr as (k & -> & Hex & Hnr & Hnone).
    exists k. split; [|done].
    destruct (decide (k < n)) as [Hlt|Hge]; [done|].
    exfalso. apply (Hnr n); [lia|done].
  - apply search_not_found in Hr as (k & Hk & Hnr & Hnone).
    exists k. split; [|done].
    destruct (decide (k <= n)) as [Hle|Hgt]; [done|].
    exfalso. apply (Hnr n); [lia|done].
Qed.

(** X25. A path that [findArchitectureConfig] returns passes the
    existence test of [loadArchitectureConfig]: loading it does not throw
    that the configuration is not found, and goes on to read the file;
    what it throws, if it throws, is what the reader, the YAML parser or
    the validator throws. *)
Theorem found_config_is_loaded
    (fs : FileSystem) (startPath configPath : string) (fuel : nat) :
  findArchitectureConfig path_absolute path_join fuel fs startPath
  = Some (Some configPath) ->
  loadArchitectureConfig tryReadFileSync parseYaml fs configPath
  = match tryReadFileSync configPath with
    | Throws message => Throws message
    | Returns content =>
        match parseYaml content with
        | Throws message => Throws message
        | Returns parsed => validateArchitectureConfig parsed
        end
    end.
Proof.
  unfold findArchitectureConfig. intros Hfound.
  apply search_found in Hfound as (k & _ & Hex & _).
  unfold loadArchitectureConfig. by rewrite Hex.
Qed.

End WithHost.
End ConfigProperties.

(** ** The further properties at concrete inputs *)

Module MoreWitnesses.
Import JsValue Counted Ast Core Host Parser Rules Spec Config Cli Run Js.
Import Tree Reports Walker ConfigSearch ConfigSpec Cursor.
Import ExampleHost Examples MoreExamples.
Import Graph GraphFacts.
Import EngineProperties RunProperties GraphProperties BuilderProperties.
Import HeuristicProperties ConfigProperties.

Lemma runChecks_passes_when_all_rules_off_witness :
  runChecks (table_fs mutual_project) architecture_off (map fst mutual_project)
  = ret {| check_passed := true; violationCount := 0 |}.
Proof.
  apply (@runChecks_passes_when_all_rules_off example_host); reflexivity.
Defined.

Lemma boundary_violation_has_a_cause_witness :
  let context := context_of architecture_on None foo_path foo_source in
  exists v,
    violations (value (execute createLayerImportBoundaryRule context)) = [v] /\
    exists layerName layerConfig imp imported,
      detectLayerFromPath (filePath context) (layers (architecture context))
      = Some layerName /\
      get_layer (layers (architecture context)) layerName = Some layerConfig /\
      imp ∈ imports context /\
      isRelativeImport (from imp) = true /\
      detectLayerFromImportPath (from imp) (filePath context)
        (layers (architecture context)) = Some imported /\
      imported <> layerName /\
      has_string (allowedImports layerConfig) imported = false /\
      message v = boundary_message layerName imported layerConfig.
Proof.
  intros context. eexists. split; [vm_compute; reflexivity|].
  apply (@boundary_violation_has_a_cause example_host context).
  vm_compute. left.
Defined.

Lemma returned_cycle_runs_through_keys_witness :
  let c := ["a"; "b"; "c"; "a"] in
  c ∈ detectCycles two_cycles_graph /\
  2 <= length c /\
  head c = last c /\
  (forall x, x ∈ c -> x ∈ keys two_cycles_graph) /\
  exists f, firstFileInCycle c = Some f /\ f ∈ c /\ f ∈ keys two_cycles_graph.
Proof.
  intros c.
  assert (c ∈ detectCycles two_cycles_graph) as Hc by (vm_compute; left).
  split; [exact Hc|].
  exact (returned_cycle_runs_through_keys two_cycles_graph c Hc).
Defined.

Lemma run_reports_each_cycle_once_witness :
  let fs := table_fs mutual_project in
  let files := map fst mutual_project in
  length (List.filter
            (fun v => String.eqb (rule v) "no-circular-layer-deps")
            (value (runChecks_violations fs architecture_on files)))
  = length (detectCycles (buildImportGraph fs files)) /\
  check_passed (value (runChecks fs architecture_on files)) = false.
Proof.
  intros fs files.
  assert (NoDup files) as Hnd.
  { apply NoDup_cons. split; [|apply NoDup_singleton].
    intros Hin. apply list_elem_of_singleton in Hin. discriminate Hin. }
  destruct (@run_reports_each_cycle_once example_host fs architecture_on files
              eq_refl Hnd) as (Hcount & _ & Hfails).
  split; [exact Hcount|]. apply Hfails.
  exists ["/proj/a.ts"; "/proj/b.ts"; "/proj/a.ts"], "/proj/a.ts", ["/proj/b.ts"].
  split; [reflexivity|]. simpl. split; [|split; [|split; [discriminate|exact I]]].
  - intros w Hw. injection Hw as <-. unfold edge. vm_compute. left.
  - intros w Hw. injection Hw as <-. unfold edge. vm_compute. left.
Defined.

Lemma heuristic_rules_skip_files_without_react_or_declaration_witness :
  let context := context_of architecture_on None foo_path foo_source in
  execute createBusinessLogicInComponentsRule context = ret empty_result /\
  execute createDataFetchingInUIRule context = ret empty_result.
Proof.
  intros context.
  apply (@heuristic_rules_skip_files_without_react_or_declaration
           example_host context).
  left. intros Hin. apply list_elem_of_In in Hin. vm_compute in Hin.
  destruct Hin as [Heq|[]]. discriminate Heq.
Defined.

Lemma businessLogic_reports_within_components_witness :
  let path := component_path in
  let context := component_context in
  @loop_violation component_host component_tree path
    (mkNode ForStatement 53 [])
  ∈ violations
      (value (execute (@createBusinessLogicInComponentsRule component_host)
                context)) /\
  @conditional_violation component_host component_tree path
    (mkNode IfStatement 80 [mkNode OtherKind 84 []])
  ∈ violations
      (value (execute (@createBusinessLogicInComponentsRule component_host)
                context)).
Proof.
  intros path context.
  set (component :=
         mkNode (FunctionDeclaration (Some "UserList")) 27
           [ mkNode ForStatement 53 [];
             mkNode IfStatement 80 [mkNode OtherKind 84 []];
             mkNode IfStatement 100 [mkNode Identifier 104 []] ]).
  split.
  - apply (proj2 (@businessLogic_reports_within_components component_host
                    context _ eq_refl eq_refl)).
    exists component, (mkNode ForStatement 53 []).
    split; [simpl; right; right; left|]. split; [reflexivity|].
    split; [simpl; right; left|]. left. split; reflexivity.
  - apply (proj2 (@businessLogic_reports_within_components component_host
                    context _ eq_refl eq_refl)).
    exists component, (mkNode IfStatement 80 [mkNode OtherKind 84 []]).
    split; [simpl; right; right; left|]. split; [reflexivity|].
    split; [simpl; right; right; left|]. right.
    split; [reflexivity|]. split; reflexivity.
Defined.

Lemma dataFetching_reports_every_match_witness :
  let context := component_context in
  length (violations
            (value (execute (@createDataFetchingInUIRule component_host)
                      context))) = 2.
Proof.
  intros context.
  destruct (@dataFetching_reports_every_match component_host context
              eq_refl eq_refl) as [_ Hlength].
  exact Hlength.
Defined.

Lemma validateArchitectureConfig_keeps_layers_witness :
  exists architecture,
    validateArchitectureConfig proto_layer_document = Returns architecture /\
    map fst (layers architecture) = ["ui"] /\
    get_layer (layers architecture) "ui"
    = Some {| allowedImports := [JStr "domain"] |} /\
    get_layer (layers architecture) "__proto__" = None.
Proof.
  eexists. split; [reflexivity|].
  assert (NoDup (map fst (entries (get_prop proto_layer_document "layers"))))
    as Hnd.
  { apply NoDup_cons. split; [|apply NoDup_singleton].
    intros Hin. apply list_elem_of_singleton in Hin. discriminate Hin. }
  destruct (validateArchitectureConfig_keeps_layers proto_layer_document _
              eq_refl Hnd) as [Hkeys Hget].
  split; [exact Hkeys|]. split; [exact (Hget "ui")|exact (Hget "__proto__")].
Defined.

Lemma validateArchitectureConfig_toggles_by_truthiness_witness :
  exists architecture,
    validateArchitectureConfig text_toggle_document = Returns architecture /\
    noCircularLayerDeps (rules architecture) = JStr "false" /\
    truthy (noCircularLayerDeps (rules architecture)) = true.
Proof.
  eexists. split; [reflexivity|]. split; [reflexivity|].
  destruct (validateArchitectureConfig_toggles_by_truthiness
              text_toggle_document _ eq_refl) as (_ & _ & _ & Hcircular).
  exact Hcircular.
Defined.

Lemma findArchitectureConfig_nearest_below_root_witness :
  (exists result,
      findArchitectureConfig id posix_join 4 config_fs "/proj/src/ui"
      = Some result /\
      match result with
      | Some configPath =>
          exists k,
            k < 3 /\
            configPath
            = posix_join (ancestor k "/proj/src/ui") "architecture.yaml" /\
            existsSync config_fs configPath = true /\
            (forall j, j < k ->
               existsSync config_fs
                 (posix_join (ancestor j "/proj/src/ui") "architecture.yaml")
               = false)
      | None =>
          exists k,
            k <= 3 /\
            ancestor k "/proj/src/ui"
            = path_dirname (ancestor k "/proj/src/ui") /\
            (forall j, j < k ->
               existsSync config_fs
                 (posix_join (ancestor j "/proj/src/ui") "architecture.yaml")
               = false)
      end).
Proof.
  apply (@findArchitectureConfig_nearest_below_root example_host id posix_join
           config_fs "/proj/src/ui" 3 4); [reflexivity|lia].
Defined.

Lemma found_config_is_loaded_witness :
  loadArchitectureConfig config_read example_parseYaml config_fs
    "/proj/architecture.yaml"
  = Returns {| layers := []; rules := all_off |}.
Proof.
  exact (@found_config_is_loaded example_host id posix_join config_read
           example_parseYaml config_fs "/proj/src/ui"
           "/proj/architecture.yaml" 4 eq_refl).
Defined.

(** The run of the examples. *)

(** The source tree of the example: what the walker lists. *)
Example project_tree_sources :
  findTypeScriptFiles posix_join "/proj" project_tree
  = [ "/proj/src/main.tsx"; "/proj/src/ui/Foo.tsx"; "/proj/src/ui/types.d.ts" ].
Proof. vm_compute. reflexivity. Qed.

(** The configuration file of the nearest directory is found; the one of
    the root is not looked for. *)
Example config_of_nearest_directory :
  findArchitectureConfig id posix_join 10 config_fs "/proj/src/ui"
  = Some (Some "/proj/architecture.yaml")
  /\ existsSync config_fs "/architecture.yaml" = true
  /\ findArchitectureConfig id posix_join 10 config_fs "/other/dir"
     = Some None.
Proof. vm_compute. repeat split. Qed.

(** The component file of the example: the loop and the conditional on a
    call are reported, the conditional on an identifier and the loop of
    the function that is no component are not. *)
Example component_file_violations :
  let path := component_path in
  violations
    (value (execute (@createBusinessLogicInComponentsRule component_host)
              component_context))
  = [ @loop_violation component_host component_tree path
        (mkNode ForStatement 53 []);
      @conditional_violation component_host component_tree path
        (mkNode IfStatement 80 [mkNode OtherKind 84 []]) ].
Proof. vm_compute. reflexivity. Qed.

(** The chain of two files has no cycle to report. *)
Example chain_project_passes :
  runChecks (table_fs chain_project) architecture_on (map fst chain_project)
  = ({| check_passed := true; violationCount := 0 |}, 2).
Proof. vm_compute. reflexivity. Qed.

(** The rules document of the example configuration. *)
Example rules_document_of_example :
  exists document,
    generateCursorRules architecture_on = Returns document /\
    includes document
      "- **features**: Can import from: domain, shared" = true /\
    includes document "- **domain**: Can import from: none" = true.
Proof. eexists. split; [reflexivity|]. vm_compute. split; reflexivity. Qed.

End MoreWitnesses.
